(** * MCV: the backend call envelope and its two backends

    A shallow embedding of the vision-backend call path of MCV:

    - [callMcvApi] of [src/app.ts], the client-side dispatcher, with its web
      (OpenCV.js) branch, its python (HTTP) branch, the memoised runtime
      loader [getWebMcvRuntime] and the module-level variables of [app.ts];
    - [api_mcv] and [handle_mcv_cv_opencv_test] of the Flask server that
      [build/pipeline/common.js] renders into [mcv_standalone.py].

    JavaScript and Python values are modelled as JSON trees, exceptions as
    the text [String(error)] / [str(exc)] gives them, an awaited promise by
    the way it settles.  A promise that never settles has no counterpart
    here: every [await] below yields a value or an exception. *)

From Stdlib Require Import ZArith QArith List String Bool Lia DecimalString.
Import ListNotations.

Open Scope string_scope.
Open Scope Z_scope.

(* ================================================================== *)
(** ** Values *)

(** A JS/Python number.  The numbers computed here are bytes, matrix
    dimensions and one quotient of two integers; they are kept exact, as
    reduced rationals.  [NaN] is what [np.mean] yields on an empty array. *)
Inductive number : Type :=
| Num (q : Q)
| NaN.

#[local] Set Warnings "-register-all".
Inductive json : Type :=
| JNull
| JBool (b : bool)
| JNum (n : number)
| JStr (s : string)
| JArr (items : list json)
| JObj (fields : list (string * json)).

Definition JInt (z : Z) : json := JNum (Num (inject_Z z)).

(** Property access [obj.key]; [None] stands for [undefined]. *)
Fixpoint assoc (key : string) (fields : list (string * json)) : option json :=
  match fields with
  | [] => None
  | (k, v) :: rest => if String.eqb k key then Some v else assoc key rest
  end.

Definition field (key : string) (j : json) : option json :=
  match j with
  | JObj fields => assoc key fields
  | _ => None
  end.

Definition has_field (key : string) (j : json) : bool :=
  match field key j with Some _ => true | None => false end.

(** What [json.dumps] cannot write as JSON: Python prints a NaN as the bare
    token [NaN], which [JSON.parse] refuses. *)
Fixpoint has_nan (j : json) : bool :=
  match j with
  | JNum NaN => true
  | JArr items => existsb has_nan items
  | JObj fields => existsb (fun kv => has_nan (snd kv)) fields
  | _ => false
  end.

(** Exceptions, by their rendering as text. *)
Definition exn : Type := string.

Inductive result (A : Type) : Type :=
| Ok (a : A)
| Throw (e : exn).
Arguments Ok {A} a.
Arguments Throw {A} e.

(* ================================================================== *)
(** ** The request/response envelope ([app.ts], lines 1-29) *)

Record McvRequest : Type := {
  op : string;
  args : json
}.

Definition McvSuccess (data : json) : json :=
  JObj [("ok", JBool true); ("data", data)].

Definition McvFailure (code message : string) (details : option string) : json :=
  JObj [("ok", JBool false);
        ("error",
         JObj ([("code", JStr code); ("message", JStr message)]
               ++ match details with
                  | Some d => [("details", JStr d)]
                  | None => []
                  end))].

(** The shape of [McvResponse<TData>]: [{ok: true, data}] or
    [{ok: false, error: {code: string, message: string, details?}}]. *)
Definition is_string (o : option json) : bool :=
  match o with Some (JStr _) => true | _ => false end.

Definition is_success (j : json) : bool :=
  match field "ok" j with
  | Some (JBool true) => has_field "data" j
  | _ => false
  end.

Definition is_failure (j : json) : bool :=
  match field "ok" j, field "error" j with
  | Some (JBool false), Some err =>
      is_string (field "code" err) && is_string (field "message" err)
  | _, _ => false
  end.

Definition is_envelope (j : json) : bool := is_success j || is_failure j.

Definition error_code (j : json) : option string :=
  match field "ok" j, field "error" j with
  | Some (JBool false), Some err =>
      match field "code" err with Some (JStr c) => Some c | _ => None end
  | _, _ => None
  end.

Definition success_data (j : json) : option json :=
  match field "ok" j with
  | Some (JBool true) => field "data" j
  | _ => None
  end.

(* ================================================================== *)
(** ** OpenCV as the two backends see it *)

(** An 8-bit matrix: [rows], [cols], channel count and the flat byte data
    ([Mat.data] in OpenCV.js, [ndarray.reshape(-1)] in numpy). *)
Record Mat : Type := {
  rows : Z;
  cols : Z;
  channels : Z;
  data : list Z
}.

Inductive MatType : Type := CV_8UC1 | CV_8UC3.
Inductive ColorConversionCode : Type := COLOR_RGB2GRAY | COLOR_BGR2GRAY.

Definition channels_of (t : MatType) : Z :=
  match t with CV_8UC1 => 1 | CV_8UC3 => 3 end.

(** The OpenCV.js runtime object, by the members [callMcvApi] touches.
    Every call may throw; [cvtColor src dst code] gives the content of
    [dst] after the call. *)
Record CvJs : Type := {
  js_VERSION : option string;
  js_matFromArray : Z -> Z -> MatType -> list Z -> result Mat;
  js_Mat : result Mat;
  js_cvtColor : Mat -> Mat -> ColorConversionCode -> result Mat;
  js_delete : Mat -> result unit
}.

(** The [cv2] module of the Python process. *)
Record Cv2 : Type := {
  cv2_version : string;
  cv2_cvtColor : Mat -> ColorConversionCode -> result Mat
}.

(* ================================================================== *)
(** ** Module-level variables of [app.ts] (lines 95-103) *)

Inductive MediaTab : Type := videos_tab | images_tab.

Inductive MediaLoadState : Type :=
| loading | no_api | fetching | failed | loaded.

Record MediaVideoEntry : Type := {
  video_name : string;
  video_url : string;
  youtube_id : option string
}.

Record MediaImageEntry : Type := {
  image_name : string;
  image_url : string
}.

Record MediaLibrary : Type := {
  videos : list (string * MediaVideoEntry);
  images : list (string * MediaImageEntry)
}.

Record SelectedMedia : Type := {
  tab : MediaTab;
  id : string;
  item : MediaVideoEntry + MediaImageEntry;
  timestampLabel : option string
}.

(** [cvPromise] holds [null] or a promise; a promise is identified with the
    way it settles. *)
Record ModuleState : Type := {
  cvPromise : option (result CvJs);
  activeMediaTab : MediaTab;
  mediaLoadState : MediaLoadState;
  mediaSearchQuery : string;
  selectedMedia : option SelectedMedia;
  mediaLibrary : MediaLibrary
}.

Definition set_cvPromise (p : result CvJs) (s : ModuleState) : ModuleState :=
  {| cvPromise := Some p;
     activeMediaTab := activeMediaTab s;
     mediaLoadState := mediaLoadState s;
     mediaSearchQuery := mediaSearchQuery s;
     selectedMedia := selectedMedia s;
     mediaLibrary := mediaLibrary s |}.

(** The module as it is when [app.ts] has just been evaluated. *)
Definition initial_state : ModuleState :=
  {| cvPromise := None;
     activeMediaTab := videos_tab;
     mediaLoadState := loading;
     mediaSearchQuery := "";
     selectedMedia := None;
     mediaLibrary := {| videos := []; images := [] |} |}.

(* ================================================================== *)
(** ** Computations: module state, exceptions, and a log of the calls
       that leave the module *)

Inductive Event : Type :=
| EvLoadScript (url : string)      (* loadScriptOnce(url) *)
| EvAwaitCv                        (* awaiting cv() or a thenable cv *)
| EvCv (member : string)           (* a call into the OpenCV.js runtime *)
| EvFetch (url : string).          (* fetch(url, ...) *)

Record Run (A : Type) : Type := {
  outcome : result A;
  final : ModuleState;
  trace : list Event
}.
Arguments outcome {A} r.
Arguments final {A} r.
Arguments trace {A} r.

Definition M (A : Type) : Type := ModuleState -> Run A.

Definition ret {A} (a : A) : M A :=
  fun s => {| outcome := Ok a; final := s; trace := [] |}.

Definition throw {A} (e : exn) : M A :=
  fun s => {| outcome := Throw e; final := s; trace := [] |}.

Definition bind {A B} (m : M A) (k : A -> M B) : M B :=
  fun s =>
    let r := m s in
    match outcome r with
    | Ok a =>
        let r' := k a (final r) in
        {| outcome := outcome r'; final := final r';
           trace := trace r ++ trace r' |}
    | Throw e => {| outcome := Throw e; final := final r; trace := trace r |}
    end.

(** [try { body } catch (error) { handler(error) }]. *)
Definition try_catch {A} (body : M A) (handler : exn -> M A) : M A :=
  fun s =>
    let r := body s in
    match outcome r with
    | Ok a => r
    | Throw e =>
        let r' := handler e (final r) in
        {| outcome := outcome r'; final := final r';
           trace := trace r ++ trace r' |}
    end.

(** An effect outside the module: logged, then settled as given. *)
Definition perform {A} (ev : Event) (r : result A) : M A :=
  fun s => {| outcome := r; final := s; trace := [ev] |}.

Definition get_cvPromise : M (option (result CvJs)) :=
  fun s => {| outcome := Ok (cvPromise s); final := s; trace := [] |}.

Definition put_cvPromise (p : result CvJs) : M unit :=
  fun s => {| outcome := Ok tt; final := set_cvPromise p s; trace := [] |}.

(** Awaiting a settled promise. *)
Definition await {A} (p : result A) : M A :=
  match p with Ok a => ret a | Throw e => throw e end.

Declare Scope mcv_scope.
Delimit Scope mcv_scope with mcv.
Notation "x <- m ;; k" := (bind m (fun x => k))
  (at level 61, m at next level, right associativity) : mcv_scope.
Notation "m ;;; k" := (bind m (fun _ => k))
  (at level 61, right associativity) : mcv_scope.
Open Scope mcv_scope.

(* ================================================================== *)
(** ** What surrounds the module: the page and the network *)

(** [globalThis.cv] as [getWebMcvRuntime] classifies it: falsy, a factory
    function (given by what awaiting its call yields), a thenable (by how it
    settles) or the runtime object itself. *)
Inductive CvGlobal : Type :=
| CvUndefined
| CvFactory (made : result CvJs)
| CvThenable (settles : result CvJs)
| CvObject (cv : CvJs).

Record HttpResponse : Type := {
  status : Z;
  json_body : result json        (* how [response.json()] settles *)
}.

(** [Response.ok]. *)
Definition response_ok (r : HttpResponse) : bool :=
  (200 <=? status r) && (status r <=? 299).

Record World : Type := {
  globalThis_cv : CvGlobal;          (* at the first lookup *)
  script_load : result unit;         (* how loadScriptOnce settles *)
  globalThis_cv_loaded : CvGlobal;   (* once the script has loaded *)
  fetch : string -> McvRequest -> result HttpResponse
}.

Inductive Backend : Type := python | web.

(** The constants esbuild defines ([buildCommonArtifacts]). *)
Record Build : Type := {
  MCV_BACKEND : Backend;
  MCV_OPENCV_URL : string
}.

Definition string_of_Z (z : Z) : string := NilZero.string_of_int (Z.to_int z).

(* ================================================================== *)
(** ** [app.ts]: the runtime loader *)

(** [loadScriptOnce]: the script element and its listeners live in the
    DOM; what reaches the caller is how the returned promise settles. *)
Definition loadScriptOnce (w : World) (scriptUrl : string) : M unit :=
  perform (EvLoadScript scriptUrl) (script_load w).

(** The body of the async function stored in [cvPromise]. *)
Definition resolve_cv (cfg : Build) (w : World) : M CvJs :=
  let maybeGlobalCv := globalThis_cv w in
  cvCandidate <-
    match maybeGlobalCv with
    | CvUndefined =>
        loadScriptOnce w (MCV_OPENCV_URL cfg) ;;; ret (globalThis_cv_loaded w)
    | _ => ret maybeGlobalCv
    end ;;
  match cvCandidate with
  | CvUndefined => throw "Error: opencv.js runtime not found on window.cv"
  | CvFactory made => perform EvAwaitCv made
  | CvThenable settles => perform EvAwaitCv settles
  | CvObject cv => ret cv
  end.

(** Running an async body to the promise it returns. *)
Definition promise_of {A} (body : M A) : M (result A) :=
  fun s =>
    let r := body s in
    {| outcome := Ok (outcome r); final := final r; trace := trace r |}.

Definition getWebMcvRuntime (cfg : Build) (w : World) : M CvJs :=
  cached <- get_cvPromise ;;
  match cached with
  | Some promise => await promise
  | None =>
      promise <- promise_of (resolve_cv cfg w) ;;
      put_cvPromise promise ;;;
      await promise
  end.

(* ================================================================== *)
(** ** [app.ts]: [callMcvApi] *)

Definition opencv_test_pixels : list Z := [255; 0; 0; 0; 255; 0; 0; 0; 255].

(** [a / b] on numbers that are integers, [b] positive. *)
Definition quotient (a b : Z) : number :=
  Num (Qred (inject_Z a / inject_Z b)).

(** [grayValues.reduce((sum, value) => sum + value, 0)]. *)
Definition reduce_sum (grayValues : list Z) : Z :=
  fold_left (fun sum value => sum + value) grayValues 0.

Definition js_length {A} (xs : list A) : Z := Z.of_nat (List.length xs).

Definition callMcvApi (cfg : Build) (requestBody : McvRequest) (w : World)
  : M json :=
  match MCV_BACKEND cfg with
  | web =>
      if negb (op requestBody =? "cv.opencvTest")%string then
        ret (McvFailure "UNKNOWN_OP"
               ("Unsupported operation in web backend: " ++ op requestBody)
               None)
      else
        try_catch
          (cv <- getWebMcvRuntime cfg w ;;
           src <- perform (EvCv "matFromArray")
                    (js_matFromArray cv 1 3 CV_8UC3 opencv_test_pixels) ;;
           gray0 <- perform (EvCv "Mat") (js_Mat cv) ;;
           gray <- perform (EvCv "cvtColor")
                     (js_cvtColor cv src gray0 COLOR_RGB2GRAY) ;;
           let grayValues := data gray in
           let response :=
             McvSuccess
               (JObj
                  [("opencv_version",
                    JStr match js_VERSION cv with
                         | Some v => v
                         | None => "opencv.js"
                         end);
                   ("gray_values", JArr (map JInt grayValues));
                   ("shape", JArr [JInt (rows gray); JInt (cols gray)]);
                   ("mean_gray",
                    JNum (if js_length grayValues >? 0
                          then quotient (reduce_sum grayValues)
                                        (js_length grayValues)
                          else Num 0))]) in
           perform (EvCv "delete") (js_delete cv src) ;;;
           perform (EvCv "delete") (js_delete cv gray) ;;;
           ret response)
          (fun error =>
             ret (McvFailure "WEB_BACKEND_ERROR" "OpenCV.js call failed"
                    (Some error)))
  | python =>
      try_catch
        (response <- perform (EvFetch "/api/mcv")
                       (fetch w "/api/mcv" requestBody) ;;
         if negb (response_ok response) then
           ret (McvFailure "HTTP_ERROR"
                  ("HTTP " ++ string_of_Z (status response)) None)
         else await (json_body response))
        (fun error =>
           ret (McvFailure "NETWORK_ERROR" "Could not reach backend API"
                  (Some error)))
  end.

(** Successive invocations in one page: each request meets the world as
    it is at that moment and the module as the previous call left it. *)
Fixpoint session (cfg : Build) (calls : list (McvRequest * World))
  (s : ModuleState) : list (result json) :=
  match calls with
  | [] => []
  | (requestBody, w) :: rest =>
      let r := callMcvApi cfg requestBody w s in
      outcome r :: session cfg rest (final r)
  end.

(* ================================================================== *)
(** ** [mcv_standalone.py]: the Flask backend
       (rendered by [renderPythonStandaloneScript]) *)

(** Python truthiness, for [payload.get("args") or {}]. *)
Definition py_truthy (j : json) : bool :=
  match j with
  | JNull => false
  | JBool b => b
  | JNum (Num q) => negb (Qeq_bool q 0)
  | JNum NaN => true
  | JStr s => negb (s =? "")%string
  | JArr items => match items with [] => false | _ => true end
  | JObj fields => match fields with [] => false | _ => true end
  end.

Definition py_or_empty (j : json) : json :=
  if py_truthy j then j else JObj [].

(** [float(np.mean(a))] over bytes: the sum over the count, NaN when the
    array is empty. *)
Definition np_mean (values : list Z) : number :=
  match values with
  | [] => NaN
  | _ => quotient (fold_left Z.add values 0) (Z.of_nat (List.length values))
  end.

Definition handle_mcv_cv_opencv_test (cv2 : Cv2) (_args : json) : result json :=
  let rgb := {| rows := 1; cols := 3; channels := 3;
                data := opencv_test_pixels |} in
  match cv2_cvtColor cv2 rgb COLOR_RGB2GRAY with
  | Throw e => Throw e
  | Ok gray =>
      Ok (JObj [("opencv_version", JStr (cv2_version cv2));
                ("gray_values", JArr (map JInt (data gray)));
                ("shape", JArr [JInt (rows gray); JInt (cols gray)]);
                ("mean_gray", JNum (np_mean (data gray)))])
  end.

(** The view function: the JSON body and the HTTP status it returns, or
    the exception it lets escape. *)
Definition api_mcv (cv2 : Cv2) (payload : McvRequest) : result (json * Z) :=
  let op := op payload in
  let args := py_or_empty (args payload) in
  if (op =? "cv.opencvTest")%string then
    match handle_mcv_cv_opencv_test cv2 args with
    | Ok data => Ok (McvSuccess data, 200)
    | Throw e => Throw e
    end
  else
    Ok (McvFailure "UNKNOWN_OP" ("Unsupported operation: " ++ op) None, 400).

(** Flask around a view: an escaped exception becomes a 500 page, which is
    not JSON; a body holding a NaN is sent as text no JSON parser takes. *)
Definition flask_response (view : result (json * Z)) : HttpResponse :=
  match view with
  | Ok (body, code) =>
      {| status := code;
         json_body := if has_nan body
                      then Throw "SyntaxError: Unexpected token 'N'"
                      else Ok body |}
  | Throw _ =>
      {| status := 500;
         json_body := Throw "SyntaxError: Unexpected token '<'" |}
  end.

(** The network as the python target provides it: the page is served by
    the Flask process, so [/api/mcv] reaches [api_mcv]. *)
Definition python_target_fetch (cv2 : Cv2) (url : string)
  (requestBody : McvRequest) : result HttpResponse :=
  if (url =? "/api/mcv")%string
  then Ok (flask_response (api_mcv cv2 requestBody))
  else Ok {| status := 404;
             json_body := Throw "SyntaxError: Unexpected token '<'" |}.

(* ================================================================== *)
(** ** A sample OpenCV, to run the model on *)

(** RGB to gray on bytes the way OpenCV's 8-bit path rounds it:
    Y = 0.299 R + 0.587 G + 0.114 B in 14-bit fixed point. *)
Fixpoint gray_of_rgb (bytes : list Z) : list Z :=
  match bytes with
  | r :: g :: b :: rest =>
      ((r * 4899 + g * 9617 + b * 1868 + 8192) / 16384) :: gray_of_rgb rest
  | _ => []
  end.

Fixpoint gray_of_bgr (bytes : list Z) : list Z :=
  match bytes with
  | b :: g :: r :: rest =>
      ((r * 4899 + g * 9617 + b * 1868 + 8192) / 16384) :: gray_of_bgr rest
  | _ => []
  end.

Definition sample_cvtColor (src : Mat) (code : ColorConversionCode)
  : result Mat :=
  if (channels src =? 3) && (js_length (data src) =? rows src * cols src * 3)
  then Ok {| rows := rows src; cols := cols src; channels := 1;
             data := match code with
                     | COLOR_RGB2GRAY => gray_of_rgb (data src)
                     | COLOR_BGR2GRAY => gray_of_bgr (data src)
                     end |}
  else Throw "cv::Exception: Invalid number of channels in input image".

Definition sample_cvjs : CvJs :=
  {| js_VERSION := None;
     js_matFromArray := fun r c t bytes =>
       Ok {| rows := r; cols := c; channels := channels_of t; data := bytes |};
     js_Mat := Ok {| rows := 0; cols := 0; channels := 1; data := [] |};
     js_cvtColor := fun src _ code => sample_cvtColor src code;
     js_delete := fun _ => Ok tt |}.

Definition sample_cv2 : Cv2 :=
  {| cv2_version := "4.9.0"; cv2_cvtColor := sample_cvtColor |}.

Definition web_build : Build :=
  {| MCV_BACKEND := web; MCV_OPENCV_URL := "/opencv.js" |}.

Definition python_build : Build :=
  {| MCV_BACKEND := python; MCV_OPENCV_URL := "/opencv.js" |}.

(** A page of the web target with the runtime already on [window.cv]. *)
Definition sample_web_world : World :=
  {| globalThis_cv := CvObject sample_cvjs;
     script_load := Ok tt;
     globalThis_cv_loaded := CvObject sample_cvjs;
     fetch := fun _ _ => Throw "TypeError: Failed to fetch" |}.

(** A page of the python target, served by the Flask process. *)
Definition sample_python_world : World :=
  {| globalThis_cv := CvUndefined;
     script_load := Throw "Error: Failed to load /opencv.js";
     globalThis_cv_loaded := CvUndefined;
     fetch := python_target_fetch sample_cv2 |}.

(** A page where OpenCV.js cannot be had. *)
Definition broken_web_world : World :=
  {| globalThis_cv := CvUndefined;
     script_load := Throw "Error: Failed to load /opencv.js";
     globalThis_cv_loaded := CvUndefined;
     fetch := fun _ _ => Throw "TypeError: Failed to fetch" |}.

Definition opencvTest_request : McvRequest :=
  {| op := "cv.opencvTest"; args := JObj [] |}.

(** An OpenCV.js runtime that names its version. *)
Definition versioned_cvjs : CvJs :=
  {| js_VERSION := Some "4.10.0";
     js_matFromArray := js_matFromArray sample_cvjs;
     js_Mat := js_Mat sample_cvjs;
     js_cvtColor := js_cvtColor sample_cvjs;
     js_delete := js_delete sample_cvjs |}.

(** A page on which that runtime is on [window.cv]. *)
Definition versioned_web_world : World :=
  {| globalThis_cv := CvObject versioned_cvjs;
     script_load := Ok tt;
     globalThis_cv_loaded := CvObject versioned_cvjs;
     fetch := fun _ _ => Throw "TypeError: Failed to fetch" |}.

(** A page of the python build whose [/api/mcv] is answered by another
    server: status 200 and the JSON body [[]]. *)
Definition foreign_world : World :=
  {| globalThis_cv := CvUndefined;
     script_load := Throw "Error: Failed to load /opencv.js";
     globalThis_cv_loaded := CvUndefined;
     fetch := fun _ _ => Ok {| status := 200; json_body := Ok (JArr []) |} |}.

(** A [cv2] whose conversion returns an array without elements. *)
Definition empty_cv2 : Cv2 :=
  {| cv2_version := "4.9.0";
     cv2_cvtColor := fun _ _ =>
       Ok {| rows := 0; cols := 0; channels := 1; data := [] |} |}.

Definition sample_gray_data (version : string) : json :=
  JObj [("opencv_version", JStr version);
        ("gray_values", JArr [JInt 76; JInt 150; JInt 29]);
        ("shape", JArr [JInt 1; JInt 3]);
        ("mean_gray", JInt 85)].

(* ================================================================== *)
(** ** The pose solver's front door, as the specification words it

    [app.ts] and the Flask script dispatch a single operation; the
    Correspondence Registry and [solvePose] of the specification (sections
    3, 4.1 and 4.2) have no source under [src/].  The definitions of this
    part follow the specification's text, over exact rationals. *)

Record Correspondence : Type := {
  pixel : Q * Q;
  world : Q * Q * Q
}.

Definition CorrespondenceSet : Type := list Correspondence.

Inductive SolveError : Type :=
| INSUFFICIENT_POINTS
| DEGENERATE_CONFIGURATION
| NON_CONVERGENCE.

Record CameraPoseEstimate : Type := {
  rotation : list (list Q);
  translation : Q * Q * Q;
  focalLength : Q;
  residuals : list Q;
  rmsError : Q;
  converged : bool
}.

Inductive Validation : Type :=
| valid
| rejected (e : SolveError).

Section SpecifiedSolver.

Local Open Scope Q_scope.

(** The tolerance of "near-": the specification leaves its value to the
    implementer (section 9). *)
Variable tolerance : Q.

(** Steps 1-5 of section 4.2 (DLT, decomposition, refinement): numerical
    code the specification only outlines. *)
Variable estimate_pose : CorrespondenceSet -> SolveError + CameraPoseEstimate.

Definition x3 (p : Q * Q * Q) : Q := fst (fst p).
Definition y3 (p : Q * Q * Q) : Q := snd (fst p).
Definition z3 (p : Q * Q * Q) : Q := snd p.

Definition count {A} (xs : list A) : Q := inject_Z (Z.of_nat (List.length xs)).

Definition sum_over {A} (f : A -> Q) (xs : list A) : Q :=
  fold_right (fun x acc => f x + acc) 0 xs.

Definition mean_over {A} (f : A -> Q) (xs : list A) : Q :=
  sum_over f xs / count xs.

(** One entry of a covariance matrix of centred points. *)
Definition cov {A} (f g : A -> Q) (centred : list A) : Q :=
  sum_over (fun q => f q * g q) centred / count centred.

Definition centre3 (ps : list (Q * Q * Q)) : list (Q * Q * Q) :=
  let mx := mean_over x3 ps in
  let my := mean_over y3 ps in
  let mz := mean_over z3 ps in
  map (fun p => (x3 p - mx, y3 p - my, z3 p - mz)) ps.

Definition centre2 (ps : list (Q * Q)) : list (Q * Q) :=
  let mu := mean_over fst ps in
  let mv := mean_over snd ps in
  map (fun p => (fst p - mu, snd p - mv)) ps.

Definition det3 (a b c d e f g h i : Q) : Q :=
  a * (e * i - f * h) - b * (d * i - f * g) + c * (d * h - e * g).

(** Modelled from the spec: the coplanarity half of the degeneracy check
    of section 4.1 ("form the 3D point cloud's covariance; if points are
    (near-)coplanar"), which has no source under [src/].  A point cloud
    lies in a plane exactly when its covariance matrix is singular; "near"
    is the determinant within [tolerance]. *)
Definition near_coplanar (ps : list (Q * Q * Q)) : bool :=
  let qs := centre3 ps in
  Qle_bool
    (det3 (cov x3 x3 qs) (cov x3 y3 qs) (cov x3 z3 qs)
          (cov y3 x3 qs) (cov y3 y3 qs) (cov y3 z3 qs)
          (cov z3 x3 qs) (cov z3 y3 qs) (cov z3 z3 qs))
    tolerance.

(** Modelled from the spec: the collinearity half of the same check
    ("and their projections are (near-)collinear"), on the 2x2 covariance
    of the labelled pixels; no source under [src/]. *)
Definition near_collinear (ps : list (Q * Q)) : bool :=
  let qs := centre2 ps in
  Qle_bool
    (cov fst fst qs * cov snd snd qs - cov fst snd qs * cov snd fst qs)
    tolerance.

(** Modelled from the spec: [validate] of the Correspondence Registry
    (section 4.1), absent from [src/]: "count < 6 -> INSUFFICIENT_POINTS",
    then the degeneracy check. *)
Definition validate (cs : CorrespondenceSet) : Validation :=
  if (List.length cs <? 6)%nat then rejected INSUFFICIENT_POINTS
  else if near_coplanar (map world cs) && near_collinear (map pixel cs)
       then rejected DEGENERATE_CONFIGURATION
       else valid.

(** Modelled from the spec: [solvePose] (sections 4.1, 4.2 and 6), absent
    from [src/]: validation "must run before invoking the solver", and "a
    failure never returns a pose". *)
Definition solvePose (cs : CorrespondenceSet)
  : SolveError + CameraPoseEstimate :=
  match validate cs with
  | rejected e => inl e
  | valid => estimate_pose cs
  end.

End SpecifiedSolver.

(** All world points in one plane [a x + b y + c z = d]. *)
Definition coplanar (ps : list (Q * Q * Q)) : Prop :=
  exists a b c d : Q,
    ~ (a == 0 /\ b == 0 /\ c == 0)%Q /\
    forall p, In p ps -> (a * x3 p + b * y3 p + c * z3 p == d)%Q.

(** All pixels on one line [a u + b v = c]. *)
Definition collinear (ps : list (Q * Q)) : Prop :=
  exists a b c : Q,
    ~ (a == 0 /\ b == 0)%Q /\
    forall p, In p ps -> (a * fst p + b * snd p == c)%Q.

(* ================================================================== *)
(** ** Vocabulary of the properties *)

(** The arithmetic mean of a list of bytes: the fraction of the sum over
    the count, in lowest terms; 0 for the empty list. *)
Definition arithmetic_mean (values : list Z) : number :=
  match values with
  | [] => Num 0
  | _ => Num (Qred (fold_right Z.add 0 values # Pos.of_nat (List.length values)))
  end.

(** [m] is a mean of [values]: [m] times the count is the sum.  On a list
    that is not empty this holds of one rational only. *)
Definition is_mean_of (m : Q) (values : list Z) : Prop :=
  (m * inject_Z (Z.of_nat (List.length values))
   == inject_Z (fold_right Z.add 0%Z values))%Q.

(** The payload of cv.opencvTest in which [mean_gray] is the arithmetic
    mean of [gray_values], 0 when the list is empty. *)
Definition mean_gray_is_the_mean (d : json) : Prop :=
  exists values,
    field "gray_values" d = Some (JArr (map JInt values)) /\
    field "mean_gray" d = Some (JNum (arithmetic_mean values)).

Definition is_number (j : json) : bool :=
  match j with JNum (Num _) => true | _ => false end.

Definition is_number_array (n : nat) (j : json) : bool :=
  match j with
  | JArr items => (List.length items =? n)%nat && forallb is_number items
  | _ => false
  end.

(** [{pixel:[x,y], world:[x,y,z]}]. *)
Definition is_correspondence (j : json) : bool :=
  match field "pixel" j, field "world" j with
  | Some p, Some w => is_number_array 2 p && is_number_array 3 w
  | _, _ => false
  end.

(** The args of [solvePose]: an array of at least 6 correspondences. *)
Definition solvePose_args (j : json) : bool :=
  match j with
  | JArr items => (6 <=? List.length items)%nat && forallb is_correspondence items
  | _ => false
  end.

(** [{frame:number, pixel:[x,y]}]. *)
Definition is_sample (j : json) : bool :=
  match field "frame" j, field "pixel" j with
  | Some f, Some p => is_number f && is_number_array 2 p
  | _, _ => false
  end.

Definition is_sample_list (o : option json) : bool :=
  match o with
  | Some (JArr items) => forallb is_sample items
  | _ => false
  end.

(** The args of [solveTickBoundary]: two lists of samples. *)
Definition solveTickBoundary_args (j : json) : bool :=
  is_sample_list (field "segmentBefore" j)
  && is_sample_list (field "segmentAfter" j).

Definition pose_fields : list string :=
  ["rotation"; "translation"; "focalLength"; "residuals"; "rmsError";
   "converged"].

Definition pose_error_codes : list string :=
  ["INSUFFICIENT_POINTS"; "DEGENERATE_CONFIGURATION"; "NON_CONVERGENCE"].

Definition tick_fields : list string :=
  ["intersection"; "fractionalFrame"; "residuals"; "confidence"].

Definition tick_error_codes : list string :=
  ["INSUFFICIENT_SAMPLES"; "PARALLEL_LINES"].

(** A response that is a success carrying all of [fields], or a failure
    whose code is one of [codes]. *)
Definition answers_with (fields codes : list string) (response : json) : bool :=
  match success_data response with
  | Some d => forallb (fun f => has_field f d) fields
  | None =>
      match error_code response with
      | Some c => existsb (String.eqb c) codes
      | None => false
      end
  end.

(** An operation the envelope exposes: every well-formed request for it is
    answered in the operation's own terms, on either backend. *)
Definition exposes (operation : string) (well_formed : json -> bool)
  (fields codes : list string) : Prop :=
  forall cfg requestBody w s,
    op requestBody = operation ->
    well_formed (args requestBody) = true ->
    exists response,
      outcome (callMcvApi cfg requestBody w s) = Ok response /\
      answers_with fields codes response = true.

(** A call path no failure escapes: every invocation returns, and returns
    an envelope. *)
Definition always_an_envelope (call : McvRequest -> World -> M json) : Prop :=
  forall requestBody w s,
  exists response,
    outcome (call requestBody w s) = Ok response /\
    is_envelope response = true.

(** An operation that is a pure function of its request: any two
    invocations that succeed carry the same data, whatever their args and
    whatever the page and the module they run in. *)
Definition pure_function_of_request (call : McvRequest -> World -> M json)
  (operation : string) : Prop :=
  forall args1 args2 w1 w2 s1 s2 r1 r2 d1 d2,
    outcome (call {| op := operation; args := args1 |} w1 s1) = Ok r1 ->
    outcome (call {| op := operation; args := args2 |} w2 s2) = Ok r2 ->
    success_data r1 = Some d1 ->
    success_data r2 = Some d2 ->
    d1 = d2.

(** A call path that neither reads nor writes the module's variables. *)
Definition stateless (call : McvRequest -> World -> M json) : Prop :=
  forall requestBody w s s',
    final (call requestBody w s) = s /\
    outcome (call requestBody w s) = outcome (call requestBody w s').

(** Every 2xx reply that parses as JSON carries an envelope: so answers
    the Flask backend of this repository. *)
Definition answers_with_envelopes (w : World) : Prop :=
  forall url requestBody response body,
    fetch w url requestBody = Ok response ->
    response_ok response = true ->
    json_body response = Ok body ->
    is_envelope body = true.

(** OpenCV's contract for a conversion to gray: one byte per pixel, rows
    and columns kept. *)
Definition keeps_shape (cvtColor : Mat -> ColorConversionCode -> result Mat)
  : Prop :=
  forall src code gray,
    cvtColor src code = Ok gray ->
    rows gray = rows src /\ cols gray = cols src /\
    js_length (data gray) = rows src * cols src.

(** An OpenCV.js runtime and a [cv2] module that wrap one and the same
    working OpenCV. *)
Record same_opencv (js : CvJs) (py : Cv2) : Prop := {
  matFromArray_builds : forall r c t bytes,
    js_matFromArray js r c t bytes
    = Ok {| rows := r; cols := c; channels := channels_of t; data := bytes |};
  Mat_allocates : exists empty, js_Mat js = Ok empty;
  cvtColor_agrees : forall src dst code,
    js_cvtColor js src dst code = cv2_cvtColor py src code;
  delete_frees : forall m, js_delete js m = Ok tt;
  cvtColor_keeps_shape : keeps_shape (cv2_cvtColor py);
  cvtColor_converts : forall src,
    channels src = 3 -> js_length (data src) = rows src * cols src * 3 ->
    exists gray, cv2_cvtColor py src COLOR_RGB2GRAY = Ok gray
}.

(** Requests used as test inputs. *)
Definition correspondence (u v x y z : Z) : json :=
  JObj [("pixel", JArr [JInt u; JInt v]);
        ("world", JArr [JInt x; JInt y; JInt z])].

Definition solvePose_request : McvRequest :=
  {| op := "solvePose";
     args := JArr [correspondence 100 100 0 0 0;
                   correspondence 500 120 4 0 0;
                   correspondence 480 400 4 3 0;
                   correspondence 120 380 0 3 0;
                   correspondence 200 200 1 1 2;
                   correspondence 400 300 3 2 5] |}.

Definition sample (frame u v : Z) : json :=
  JObj [("frame", JInt frame); ("pixel", JArr [JInt u; JInt v])].

Definition solveTickBoundary_request : McvRequest :=
  {| op := "solveTickBoundary";
     args := JObj [("segmentBefore", JArr [sample 9 100 100; sample 10 110 100]);
                   ("segmentAfter", JArr [sample 11 120 105; sample 12 125 115])] |}.

(* ================================================================== *)
(** ** The call path in closed form

    What the monadic code above computes, as plain functions of the world
    and the module state; the lemmas of the next part link the two. *)

Definition settled (candidate : CvGlobal) : result CvJs :=
  match candidate with
  | CvUndefined => Throw "Error: opencv.js runtime not found on window.cv"
  | CvFactory made => made
  | CvThenable settles => settles
  | CvObject cv => Ok cv
  end.

(** How the promise behind [cvPromise] settles when it is created in
    world [w]. *)
Definition resolution (w : World) : result CvJs :=
  match globalThis_cv w with
  | CvUndefined =>
      match script_load w with
      | Ok _ => settled (globalThis_cv_loaded w)
      | Throw e => Throw e
      end
  | candidate => settled candidate
  end.

(** The promise a call to [getWebMcvRuntime] ends up awaiting. *)
Definition runtime_promise (w : World) (s : ModuleState) : result CvJs :=
  match cvPromise s with
  | Some p => p
  | None => resolution w
  end.

(** The module after a call to [getWebMcvRuntime]. *)
Definition after_runtime (w : World) (s : ModuleState) : ModuleState :=
  match cvPromise s with
  | Some _ => s
  | None => set_cvPromise (resolution w) s
  end.

(** The success payload of the web backend, if every runtime call works. *)
Definition web_test_data (cv : CvJs) : result json :=
  match js_matFromArray cv 1 3 CV_8UC3 opencv_test_pixels with
  | Throw e => Throw e
  | Ok src =>
      match js_Mat cv with
      | Throw e => Throw e
      | Ok gray0 =>
          match js_cvtColor cv src gray0 COLOR_RGB2GRAY with
          | Throw e => Throw e
          | Ok gray =>
              match js_delete cv src with
              | Throw e => Throw e
              | Ok _ =>
                  match js_delete cv gray with
                  | Throw e => Throw e
                  | Ok _ =>
                      Ok (JObj
                            [("opencv_version",
                              JStr match js_VERSION cv with
                                   | Some v => v
                                   | None => "opencv.js"
                                   end);
                             ("gray_values", JArr (map JInt (data gray)));
                             ("shape",
                              JArr [JInt (rows gray); JInt (cols gray)]);
                             ("mean_gray",
                              JNum (if js_length (data gray) >? 0
                                    then quotient (reduce_sum (data gray))
                                                  (js_length (data gray))
                                    else Num 0))])
                  end
              end
          end
      end
  end.

Definition web_test_response (promise : result CvJs) : json :=
  match promise with
  | Throw e => McvFailure "WEB_BACKEND_ERROR" "OpenCV.js call failed" (Some e)
  | Ok cv =>
      match web_test_data cv with
      | Ok d => McvSuccess d
      | Throw e =>
          McvFailure "WEB_BACKEND_ERROR" "OpenCV.js call failed" (Some e)
      end
  end.

(** The reply of the python client to what [fetch] gave. *)
Definition python_response (fetched : result HttpResponse) : json :=
  match fetched with
  | Throw e => McvFailure "NETWORK_ERROR" "Could not reach backend API" (Some e)
  | Ok response =>
      if response_ok response then
        match json_body response with
        | Ok body => body
        | Throw e =>
            McvFailure "NETWORK_ERROR" "Could not reach backend API" (Some e)
        end
      else McvFailure "HTTP_ERROR" ("HTTP " ++ string_of_Z (status response)) None
  end.

(** The fixed 1x3 image both backends convert: one red, one green and one
    blue pixel. *)
Definition opencv_test_image : Mat :=
  {| rows := 1; cols := 3; channels := 3; data := opencv_test_pixels |}.

(** The shape of the success payload of cv.opencvTest. *)
Definition opencv_test_payload (version : string) (gray : Mat)
  (mean : number) : json :=
  JObj [("opencv_version", JStr version);
        ("gray_values", JArr (map JInt (data gray)));
        ("shape", JArr [JInt (rows gray); JInt (cols gray)]);
        ("mean_gray", JNum mean)].

(** Two calls of one page: the second with other args, made when
    [window.cv] is gone. *)
Definition two_calls : list (McvRequest * World) :=
  [(opencvTest_request, sample_web_world);
   ({| op := "cv.opencvTest"; args := JArr [JInt 1; JInt 2] |},
    broken_web_world)].

(** Correspondence sets used as test inputs: points [(i, 0, 0)] of a world
    line labelled at the pixels [(i, i)] of an image line. *)
Definition on_a_line (i : Z) : Correspondence :=
  {| pixel := (inject_Z i, inject_Z i);
     world := (inject_Z i, 0%Q, 0%Q) |}.

Definition three_on_a_line : CorrespondenceSet :=
  [on_a_line 0; on_a_line 1; on_a_line 2].

Definition six_on_a_line : CorrespondenceSet :=
  [on_a_line 0; on_a_line 1; on_a_line 2; on_a_line 3; on_a_line 4;
   on_a_line 5].

(** A stand-in for the numerical steps, for running [solvePose]. *)
Definition no_estimate (cs : CorrespondenceSet) : SolveError + CameraPoseEstimate :=
  inl NON_CONVERGENCE.

Definition labelled (u v x y z : Z) : Correspondence :=
  {| pixel := (inject_Z u, inject_Z v);
     world := (inject_Z x, inject_Z y, inject_Z z) |}.

Definition box_corners : CorrespondenceSet :=
  [labelled 100 100 0 0 0; labelled 500 120 4 0 0; labelled 480 400 4 3 0;
   labelled 120 380 0 3 0; labelled 200 200 0 0 2; labelled 400 300 4 3 2].

From Stdlib Require Import Ascii NArith DecimalZ.

(* ================================================================== *)
(** ** [build.js]: command-line options

    JavaScript strings are kept as Rocq strings (the bytes of their UTF-8
    form).  Every pattern searched for below is ASCII, and a prefix is cut
    off by the length of the prefix itself, so bytes and UTF-16 units give
    the same answers. *)

(** [s.startsWith(p)]. *)
Fixpoint startsWith (s p : string) {struct p} : bool :=
  match p with
  | EmptyString => true
  | String a p' =>
      match s with
      | EmptyString => false
      | String b s' => Ascii.eqb a b && startsWith s' p'
      end
  end.

(** [s.slice(n)]: [s] without its first [n] characters. *)
Fixpoint slice_from (n : nat) (s : string) {struct n} : string :=
  match n, s with
  | O, _ => s
  | S _, EmptyString => EmptyString
  | S n', String _ s' => slice_from n' s'
  end.

(** The first [n] characters of [s]. *)
Fixpoint take (n : nat) (s : string) {struct n} : string :=
  match n, s with
  | O, _ => EmptyString
  | S _, EmptyString => EmptyString
  | S n', String c s' => String c (take n' s')
  end.

(** [s.slice(a, b)]: from position [a] up to position [b]. *)
Definition slice (a b : nat) (s : string) : string :=
  take (b - a) (slice_from a s).

(** [s.indexOf(p)], [None] for -1. *)
Fixpoint str_indexOf (p s : string) : option nat :=
  if startsWith s p then Some 0%nat
  else match s with
       | EmptyString => None
       | String _ s' => option_map S (str_indexOf p s')
       end.

(** [s.includes(p)]. *)
Definition includes (s p : string) : bool :=
  match str_indexOf p s with Some _ => true | None => false end.

(** [argv.indexOf(x)], [None] for -1. *)
Fixpoint indexOf (x : string) (argv : list string) : option nat :=
  match argv with
  | [] => None
  | arg :: rest =>
      if String.eqb arg x then Some 0%nat
      else option_map S (indexOf x rest)
  end.

Definition parseOption (argv : list string) (key : string) : option string :=
  let keyEquals := "--" ++ key ++ "=" in
  let keyFlag := "--" ++ key in
  match find (fun arg => startsWith arg keyEquals) argv with
  | Some direct => Some (slice_from (String.length keyEquals) direct)
  | None =>
      match indexOf keyFlag argv with
      | Some idx =>
          if (idx + 1 <? List.length argv)%nat
          then nth_error argv (idx + 1)
          else None
      | None => None
      end
  end.

(** The loop of [parsePositionals]; [skip] is set when the body has done
    [i += 1], so that the next argument is passed over. *)
Fixpoint parsePositionals_loop (skip : bool) (argv : list string)
  (knownValueOptions : list string) : list string :=
  match argv with
  | [] => []
  | arg :: rest =>
      if skip then parsePositionals_loop false rest knownValueOptions
      else if startsWith arg "--" then
        let optionName :=
          if includes arg "="
          then match str_indexOf "=" arg with
               | Some i => slice 2 i arg
               | None => slice_from 2 arg
               end
          else slice_from 2 arg in
        if negb (includes arg "=")
           && existsb (String.eqb optionName) knownValueOptions
        then parsePositionals_loop true rest knownValueOptions
        else parsePositionals_loop false rest knownValueOptions
      else arg :: parsePositionals_loop false rest knownValueOptions
  end.

Definition parsePositionals (argv knownValueOptions : list string)
  : list string :=
  parsePositionals_loop false argv knownValueOptions.

(* ================================================================== *)
(** ** [common.js]: what [buildCommonArtifacts] writes into the page *)

(** Case folding of a regular expression with the [i] flag, on ASCII: a
    letter is compared by its upper-case form, any other character by
    itself (a non-ASCII character never folds onto an ASCII one). *)
Definition upper (c : ascii) : ascii :=
  let n := N_of_ascii c in
  if ((97 <=? n) && (n <=? 122))%N then ascii_of_N (n - 32) else c.

Definition eqb_ci (a b : ascii) : bool := Ascii.eqb (upper a) (upper b).

(** Does [s] begin with [pattern], letters compared without case? *)
Fixpoint starts_ci (pattern s : string) : bool :=
  match pattern, s with
  | EmptyString, _ => true
  | String p pattern', String c s' => eqb_ci p c && starts_ci pattern' s'
  | String _ _, EmptyString => false
  end.

(** Does [pattern] occur somewhere in [s], letters compared without case? *)
Fixpoint includes_ci (pattern s : string) : bool :=
  match s with
  | EmptyString => starts_ci pattern EmptyString
  | String _ s' => starts_ci pattern s || includes_ci pattern s'
  end.

(** [s.replace(/pattern/gi, replacement)] for a literal, non-empty pattern
    and a replacement without [$]: the matches are taken from left to
    right and do not overlap.  [skip] counts the characters of the current
    match still to be passed over. *)
Fixpoint replace_all_ci (pattern replacement : string) (skip : nat)
  (s : string) : string :=
  match s with
  | EmptyString => EmptyString
  | String c s' =>
      match skip with
      | S k => replace_all_ci pattern replacement k s'
      | O =>
          if starts_ci pattern s
          then replacement
               ++ replace_all_ci pattern replacement
                    (String.length pattern - 1) s'
          else String c (replace_all_ci pattern replacement 0 s')
      end
  end.

Definition backslash : ascii := ascii_of_nat 92.
Definition double_quote : ascii := ascii_of_nat 34.

(** [appBundle.replace(/<\/script/gi, "<\\/script")]. *)
Definition safeInlineBundle (appBundle : string) : string :=
  replace_all_ci "</script" (String "<" (String backslash "/script")) 0
    appBundle.

(** [opencvUrl.replace(/QUOTE/g, "&quot;")], QUOTE the double quote:
    every double quote becomes [&quot;]. *)
Fixpoint escape_quotes (opencvUrl : string) : string :=
  match opencvUrl with
  | EmptyString => EmptyString
  | String c rest =>
      if Ascii.eqb c double_quote
      then "&quot;" ++ escape_quotes rest
      else String c (escape_quotes rest)
  end.

(** The script element of the web target, empty for the python target. *)
Definition backendScripts (backendMode : Backend) (opencvUrl : string)
  : string :=
  match backendMode with
  | web =>
      "<script src=" ++ String double_quote (escape_quotes opencvUrl)
      ++ String double_quote "></script>"
  | python => ""
  end.

(** Vocabulary for the properties of the two escapes. *)
Definition script_close : string := "</script".

Definition script_close_escaped : string :=
  String "<" (String backslash "/script").

Fixpoint count_char (c : ascii) (s : string) : nat :=
  match s with
  | EmptyString => 0
  | String a rest => (if Ascii.eqb a c then 1 else 0) + count_char c rest
  end.

(** No character of [q] is a [<]. *)
Fixpoint no_lt (q : string) : bool :=
  match q with
  | EmptyString => true
  | String p q' => negb (eqb_ci p "<") && no_lt q'
  end.

(* ================================================================== *)
(** ** [mcv_standalone.py]: request bodies and the pipeline endpoint *)

(** [request.get_json(silent=True) or {}]; [None] is a body that is not
    JSON.  Python's [None] and JSON's [null] are both [JNull]. *)
Definition request_payload (body : option json) : json :=
  match body with
  | Some j => py_or_empty j
  | None => JObj []
  end.

(** [d.get(key)]: a dict gives the value or [None]; a list, a string, a
    number or [True] has no [get]. *)
Definition py_get (key : string) (d : json) : result json :=
  match d with
  | JObj fields =>
      Ok match assoc key fields with Some v => v | None => JNull end
  | _ => Throw "AttributeError: object has no attribute 'get'"
  end.

(** [value == s] for a string [s]. *)
Definition py_eq_str (value : json) (s : string) : bool :=
  match value with
  | JStr t => String.eqb t s
  | _ => false
  end.

Definition is_object (j : json) : bool :=
  match j with JObj _ => true | _ => false end.

(** [header, encoded = s.split(",", 1)], for [s] with a comma. *)
Definition split_at_comma (s : string) : option (string * string) :=
  match str_indexOf "," s with
  | Some i => Some (take i s, slice_from (S i) s)
  | None => None
  end.

Section FlaskViews.

(** [str(op)] inside the f-string of the error message. *)
Variable py_str : json -> string.

(** [s.strip()]. *)
Variable py_strip : string -> string.

(** Decoded images, and the library calls around them:
    [base64.b64decode(encoded, validate=True)], [cv2.imdecode] on the bytes
    ([None] when the data is no image), and the rest of [run_pipeline]
    from the gray conversion to the result dict. *)
Variable Image : Type.
Variable b64decode : string -> result string.
Variable imdecode : string -> result (option Image).
Variable detect_lines : Image -> result json.

(** [api_mcv] on the body Flask hands over, before any typing of the
    request. *)
Definition api_mcv_view (cv2 : Cv2) (body : option json) : result (json * Z) :=
  let payload := request_payload body in
  match py_get "op" payload with
  | Throw e => Throw e
  | Ok op =>
      match py_get "args" payload with
      | Throw e => Throw e
      | Ok a =>
          let args := py_or_empty a in
          if py_eq_str op "cv.opencvTest" then
            match handle_mcv_cv_opencv_test cv2 args with
            | Ok data => Ok (McvSuccess data, 200)
            | Throw e => Throw e
            end
          else
            Ok (McvFailure "UNKNOWN_OP"
                  ("Unsupported operation: " ++ py_str op) None, 400)
      end
  end.

Definition decode_image_data_url_to_bgr (image_data_url : json)
  : result Image :=
  match image_data_url with
  | JStr s =>
      match split_at_comma s with
      | None => Throw "Invalid image_data_url"
      | Some (header, encoded) =>
          if negb (includes header ";base64")
          then Throw "image_data_url must be base64 encoded"
          else
            match b64decode encoded with
            | Throw _ => Throw "Invalid image_data_url base64 payload"
            | Ok raw_bytes =>
                match imdecode raw_bytes with
                | Throw e => Throw e
                | Ok None => Throw "Could not decode image data"
                | Ok (Some image_bgr) => Ok image_bgr
                end
            end
      end
  | _ => Throw "Invalid image_data_url"
  end.

Definition run_pipeline (args : json) : result json :=
  match py_get "image_data_url" args with
  | Throw e => Throw e
  | Ok image_data_url =>
      match decode_image_data_url_to_bgr image_data_url with
      | Throw e => Throw e
      | Ok image_bgr => detect_lines image_bgr
      end
  end.

Definition api_mcv_pipeline (body : option json) : result (json * Z) :=
  let payload := request_payload body in
  match py_get "args" payload with
  | Throw e => Throw e
  | Ok a =>
      let args := py_or_empty a in
      match py_get "image_data_url" args with
      | Throw e => Throw e
      | Ok image_data_url =>
          if match image_data_url with
             | JStr s => (py_strip s =? "")%string
             | _ => true
             end
          then Ok (McvFailure "INVALID_ARGS" "image_data_url is required" None,
                   400)
          else
            match run_pipeline args with
            | Throw exc => Ok (McvFailure "PIPELINE_ERROR" exc None, 400)
            | Ok result => Ok (McvSuccess result, 200)
            end
      end
  end.

End FlaskViews.

(* ================================================================== *)
(** ** [app.ts]: the media library *)

(** [typeof value === "object" && value !== null && !Array.isArray(value)]. *)
Definition isRecord (value : json) : bool :=
  match value with JObj _ => true | _ => false end.

(** [output[id] = entry] on an object given by its entries: a present key
    keeps its place and takes the new value, a new key goes last. *)
Fixpoint set_property {A} (id : string) (entry : A)
  (output : list (string * A)) : list (string * A) :=
  match output with
  | [] => [(id, entry)]
  | (k, v) :: rest =>
      if String.eqb k id then (k, entry) :: rest
      else (k, v) :: set_property id entry rest
  end.

(** The same on an object literal [{}]: the key [__proto__] is the
    accessor of [Object.prototype], and assigning an object to it changes
    the prototype instead of adding an entry. *)
Definition assign {A} (id : string) (entry : A) (output : list (string * A))
  : list (string * A) :=
  if String.eqb id "__proto__" then output else set_property id entry output.

Section MediaLibraryParsing.

(** [String.prototype.trim]. *)
Variable trim : string -> string.

(** [typeof entry.key === "string" ? entry.key.trim() : ""]. *)
Definition trimmed_field (key : string) (entry : json) : string :=
  match field key entry with
  | Some (JStr s) => trim s
  | _ => ""
  end.

(** One turn of the loop of [normalizeVideos]: the entry to store, or
    [None] where the loop says [continue]. *)
Definition video_entry (entry : json) : option MediaVideoEntry :=
  if negb (isRecord entry) then None
  else
    let name := trimmed_field "name" entry in
    let url := trimmed_field "url" entry in
    if (name =? "")%string || (url =? "")%string then None
    else
      let youtubeId :=
        match field "youtube_id" entry with
        | Some (JStr s) =>
            if (trim s =? "")%string then None else Some (trim s)
        | _ => None
        end in
      Some {| video_name := name; video_url := url; youtube_id := youtubeId |}.

Definition image_entry (entry : json) : option MediaImageEntry :=
  if negb (isRecord entry) then None
  else
    let name := trimmed_field "name" entry in
    let url := trimmed_field "url" entry in
    if (name =? "")%string || (url =? "")%string then None
    else Some {| image_name := name; image_url := url |}.

(** The loop over [Object.entries(value)], common to both normalisers. *)
Definition normalize_entries {A} (entry_of : json -> option A)
  (entries : list (string * json)) : list (string * A) :=
  fold_left
    (fun output id_entry =>
       match entry_of (snd id_entry) with
       | None => output
       | Some e => assign (fst id_entry) e output
       end)
    entries [].

Definition normalizeVideos (value : option json)
  : list (string * MediaVideoEntry) :=
  match value with
  | Some (JObj entries) => normalize_entries video_entry entries
  | _ => []
  end.

Definition normalizeImages (value : option json)
  : list (string * MediaImageEntry) :=
  match value with
  | Some (JObj entries) => normalize_entries image_entry entries
  | _ => []
  end.

Definition parseMediaLibrary (payload : json) : option MediaLibrary :=
  if negb (isRecord payload) then None
  else Some {| videos := normalizeVideos (field "videos" payload);
               images := normalizeImages (field "images" payload) |}.

End MediaLibraryParsing.

(** What one entry of the input contributes to a normalised section. *)
Definition kept_entry {A} (entry_of : json -> option A)
  (id_entry : string * json) : list (string * A) :=
  if String.eqb (fst id_entry) "__proto__" then []
  else match entry_of (snd id_entry) with
       | Some e => [(fst id_entry, e)]
       | None => []
       end.

(** [findVideoByYoutubeId], on the library the module holds. *)
Definition findVideoByYoutubeId (s : ModuleState) (youtubeId : string)
  : option (string * MediaVideoEntry) :=
  find (fun id_item =>
          String.eqb (fst id_item) youtubeId
          || match youtube_id (snd id_item) with
             | Some y => String.eqb y youtubeId
             | None => false
             end)
       (videos (mediaLibrary s)).

(** What a stored entry satisfies. *)
Definition well_formed_video (id_item : string * MediaVideoEntry) : Prop :=
  fst id_item <> "__proto__" /\
  video_name (snd id_item) <> "" /\
  video_url (snd id_item) <> "" /\
  youtube_id (snd id_item) <> Some "".

Definition well_formed_image (id_item : string * MediaImageEntry) : Prop :=
  fst id_item <> "__proto__" /\
  image_name (snd id_item) <> "" /\
  image_url (snd id_item) <> "".

(** A sample payload of the Media API. *)
Definition sample_media_payload : json :=
  JObj [("videos",
         JObj [("mcc11", JObj [("name", JStr "Dream MCC 11 Parkour");
                               ("url", JStr "https://example.com/a.mp4");
                               ("youtube_id", JStr "dQw4w9WgXcQ")]);
               ("broken", JObj [("name", JStr "No url")]);
               ("__proto__", JObj [("name", JStr "p"); ("url", JStr "u")]);
               ("plain", JObj [("name", JStr "Plain");
                               ("url", JStr "https://example.com/b.mp4");
                               ("youtube_id", JNum (Num 3))])]);
        ("images", JArr [])].

(* ================================================================== *)
(** ** [app.ts]: YouTube timestamps

    Seconds are kept as exact integers; the doubles of JavaScript are
    exact integers too as long as every value stays below 2^53. *)

(** [\d]: an ASCII digit. *)
Definition is_digit (c : ascii) : bool :=
  let n := N_of_ascii c in ((48 <=? n) && (n <=? 57))%N.

Fixpoint all_digits (s : string) : bool :=
  match s with
  | EmptyString => true
  | String c s' => is_digit c && all_digits s'
  end.

(** [Number(s)] for a string of digits. *)
Definition number_of_digits (s : string) : Z :=
  match NilEmpty.uint_of_string s with
  | Some d => Z.of_uint d
  | None => 0
  end.

(** The longest run of digits [s] begins with, and what follows it. *)
Fixpoint span_digits (s : string) : string * string :=
  match s with
  | EmptyString => (EmptyString, EmptyString)
  | String c s' =>
      if is_digit c
      then (String c (fst (span_digits s')), snd (span_digits s'))
      else (EmptyString, s)
  end.

(** [(?:(\d+)u)?] under the flag [i]: the digits captured and the text
    left, or nothing taken.  The run of digits must be taken whole, since
    a digit is not the unit letter; and if the group can be taken, leaving
    it out cannot help the rest of the pattern, which would then meet the
    unit letter. *)
Definition unit_group (unit : ascii) (s : string) : option string * string :=
  match fst (span_digits s), snd (span_digits s) with
  | String d ds, String c rest =>
      if eqb_ci unit c then (Some (String d ds), rest) else (None, s)
  | _, _ => (None, s)
  end.

(** [(?:(\d+)s?)?] under the flag [i]. *)
Definition seconds_group (s : string) : option string * string :=
  match fst (span_digits s), snd (span_digits s) with
  | EmptyString, _ => (None, s)
  | digits, String c rest =>
      if eqb_ci "s" c then (Some digits, rest)
      else (Some digits, String c rest)
  | digits, EmptyString => (Some digits, EmptyString)
  end.

(** [raw.match(/^(?:(\d+)h)?(?:(\d+)m)?(?:(\d+)s?)?$/i)]: the three
    captures, or [None] for no match. *)
Definition match_hms (raw : string)
  : option (option string * option string * option string) :=
  let (h, after_h) := unit_group "h" raw in
  let (m, after_m) := unit_group "m" after_h in
  let (s, after_s) := seconds_group after_m in
  if (after_s =? "")%string then Some (h, m, s) else None.

Definition captured (group : option string) : Z :=
  match group with
  | Some digits => number_of_digits digits
  | None => 0
  end.

Definition parseTimestampSeconds (raw : string) : option Z :=
  if (raw =? "")%string then None
  else if all_digits raw then Some (number_of_digits raw)
  else
    match match_hms raw with
    | None => None
    | Some (h, m, s) =>
        let hours := captured h in
        let minutes := captured m in
        let seconds := captured s in
        let total := hours * 3600 + minutes * 60 + seconds in
        if total >? 0 then Some total else None
    end.

(** [s.padStart(2, "0")]. *)
Definition padStart2 (s : string) : string :=
  match s with
  | EmptyString => "00"
  | String c EmptyString => String "0" (String c EmptyString)
  | _ => s
  end.

Definition formatTimestamp (seconds : Z) : string :=
  let hrs := seconds / 3600 in
  let mins := (seconds mod 3600) / 60 in
  let secs := seconds mod 60 in
  if hrs >? 0
  then string_of_Z hrs ++ ":" ++ padStart2 (string_of_Z mins) ++ ":"
       ++ padStart2 (string_of_Z secs)
  else string_of_Z mins ++ ":" ++ padStart2 (string_of_Z secs).

(** [extractYoutubeTimestampLabel], from [url.searchParams.get("t")]. *)
Definition extractYoutubeTimestampLabel (trim : string -> string)
  (t : option string) : option string :=
  let raw := trim match t with Some v => v | None => "" end in
  if (raw =? "")%string then None
  else match parseTimestampSeconds raw with
       | None => Some raw
       | Some seconds => Some (formatTimestamp seconds)
       end.

(** A timestamp written with unit letters: [1h2m3s], [90m], [45s], ... *)
Definition with_unit (unit : string) (value : option Z) : string :=
  match value with
  | Some v => string_of_Z v ++ unit
  | None => ""
  end.

Definition hms_text (h m s : option Z) : string :=
  with_unit "h" h ++ with_unit "m" m ++ with_unit "s" s.

Definition amount (value : option Z) : Z :=
  match value with Some v => v | None => 0 end.

(** A value that, if present, is not negative. *)
Definition present_nonneg (value : option Z) : Prop :=
  match value with Some v => 0 <= v | None => True end.


(** Reading a label of [formatTimestamp] back: [m:ss] or [h:mm:ss]. *)
Definition read_label (label : string) : option Z :=
  let a := fst (span_digits label) in
  match snd (span_digits label) with
  | String c1 r1 =>
      if Ascii.eqb c1 ":" then
        let b := fst (span_digits r1) in
        match snd (span_digits r1) with
        | EmptyString =>
            Some (number_of_digits a * 60 + number_of_digits b)
        | String c2 r2 =>
            if Ascii.eqb c2 ":" && (snd (span_digits r2) =? "")%string
            then Some (number_of_digits a * 3600 + number_of_digits b * 60
                       + number_of_digits (fst (span_digits r2)))
            else None
        end
      else None
  | EmptyString => None
  end.

(* ================================================================== *)
(** ** [app.ts]: links, search and the media panel *)

(** A parsed [URL], by the members the code reads. *)
Record URL : Type := {
  hostname : string;
  pathname : string;
  searchParams : list (string * string);
  href : string                     (* [url.toString()] *)
}.

(** [url.searchParams.get(name)]: the first value under [name]. *)
Fixpoint searchParams_get (name : string) (params : list (string * string))
  : option string :=
  match params with
  | [] => None
  | (k, v) :: rest =>
      if String.eqb k name then Some v else searchParams_get name rest
  end.

(** [toLowerCase] on a host name, which is ASCII in a parsed URL. *)
Definition lower (c : ascii) : ascii :=
  let n := N_of_ascii c in
  if ((65 <=? n) && (n <=? 90))%N then ascii_of_N (n + 32) else c.

Fixpoint toLowerCase (s : string) : string :=
  match s with
  | EmptyString => EmptyString
  | String c s' => String (lower c) (toLowerCase s')
  end.

(** [s.endsWith(suffix)]. *)
Definition endsWith (s suffix : string) : bool :=
  (String.length suffix <=? String.length s)%nat
  && String.eqb (slice_from (String.length s - String.length suffix) s) suffix.

(** [s.split(sep)] for a separator of one character. *)
Fixpoint split_on (sep : ascii) (s : string) : list string :=
  match s with
  | EmptyString => [EmptyString]
  | String c s' =>
      if Ascii.eqb c sep then EmptyString :: split_on sep s'
      else match split_on sep s' with
           | part :: parts => String c part :: parts
           | [] => [String c EmptyString]
           end
  end.

(** [parts.filter(Boolean)]: the non-empty parts. *)
Definition non_empty_parts (parts : list string) : list string :=
  filter (fun part => negb (String.eqb part "")) parts.

Definition isYoutubeUrl (url : URL) : bool :=
  let host := toLowerCase (hostname url) in
  String.eqb host "youtu.be" || String.eqb host "www.youtu.be"
  || endsWith host "youtube.com".

(** [[A-Za-z0-9_-]]. *)
Definition is_id_char (c : ascii) : bool :=
  let n := N_of_ascii c in
  ((65 <=? n) && (n <=? 90) || (97 <=? n) && (n <=? 122)
   || (48 <=? n) && (n <=? 57) || (n =? 95) || (n =? 45))%N.

Fixpoint all_id_chars (s : string) : bool :=
  match s with
  | EmptyString => true
  | String c s' => is_id_char c && all_id_chars s'
  end.

(** [/^[A-Za-z0-9_-]{6,}$/.test(s)]. *)
Definition is_youtube_id (s : string) : bool :=
  (6 <=? String.length s)%nat && all_id_chars s.

Definition NO_YOUTUBE_VIDEO_ERROR : string :=
  "video is not provided by the Media API, please download the video yourself and upload it.".

Section Links.

Variable trim : string -> string.

(** [new URL(value)], [None] when it throws. *)
Variable parse_url : string -> option URL.

(** [normalizeUrlForMatch]: the text of a copy of the URL without its
    fragment and without its [t] parameter. *)
Variable normalizeUrlForMatch : URL -> string.

Definition extractYoutubeId (url : URL) : option string :=
  let host := toLowerCase (hostname url) in
  let pathParts := non_empty_parts (split_on "/" (pathname url)) in
  let candidate :=
    if String.eqb host "youtu.be" || String.eqb host "www.youtu.be"
    then match pathParts with part :: _ => part | [] => "" end
    else if endsWith host "youtube.com" then
      if String.eqb (pathname url) "/watch"
      then match searchParams_get "v" (searchParams url) with
           | Some v => v
           | None => ""
           end
      else
        match pathParts with
        | first :: second :: _ =>
            if existsb (String.eqb first) ["shorts"; "embed"; "live"; "v"]
            then second else ""
        | _ => ""
        end
    else "" in
  let trimmed := trim candidate in
  if String.eqb trimmed "" then None
  else if is_youtube_id trimmed then Some trimmed else None.

Definition parseUrlOrNull (value : string) : option URL := parse_url value.

Definition normalizePossibleUrl (value : string) : option string :=
  match parseUrlOrNull value with
  | None => None
  | Some parsed => Some (normalizeUrlForMatch parsed)
  end.

(** The first entry of a section whose url, normalised, is the one
    looked for. *)
Definition find_by_url {A} (url_of : A -> string) (normalizedUrl : string)
  (entries : list (string * A)) : option (string * A) :=
  find (fun id_item =>
          match normalizePossibleUrl (url_of (snd id_item)) with
          | Some itemUrl =>
              negb (String.eqb itemUrl "") && String.eqb itemUrl normalizedUrl
          | None => false
          end)
       entries.

Definition find_in_tab (s : ModuleState) (normalizedUrl : string)
  (t : MediaTab) : option SelectedMedia :=
  match t with
  | videos_tab =>
      match find_by_url video_url normalizedUrl (videos (mediaLibrary s)) with
      | Some (id, item) =>
          Some {| tab := videos_tab; id := id; item := inl item;
                  timestampLabel := None |}
      | None => None
      end
  | images_tab =>
      match find_by_url image_url normalizedUrl (images (mediaLibrary s)) with
      | Some (id, item) =>
          Some {| tab := images_tab; id := id; item := inr item;
                  timestampLabel := None |}
      | None => None
      end
  end.

Definition findMediaByNormalizedUrl (s : ModuleState) (normalizedUrl : string)
  : option SelectedMedia :=
  let tabOrder :=
    match activeMediaTab s with
    | videos_tab => [videos_tab; images_tab]
    | images_tab => [images_tab; videos_tab]
    end in
  match tabOrder with
  | first :: second :: _ =>
      match find_in_tab s normalizedUrl first with
      | Some found => Some found
      | None => find_in_tab s normalizedUrl second
      end
  | _ => None
  end.

(** What the functions of the panel do outside the module: the calls
    into the DOM, each render with the module as it is at that moment.
    A render that throws ends the function that called it; in every
    function below but [loadMediaLibrary] the render is the last
    statement, so the module and the calls made are as given. *)
Inductive DomCall : Type :=
| SetMediaError (message : string)
| SetTabButtonState (s : ModuleState)
| RenderMediaBox (s : ModuleState).

Definition select (t : MediaTab) (selection : option SelectedMedia)
  (s : ModuleState) : ModuleState :=
  {| cvPromise := cvPromise s;
     activeMediaTab := t;
     mediaLoadState := mediaLoadState s;
     mediaSearchQuery := mediaSearchQuery s;
     selectedMedia := selection;
     mediaLibrary := mediaLibrary s |}.

Definition set_load (state : MediaLoadState) (library : MediaLibrary)
  (s : ModuleState) : ModuleState :=
  {| cvPromise := cvPromise s;
     activeMediaTab := activeMediaTab s;
     mediaLoadState := state;
     mediaSearchQuery := mediaSearchQuery s;
     selectedMedia := selectedMedia s;
     mediaLibrary := library |}.

Definition setActiveMediaTab (nextTab : MediaTab) (s : ModuleState)
  : ModuleState * list DomCall :=
  let s' := select nextTab None s in
  (s', [SetMediaError ""; SetTabButtonState s'; RenderMediaBox s']).

Definition handleSearchEnter (rawInput : string) (s : ModuleState)
  : ModuleState * list DomCall :=
  let trimmed := trim rawInput in
  if String.eqb trimmed "" then (s, [])
  else
    match parseUrlOrNull trimmed with
    | None => (s, [])
    | Some url =>
        if isYoutubeUrl url then
          match extractYoutubeId url with
          | None => (s, [SetMediaError ""; SetMediaError NO_YOUTUBE_VIDEO_ERROR])
          | Some youtubeId =>
              match findVideoByYoutubeId s youtubeId with
              | None =>
                  (s, [SetMediaError "";
                       SetMediaError NO_YOUTUBE_VIDEO_ERROR])
              | Some (found_id, found_item) =>
                  let s' :=
                    select videos_tab
                      (Some {| tab := videos_tab; id := found_id;
                               item := inl found_item;
                               timestampLabel :=
                                 extractYoutubeTimestampLabel trim
                                   (searchParams_get "t" (searchParams url)) |})
                      s in
                  (s', [SetMediaError ""; SetTabButtonState s';
                        RenderMediaBox s'])
              end
          end
        else
          match findMediaByNormalizedUrl s (normalizeUrlForMatch url) with
          | Some matchedMedia =>
              let s' := select (tab matchedMedia) (Some matchedMedia) s in
              (s', [SetMediaError ""; SetTabButtonState s'; RenderMediaBox s'])
          | None =>
              let s' :=
                select videos_tab
                  (Some {| tab := videos_tab; id := "raw-url";
                           item := inl {| video_name := "Direct Video URL";
                                          video_url := href url;
                                          youtube_id := None |};
                           timestampLabel := None |})
                  s in
              (s', [SetMediaError ""; SetTabButtonState s'; RenderMediaBox s'])
          end
    end.

(** The listeners that write module variables: typing in the search box
    ([installUiHandlers]), a click on a title of the list
    ([renderMediaList]) and a click on Back
    ([renderSelectedMediaPlaceholder]). *)
Definition on_search_input (value : string) (s : ModuleState)
  : ModuleState * list DomCall :=
  let s' := {| cvPromise := cvPromise s;
               activeMediaTab := activeMediaTab s;
               mediaLoadState := mediaLoadState s;
               mediaSearchQuery := value;
               selectedMedia := selectedMedia s;
               mediaLibrary := mediaLibrary s |} in
  (s', [SetMediaError ""; RenderMediaBox s']).

Definition on_title_click (id : string)
  (item : MediaVideoEntry + MediaImageEntry) (s : ModuleState)
  : ModuleState * list DomCall :=
  let s' := select (activeMediaTab s)
              (Some {| tab := activeMediaTab s; id := id; item := item;
                       timestampLabel := None |}) s in
  (s', [SetMediaError ""; RenderMediaBox s']).

Definition on_back_click (s : ModuleState) : ModuleState * list DomCall :=
  let s' := select (activeMediaTab s) None s in
  (s', [RenderMediaBox s']).

(** [isMediaApiAvailable], for the constant [__MCV_MEDIA_API_URL__]. *)
Definition isMediaApiAvailable (mediaApiUrl : string) : bool :=
  (0 <? String.length (trim mediaApiUrl))%nat.

(** [loadMediaLibrary] up to its first [await]. *)
Definition loadMediaLibrary_start (mediaApiUrl : string) (s : ModuleState)
  : ModuleState * list DomCall :=
  if negb (isMediaApiAvailable mediaApiUrl) then
    let s' := set_load no_api (mediaLibrary s) s in
    (s', [RenderMediaBox s'])
  else
    let s' := set_load fetching (mediaLibrary s) s in
    (s', [SetMediaError ""; RenderMediaBox s']).

(** What the [try] block makes of the reply: the library to store, or
    [None] where it throws. *)
Definition fetched_library (fetched : result HttpResponse)
  : option MediaLibrary :=
  match fetched with
  | Throw _ => None
  | Ok response =>
      if negb (response_ok response) then None
      else match json_body response with
           | Throw _ => None
           | Ok payload => parseMediaLibrary trim payload
           end
  end.

(** [renderMediaList] builds the list in the DOM.  Its callers see whether
    it returns or throws: [encodeURIComponent], called on the youtube_id
    of each listed video, throws on a string that is not well-formed
    UTF-16. *)
Variable renderMediaList : ModuleState -> result unit.

(** [renderMediaBox]: the selection when there is one, else a message or,
    once the library is loaded, the list.  Showing the selection or a
    message sets text and attributes and builds elements, which does not
    throw. *)
Definition renderMediaBox (s : ModuleState) : result unit :=
  match selectedMedia s with
  | Some _ => Ok tt
  | None =>
      match mediaLoadState s with
      | loaded => renderMediaList s
      | _ => Ok tt
      end
  end.

(** [loadMediaLibrary] from the point where [fetchMediaApi()] and
    [response.json()] have settled, on the module as it is by then.  The
    render of the loaded library is inside the [try]: when it throws, the
    [catch] sets [failed] on the module that already holds the new
    library. *)
Definition loadMediaLibrary_finish (fetched : result HttpResponse)
  (s : ModuleState) : ModuleState * list DomCall :=
  match fetched_library fetched with
  | Some library =>
      let s1 := set_load loaded library s in
      match renderMediaBox s1 with
      | Ok _ => (s1, [RenderMediaBox s1])
      | Throw _ =>
          let s2 := set_load failed (mediaLibrary s1) s1 in
          (s2, [RenderMediaBox s1; RenderMediaBox s2])
      end
  | None =>
      let s' := set_load failed (mediaLibrary s) s in (s', [RenderMediaBox s'])
  end.

(** The whole of [loadMediaLibrary] when nothing else runs in between. *)
Definition loadMediaLibrary (mediaApiUrl : string)
  (fetched : result HttpResponse) (s : ModuleState)
  : ModuleState * list DomCall :=
  let (s1, calls1) := loadMediaLibrary_start mediaApiUrl s in
  if negb (isMediaApiAvailable mediaApiUrl) then (s1, calls1)
  else let (s2, calls2) := loadMediaLibrary_finish fetched s1 in
       (s2, (calls1 ++ calls2)%list).

(** One step of the page: any of the functions and listeners that write
    a module variable, with any argument. *)
Inductive page_step (mediaApiUrl : string) : ModuleState -> ModuleState -> Prop :=
| step_callMcvApi cfg requestBody w s :
    page_step mediaApiUrl s (final (callMcvApi cfg requestBody w s))
| step_setActiveMediaTab nextTab s :
    page_step mediaApiUrl s (fst (setActiveMediaTab nextTab s))
| step_handleSearchEnter rawInput s :
    page_step mediaApiUrl s (fst (handleSearchEnter rawInput s))
| step_search_input value s :
    page_step mediaApiUrl s (fst (on_search_input value s))
| step_title_click id item s :
    page_step mediaApiUrl s (fst (on_title_click id item s))
| step_back_click s :
    page_step mediaApiUrl s (fst (on_back_click s))
| step_load_start s :
    page_step mediaApiUrl s (fst (loadMediaLibrary_start mediaApiUrl s))
| step_load_finish fetched s :
    isMediaApiAvailable mediaApiUrl = true ->
    page_step mediaApiUrl s (fst (loadMediaLibrary_finish fetched s)).

(** The states a page can be in. *)
Inductive reachable (mediaApiUrl : string) : ModuleState -> Prop :=
| reachable_initial : reachable mediaApiUrl initial_state
| reachable_step s s' :
    reachable mediaApiUrl s -> page_step mediaApiUrl s s' ->
    reachable mediaApiUrl s'.

End Links.

(** The selection, if any, belongs to the active tab. *)
Definition selection_on_active_tab (s : ModuleState) : Prop :=
  match selectedMedia s with
  | Some selection => tab selection = activeMediaTab s
  | None => True
  end.

Definition well_formed_library (library : MediaLibrary) : Prop :=
  NoDup (map fst (videos library)) /\
  NoDup (map fst (images library)) /\
  Forall well_formed_video (videos library) /\
  Forall well_formed_image (images library).


(** A reply of the Media API, and the page after it has loaded: used as
    test inputs. *)
Definition sample_media_reply : result HttpResponse :=
  Ok {| status := 200; json_body := Ok sample_media_payload |}.

Definition no_url (value : string) : option URL := None.

(** A list that cannot be rendered: [encodeURIComponent] throws. *)
Definition broken_list (s : ModuleState) : result unit :=
  Throw "URIError: URI malformed".

Definition page_after_load : ModuleState :=
  fst (on_title_click "plain"
         (inl {| video_name := "Plain";
                 video_url := "https://example.com/b.mp4";
                 youtube_id := None |})
         (fst (loadMediaLibrary_finish (fun s => s) (fun _ => Ok tt)
                 sample_media_reply
                 (fst (loadMediaLibrary_start (fun s => s)
                         "https://example.com/media.json" initial_state))))).

(** A YouTube link for the sample library, as [new URL] reads it. *)
Definition sample_youtube_url : URL :=
  {| hostname := "www.youtube.com";
     pathname := "/watch";
     searchParams := [("v", "dQw4w9WgXcQ"); ("t", "1m30s")];
     href := "https://www.youtube.com/watch?v=dQw4w9WgXcQ&t=1m30s" |}.

Definition sample_parse_url (value : string) : option URL :=
  if String.eqb value "https://www.youtube.com/watch?v=dQw4w9WgXcQ&t=1m30s"
  then Some sample_youtube_url
  else None.

(* ================================================================== *)
(** ** [app.ts]: the list filtered by the search box *)

Definition item_name (item : MediaVideoEntry + MediaImageEntry) : string :=
  match item with inl video => video_name video | inr image => image_name image end.

Definition item_url (item : MediaVideoEntry + MediaImageEntry) : string :=
  match item with inl video => video_url video | inr image => image_url image end.

(** [item.youtube_id], undefined on an image. *)
Definition item_youtube_id (item : MediaVideoEntry + MediaImageEntry)
  : option string :=
  match item with inl video => youtube_id video | inr _ => None end.

Record SearchIntent : Type := {
  query : string;
  parsedUrl : option URL;
  youtubeId : option string;
  normalizedUrl : option string
}.

Section SearchBox.

Variable trim : string -> string.

(** [String.prototype.toLowerCase], on any text. *)
Variable lowerCase : string -> string.

Variable parse_url : string -> option URL.
Variable normalizeUrlForMatch : URL -> string.

Definition normalizeSearchToken (value : string) : string :=
  lowerCase (trim value).

Definition parseSearchIntent (rawQuery : string) : SearchIntent :=
  let query := trim rawQuery in
  let parsedUrl := parseUrlOrNull parse_url query in
  {| query := query;
     parsedUrl := parsedUrl;
     youtubeId :=
       match parsedUrl with
       | Some url => if isYoutubeUrl url then extractYoutubeId trim url else None
       | None => None
       end;
     normalizedUrl :=
       match parsedUrl with
       | Some url => Some (normalizeUrlForMatch url)
       | None => None
       end |}.

Definition matchesMediaSearch (s : ModuleState) (id : string)
  (item : MediaVideoEntry + MediaImageEntry) (tab : MediaTab) : bool :=
  let query := normalizeSearchToken (mediaSearchQuery s) in
  if String.eqb query "" then true
  else
    let intent := parseSearchIntent (mediaSearchQuery s) in
    if match youtubeId intent, tab with
       | Some wanted, videos_tab =>
           negb (String.eqb wanted "")
           && (String.eqb id wanted
               || match item_youtube_id item with
                  | Some own => String.eqb own wanted
                  | None => false
                  end)
       | _, _ => false
       end
    then true
    else if match normalizedUrl intent with
            | Some wanted =>
                negb (String.eqb wanted "")
                && (match normalizePossibleUrl parse_url normalizeUrlForMatch
                            (item_url item) with
                    | Some itemNormalizedUrl =>
                        negb (String.eqb itemNormalizedUrl "")
                        && String.eqb itemNormalizedUrl wanted
                    | None => false
                    end
                    || includes (normalizeSearchToken (item_url item)) query
                    || includes query (normalizeSearchToken (item_url item)))
            | None => false
            end
    then true
    else
      let haystack :=
        ([id; item_name item; item_url item]
         ++ match tab with
            | videos_tab =>
                match item_youtube_id item with
                | Some own => if String.eqb own "" then [] else [own]
                | None => []
                end
            | images_tab => []
            end)%list in
      existsb (fun value => includes (normalizeSearchToken value) query)
              haystack.

(** The entries of the active tab as [renderMediaList] reads them. *)
Definition rawMediaEntries (s : ModuleState)
  : list (string * (MediaVideoEntry + MediaImageEntry)) :=
  match activeMediaTab s with
  | videos_tab => map (fun e => (fst e, inl (snd e))) (videos (mediaLibrary s))
  | images_tab => map (fun e => (fst e, inr (snd e))) (images (mediaLibrary s))
  end.

(** The entries [renderMediaList] lists. *)
Definition mediaEntries (s : ModuleState)
  : list (string * (MediaVideoEntry + MediaImageEntry)) :=
  filter (fun e => matchesMediaSearch s (fst e) (snd e) (activeMediaTab s))
         (rawMediaEntries s).

End SearchBox.

(** The page of the sample library with the YouTube link typed into the
    search box and the list showing. *)
Definition page_with_link_typed : ModuleState :=
  fst (on_search_input "https://www.youtube.com/watch?v=dQw4w9WgXcQ&t=1m30s"
         (fst (on_back_click page_after_load))).

(* ================================================================== *)
(** * Properties *)

(** ** The model at work *)

Example web_opencvTest_runs :
  callMcvApi web_build opencvTest_request sample_web_world initial_state
  = {| outcome := Ok (McvSuccess (sample_gray_data "opencv.js"));
       final := set_cvPromise (Ok sample_cvjs) initial_state;
       trace := [EvCv "matFromArray"; EvCv "Mat"; EvCv "cvtColor";
                 EvCv "delete"; EvCv "delete"] |}.
Proof. reflexivity. Qed.

Example python_opencvTest_runs :
  callMcvApi python_build opencvTest_request sample_python_world initial_state
  = {| outcome := Ok (McvSuccess (sample_gray_data "4.9.0"));
       final := initial_state;
       trace := [EvFetch "/api/mcv"] |}.
Proof. reflexivity. Qed.

Example web_opencvTest_without_runtime :
  callMcvApi web_build opencvTest_request broken_web_world initial_state
  = {| outcome := Ok (McvFailure "WEB_BACKEND_ERROR" "OpenCV.js call failed"
                        (Some "Error: Failed to load /opencv.js"));
       final := set_cvPromise (Throw "Error: Failed to load /opencv.js")
                  initial_state;
       trace := [EvLoadScript "/opencv.js"] |}.
Proof. reflexivity. Qed.

Example python_unknown_op_is_http_400 :
  outcome (callMcvApi python_build {| op := "solvePose"; args := JArr [] |}
             sample_python_world initial_state)
  = Ok (McvFailure "HTTP_ERROR" "HTTP 400" None).
Proof. reflexivity. Qed.


(** A [cv2] whose conversion raises: Flask answers 500, the client reports
    the status. *)
Example python_backend_exception_is_http_500 :
  outcome (callMcvApi python_build opencvTest_request
             {| globalThis_cv := CvUndefined;
                script_load := Ok tt;
                globalThis_cv_loaded := CvUndefined;
                fetch := python_target_fetch
                           {| cv2_version := "4.9.0";
                              cv2_cvtColor := fun _ _ =>
                                Throw "cv2.error: OpenCV(4.9.0) error" |} |}
             initial_state)
  = Ok (McvFailure "HTTP_ERROR" "HTTP 500" None).
Proof. reflexivity. Qed.

(** The specification's validation on six points of a line, on three of
    them, and on six corners of a box seen in general position. *)
Example validate_six_on_a_line :
  validate 0 six_on_a_line = rejected DEGENERATE_CONFIGURATION.
Proof. reflexivity. Qed.

Example validate_three_on_a_line :
  validate 0 three_on_a_line = rejected INSUFFICIENT_POINTS.
Proof. reflexivity. Qed.

Example validate_box_corners :
  validate 0 box_corners = valid /\
  solvePose 0 no_estimate box_corners = inl NON_CONVERGENCE.
Proof. split; reflexivity. Qed.

(** The build script's argument parsing and the two escapes at work. *)
Example parseOption_runs :
  parseOption ["--target"; "web"; "out"; "--dest=site"] "target" = Some "web"
  /\ parseOption ["--target"; "web"; "out"; "--dest=site"] "dest" = Some "site"
  /\ parseOption ["--target"; "web"; "out"; "--dest=site"] "config" = None
  /\ parseOption ["--dest"] "dest" = None
  /\ parsePositionals ["--target"; "web"; "out"; "--dest=site"; "--verbose";
                       "x"] ["target"; "dest"; "config"] = ["out"; "x"].
Proof. repeat split. Qed.

Example safeInlineBundle_runs :
  safeInlineBundle "a='</SCRIPT></script>'"
  = "a='<" ++ String backslash "/script><" ++ String backslash "/script>'".
Proof. reflexivity. Qed.

Example parseMediaLibrary_runs :
  parseMediaLibrary (fun s => s) sample_media_payload
  = Some {| videos :=
              [("mcc11", {| video_name := "Dream MCC 11 Parkour";
                            video_url := "https://example.com/a.mp4";
                            youtube_id := Some "dQw4w9WgXcQ" |});
               ("plain", {| video_name := "Plain";
                            video_url := "https://example.com/b.mp4";
                            youtube_id := None |})];
            images := [] |}
  /\ parseMediaLibrary (fun s => s) (JArr []) = None.
Proof. split; reflexivity. Qed.

Example parseTimestampSeconds_runs :
  parseTimestampSeconds "90" = Some 90
  /\ parseTimestampSeconds "1h2m3s" = Some 3723
  /\ parseTimestampSeconds "1H30" = Some 3630
  /\ parseTimestampSeconds "2M" = Some 120
  /\ parseTimestampSeconds "0" = Some 0
  /\ parseTimestampSeconds "0s" = None
  /\ parseTimestampSeconds "1:30" = None
  /\ parseTimestampSeconds "3m2h" = None
  /\ parseTimestampSeconds "h" = None
  /\ formatTimestamp 3723 = "1:02:03"
  /\ formatTimestamp 90 = "1:30"
  /\ formatTimestamp 5 = "0:05"
  /\ extractYoutubeTimestampLabel (fun s => s) (Some "1m30s") = Some "1:30"
  /\ extractYoutubeTimestampLabel (fun s => s) (Some "soon") = Some "soon"
  /\ extractYoutubeTimestampLabel (fun s => s) None = None.
Proof. repeat split. Qed.
(** ** The computations, step by step *)

Ltac unfold_m :=
  unfold try_catch, bind, ret, throw, perform, await, promise_of,
    get_cvPromise, put_cvPromise in *.

Lemma resolve_cv_outcome cfg w s :
  outcome (resolve_cv cfg w s) = resolution w /\ final (resolve_cv cfg w s) = s.
Proof.
  unfold resolve_cv, resolution, loadScriptOnce. unfold_m.
  destruct (globalThis_cv w); simpl; auto.
  destruct (script_load w); simpl; auto.
  destruct (globalThis_cv_loaded w); simpl; auto.
Qed.

Lemma getWebMcvRuntime_cached cfg w s p :
  cvPromise s = Some p ->
  getWebMcvRuntime cfg w s = {| outcome := p; final := s; trace := [] |}.
Proof.
  intros H. unfold getWebMcvRuntime. unfold_m. simpl. rewrite H.
  destruct p; reflexivity.
Qed.

Lemma getWebMcvRuntime_first cfg w s :
  cvPromise s = None ->
  outcome (getWebMcvRuntime cfg w s) = resolution w /\
  final (getWebMcvRuntime cfg w s) = set_cvPromise (resolution w) s.
Proof.
  intros H. unfold getWebMcvRuntime. unfold_m. simpl. rewrite H. simpl.
  destruct (resolve_cv_outcome cfg w s) as [Ho Hf]. rewrite Ho, Hf.
  destruct (resolution w); simpl; auto.
Qed.

Lemma getWebMcvRuntime_closed cfg w s :
  outcome (getWebMcvRuntime cfg w s) = runtime_promise w s /\
  final (getWebMcvRuntime cfg w s) = after_runtime w s.
Proof.
  unfold runtime_promise, after_runtime.
  destruct (cvPromise s) as [p|] eqn:E.
  - rewrite (getWebMcvRuntime_cached cfg w s p E). auto.
  - apply getWebMcvRuntime_first. exact E.
Qed.

Lemma callMcvApi_web_other url requestBody w s :
  op requestBody <> "cv.opencvTest" ->
  callMcvApi {| MCV_BACKEND := web; MCV_OPENCV_URL := url |} requestBody w s
  = {| outcome :=
         Ok (McvFailure "UNKNOWN_OP"
               ("Unsupported operation in web backend: " ++ op requestBody)
               None);
       final := s;
       trace := [] |}.
Proof.
  intros H. unfold callMcvApi. simpl.
  destruct (String.eqb_spec (op requestBody) "cv.opencvTest") as [E|E].
  - contradiction.
  - reflexivity.
Qed.

Lemma callMcvApi_web_test url requestBody w s :
  op requestBody = "cv.opencvTest" ->
  let r := callMcvApi {| MCV_BACKEND := web; MCV_OPENCV_URL := url |}
             requestBody w s in
  outcome r = Ok (web_test_response (runtime_promise w s)) /\
  final r = after_runtime w s.
Proof.
  intros H. unfold callMcvApi. cbn [MCV_BACKEND].
  rewrite H, String.eqb_refl. cbn [negb].
  set (cfg := {| MCV_BACKEND := web; MCV_OPENCV_URL := url |}).
  pose proof (getWebMcvRuntime_closed cfg w s) as [Ho Hf].
  unfold try_catch, bind, ret, perform.
  destruct (getWebMcvRuntime cfg w s) as [o f t].
  cbn [outcome final trace] in *. subst o f.
  unfold web_test_response, web_test_data.
  destruct (runtime_promise w s) as [cv|e]; cbn [outcome final trace];
    [|auto].
  destruct (js_matFromArray cv 1 3 CV_8UC3 opencv_test_pixels) as [src|e];
    cbn [outcome final trace]; [|auto].
  destruct (js_Mat cv) as [gray0|e]; cbn [outcome final trace]; [|auto].
  destruct (js_cvtColor cv src gray0 COLOR_RGB2GRAY) as [gray|e];
    cbn [outcome final trace]; [|auto].
  destruct (js_delete cv src) as [[]|e]; cbn [outcome final trace]; [|auto].
  destruct (js_delete cv gray) as [[]|e]; cbn [outcome final trace]; auto.
Qed.

Lemma callMcvApi_python url requestBody w s :
  callMcvApi {| MCV_BACKEND := python; MCV_OPENCV_URL := url |} requestBody w s
  = {| outcome := Ok (python_response (fetch w "/api/mcv" requestBody));
       final := s;
       trace := [EvFetch "/api/mcv"] |}.
Proof.
  unfold callMcvApi, python_response. simpl. unfold_m. simpl.
  destruct (fetch w "/api/mcv" requestBody) as [response|e]; simpl; auto.
  destruct (response_ok response); simpl; auto.
  destruct (json_body response); simpl; auto.
Qed.

(** ** The Flask backend *)

Lemma api_mcv_other cv2 requestBody :
  op requestBody <> "cv.opencvTest" ->
  api_mcv cv2 requestBody
  = Ok (McvFailure "UNKNOWN_OP" ("Unsupported operation: " ++ op requestBody)
          None, 400).
Proof.
  intros H. unfold api_mcv.
  destruct (String.eqb_spec (op requestBody) "cv.opencvTest") as [E|E].
  - contradiction.
  - reflexivity.
Qed.

Lemma api_mcv_test cv2 requestBody :
  op requestBody = "cv.opencvTest" ->
  api_mcv cv2 requestBody
  = match handle_mcv_cv_opencv_test cv2 (py_or_empty (args requestBody)) with
    | Ok d => Ok (McvSuccess d, 200)
    | Throw e => Throw e
    end.
Proof.
  intros H. unfold api_mcv. rewrite H, String.eqb_refl. reflexivity.
Qed.

Lemma is_envelope_McvSuccess d : is_envelope (McvSuccess d) = true.
Proof. reflexivity. Qed.

Lemma is_envelope_McvFailure code message details :
  is_envelope (McvFailure code message details) = true.
Proof. destruct details; reflexivity. Qed.

(** Whatever [api_mcv] returns as a body is an envelope. *)
Lemma api_mcv_envelope cv2 requestBody body code :
  api_mcv cv2 requestBody = Ok (body, code) -> is_envelope body = true.
Proof.
  unfold api_mcv.
  destruct (op requestBody =? "cv.opencvTest")%string.
  - destruct (handle_mcv_cv_opencv_test cv2 _) as [d|e]; intros H;
      inversion H; subst. apply is_envelope_McvSuccess.
  - intros H; inversion H; subst. apply is_envelope_McvFailure.
Qed.

Lemma python_target_answers_with_envelopes cv2 w :
  fetch w = python_target_fetch cv2 -> answers_with_envelopes w.
Proof.
  intros Hw url requestBody response body Hfetch Hok Hbody.
  rewrite Hw in Hfetch. unfold python_target_fetch in Hfetch.
  destruct (url =? "/api/mcv")%string.
  - inversion Hfetch; subst response; clear Hfetch.
    unfold flask_response in Hbody.
    destruct (api_mcv cv2 requestBody) as [[b c]|e] eqn:E;
      cbn [json_body] in Hbody; [|discriminate].
    destruct (has_nan b); [discriminate|].
    inversion Hbody; subst. eapply api_mcv_envelope; eauto.
  - inversion Hfetch; subst response. discriminate Hbody.
Qed.

(** The python client in front of the Flask backend, on an operation the
    backend does not know: the 400 reply is reported as an HTTP error and
    its body, with the backend's own error code, is dropped. *)
Lemma python_client_other url cv2 requestBody w s :
  op requestBody <> "cv.opencvTest" ->
  fetch w = python_target_fetch cv2 ->
  outcome (callMcvApi {| MCV_BACKEND := python; MCV_OPENCV_URL := url |}
             requestBody w s)
  = Ok (McvFailure "HTTP_ERROR" "HTTP 400" None).
Proof.
  intros Hop Hw. rewrite callMcvApi_python. cbn [outcome].
  rewrite Hw. unfold python_target_fetch. rewrite String.eqb_refl.
  rewrite (api_mcv_other cv2 requestBody Hop). reflexivity.
Qed.

Lemma web_test_response_envelope promise :
  is_envelope (web_test_response promise) = true.
Proof.
  unfold web_test_response.
  destruct promise as [cv|e]; [destruct (web_test_data cv)|]; reflexivity.
Qed.

Lemma python_response_envelope w requestBody :
  answers_with_envelopes w ->
  is_envelope (python_response (fetch w "/api/mcv" requestBody)) = true.
Proof.
  intros Hw. unfold python_response.
  destruct (fetch w "/api/mcv" requestBody) as [response|e] eqn:Hf;
    [|reflexivity].
  destruct (response_ok response) eqn:Hok; [|reflexivity].
  destruct (json_body response) as [body|e] eqn:Hb; [|reflexivity].
  exact (Hw _ _ _ _ Hf Hok Hb).
Qed.

(** ** The module's variables along the call path *)

Lemma after_runtime_ui w s :
  activeMediaTab (after_runtime w s) = activeMediaTab s /\
  mediaLoadState (after_runtime w s) = mediaLoadState s /\
  mediaSearchQuery (after_runtime w s) = mediaSearchQuery s /\
  selectedMedia (after_runtime w s) = selectedMedia s /\
  mediaLibrary (after_runtime w s) = mediaLibrary s.
Proof.
  unfold after_runtime. destruct (cvPromise s); simpl; auto.
Qed.

Lemma after_runtime_cvPromise w s :
  cvPromise (after_runtime w s) = Some (runtime_promise w s).
Proof.
  unfold after_runtime, runtime_promise.
  destruct (cvPromise s) eqn:E; simpl; auto.
Qed.

(** Once set, [cvPromise] is left alone: the module is not changed. *)
Lemma callMcvApi_keeps_cached cfg requestBody w s p :
  cvPromise s = Some p ->
  final (callMcvApi cfg requestBody w s) = s.
Proof.
  intros Hp. destruct cfg as [[|] url].
  - rewrite callMcvApi_python. reflexivity.
  - destruct (String.eqb_spec (op requestBody) "cv.opencvTest") as [E|E].
    + destruct (callMcvApi_web_test url requestBody w s E) as [_ Hf].
      rewrite Hf. unfold after_runtime. rewrite Hp. reflexivity.
    + rewrite (callMcvApi_web_other url requestBody w s E). reflexivity.
Qed.

(** The outcome depends on the module through [cvPromise] alone. *)
Lemma callMcvApi_reads_cvPromise_only cfg requestBody w s s' :
  cvPromise s' = cvPromise s ->
  outcome (callMcvApi cfg requestBody w s')
  = outcome (callMcvApi cfg requestBody w s).
Proof.
  intros Hp. destruct cfg as [[|] url].
  - rewrite !callMcvApi_python. reflexivity.
  - destruct (String.eqb_spec (op requestBody) "cv.opencvTest") as [E|E].
    + destruct (callMcvApi_web_test url requestBody w s E) as [Ho _].
      destruct (callMcvApi_web_test url requestBody w s' E) as [Ho' _].
      rewrite Ho, Ho'. unfold runtime_promise. rewrite Hp. reflexivity.
    + rewrite !(callMcvApi_web_other url requestBody w _ E). reflexivity.
Qed.

Lemma web_test_response_success promise d :
  success_data (web_test_response promise) = Some d ->
  exists cv, promise = Ok cv /\ web_test_data cv = Ok d.
Proof.
  unfold web_test_response. destruct promise as [cv|e]; [|discriminate].
  destruct (web_test_data cv) as [d'|e] eqn:E; [|discriminate].
  intros H. inversion H; subst. exists cv. auto.
Qed.

(** A success of the web backend comes from the runtime that [cvPromise]
    holds from then on. *)
Lemma web_success_data url requestBody w s response d :
  let r := callMcvApi {| MCV_BACKEND := web; MCV_OPENCV_URL := url |}
             requestBody w s in
  outcome r = Ok response ->
  success_data response = Some d ->
  exists cv, cvPromise (final r) = Some (Ok cv) /\ web_test_data cv = Ok d.
Proof.
  intros r Hout Hd. subst r.
  destruct (String.eqb_spec (op requestBody) "cv.opencvTest") as [E|E].
  - destruct (callMcvApi_web_test url requestBody w s E) as [Ho Hf].
    rewrite Ho in Hout. inversion Hout; subst response; clear Hout.
    destruct (web_test_response_success _ _ Hd) as [cv [Hp Hdata]].
    exists cv. split; [|exact Hdata].
    rewrite Hf, after_runtime_cvPromise, Hp. reflexivity.
  - rewrite (callMcvApi_web_other url requestBody w s E) in Hout.
    inversion Hout; subst response. discriminate Hd.
Qed.

(** With a runtime cached, every later success of the page carries that
    runtime's payload. *)
Lemma session_with_cached_runtime url calls :
  forall s cv response d,
    cvPromise s = Some (Ok cv) ->
    In (Ok response)
       (session {| MCV_BACKEND := web; MCV_OPENCV_URL := url |} calls s) ->
    success_data response = Some d ->
    web_test_data cv = Ok d.
Proof.
  induction calls as [|[requestBody w] rest IH]; intros s cv response d Hs Hin Hd.
  - destruct Hin.
  - cbn [session] in Hin.
    pose proof (callMcvApi_keeps_cached
                  {| MCV_BACKEND := web; MCV_OPENCV_URL := url |}
                  requestBody w s _ Hs) as Hkeep.
    destruct Hin as [Hhead|Htail].
    + destruct (web_success_data url requestBody w s response d Hhead Hd)
        as [cv' [Hcv' Hdata]].
      rewrite Hkeep, Hs in Hcv'. inversion Hcv'; subst cv'. exact Hdata.
    + rewrite Hkeep in Htail. exact (IH s cv response d Hs Htail Hd).
Qed.

Lemma session_success_data_unique url calls :
  forall s r1 r2 d1 d2,
    In (Ok r1) (session {| MCV_BACKEND := web; MCV_OPENCV_URL := url |} calls s) ->
    In (Ok r2) (session {| MCV_BACKEND := web; MCV_OPENCV_URL := url |} calls s) ->
    success_data r1 = Some d1 ->
    success_data r2 = Some d2 ->
    d1 = d2.
Proof.
  induction calls as [|[requestBody w] rest IH]; intros s r1 r2 d1 d2 H1 H2 Hd1 Hd2.
  - destruct H1.
  - cbn [session] in H1, H2.
    destruct H1 as [H1|H1], H2 as [H2|H2].
    + rewrite H1 in H2. inversion H2; subst r2. congruence.
    + destruct (web_success_data url requestBody w s r1 d1 H1 Hd1)
        as [cv [Hcv Hdata]].
      pose proof (session_with_cached_runtime url rest _ cv r2 d2 Hcv H2 Hd2).
      congruence.
    + destruct (web_success_data url requestBody w s r2 d2 H2 Hd2)
        as [cv [Hcv Hdata]].
      pose proof (session_with_cached_runtime url rest _ cv r1 d1 Hcv H1 Hd1).
      congruence.
    + exact (IH _ r1 r2 d1 d2 H1 H2 Hd1 Hd2).
Qed.

(** ** The payload of cv.opencvTest *)

Lemma reduce_sum_fold_right values :
  reduce_sum values = fold_right Z.add 0 values.
Proof.
  unfold reduce_sum.
  apply (fold_symmetric Z.add); intros; lia.
Qed.

Lemma js_length_pos {A} (xs : list A) :
  xs <> [] -> (js_length xs >? 0) = true.
Proof.
  destruct xs as [|x xs]; [congruence|]. intros _.
  unfold js_length. cbn [List.length]. apply Z.gtb_lt. lia.
Qed.

(** The quotient the code computes is the fraction of the two integers,
    in lowest terms. *)
Lemma quotient_is_fraction a n :
  quotient a (Z.of_nat (S n)) = Num (Qred (a # Pos.of_nat (S n))).
Proof.
  unfold quotient. f_equal. apply Qred_complete.
  rewrite (Qmake_Qdiv a (Pos.of_nat (S n))), <- Pos.of_nat_succ.
  reflexivity.
Qed.

(** The fraction of the sum over the count is a mean. *)
Lemma fraction_is_mean (v : Z) (rest : list Z) :
  is_mean_of (Qred (fold_right Z.add 0 (v :: rest)
                    # Pos.of_nat (List.length (v :: rest))))
             (v :: rest).
Proof.
  unfold is_mean_of. rewrite Qred_correct.
  cbn [List.length]. rewrite <- Pos.of_nat_succ.
  change (Z.of_nat (S (List.length rest)))
    with (Z.pos (Pos.of_succ_nat (List.length rest))).
  rewrite Qmake_Qdiv. field.
  intros H. discriminate H.
Qed.

(** A mean of a list that is not empty is the arithmetic mean. *)
Lemma mean_is_unique m values :
  values <> [] -> is_mean_of m values ->
  Num (Qred m) = arithmetic_mean values.
Proof.
  destruct values as [|v rest]; [congruence|]. intros _ Hm.
  unfold arithmetic_mean. f_equal. apply Qred_complete.
  pose proof (fraction_is_mean v rest) as Hf. unfold is_mean_of in *.
  rewrite Qred_correct in Hf.
  set (n := inject_Z (Z.of_nat (List.length (v :: rest)))) in *.
  assert (Hn : ~ (n == 0)%Q).
  { subst n. cbn [List.length].
    change (Z.of_nat (S (List.length rest)))
      with (Z.pos (Pos.of_succ_nat (List.length rest))).
    intros H. discriminate H. }
  apply (Qmult_inj_r _ _ n Hn). rewrite Hm, Hf. reflexivity.
Qed.

(** The mean as [app.ts] computes it. *)
Lemma js_mean_is_arithmetic_mean values :
  (if js_length values >? 0
   then quotient (reduce_sum values) (js_length values)
   else Num 0)
  = arithmetic_mean values.
Proof.
  destruct values as [|v rest].
  - reflexivity.
  - rewrite js_length_pos by discriminate.
    rewrite reduce_sum_fold_right. unfold js_length, arithmetic_mean.
    cbn [List.length]. apply quotient_is_fraction.
Qed.

(** The mean as numpy computes it, on an array that is not empty. *)
Lemma np_mean_is_arithmetic_mean values :
  values <> [] -> np_mean values = arithmetic_mean values.
Proof.
  destruct values as [|v rest]; [congruence|]. intros _.
  unfold np_mean, arithmetic_mean.
  change (fold_left Z.add (v :: rest) 0) with (reduce_sum (v :: rest)).
  rewrite reduce_sum_fold_right. cbn [List.length].
  apply quotient_is_fraction.
Qed.

(** The arithmetic mean is a number, and a mean. *)
Lemma arithmetic_mean_is_mean values :
  exists m, arithmetic_mean values = Num m /\ is_mean_of m values /\
            (values = [] -> m = 0%Q).
Proof.
  destruct values as [|v rest].
  - exists 0%Q. split; [reflexivity|]. split; [reflexivity|]. reflexivity.
  - eexists. split; [reflexivity|]. split; [apply fraction_is_mean|].
    discriminate.
Qed.

Lemma web_test_data_inv cv d :
  web_test_data cv = Ok d ->
  exists src gray0 gray,
    js_matFromArray cv 1 3 CV_8UC3 opencv_test_pixels = Ok src /\
    js_Mat cv = Ok gray0 /\
    js_cvtColor cv src gray0 COLOR_RGB2GRAY = Ok gray /\
    d = opencv_test_payload
          match js_VERSION cv with Some v => v | None => "opencv.js" end
          gray (arithmetic_mean (data gray)).
Proof.
  unfold web_test_data.
  destruct (js_matFromArray cv 1 3 CV_8UC3 opencv_test_pixels) as [src|e];
    [|discriminate].
  destruct (js_Mat cv) as [gray0|e]; [|discriminate].
  destruct (js_cvtColor cv src gray0 COLOR_RGB2GRAY) as [gray|e] eqn:Hcvt;
    [|discriminate].
  destruct (js_delete cv src) as [[]|e]; [|discriminate].
  destruct (js_delete cv gray) as [[]|e]; [|discriminate].
  intros H. inversion H; subst d; clear H.
  exists src, gray0, gray. repeat split; try assumption.
  rewrite js_mean_is_arithmetic_mean. reflexivity.
Qed.

Lemma handle_mcv_cv_opencv_test_inv cv2 request_args d :
  handle_mcv_cv_opencv_test cv2 request_args = Ok d ->
  exists gray,
    cv2_cvtColor cv2 opencv_test_image COLOR_RGB2GRAY = Ok gray /\
    d = opencv_test_payload (cv2_version cv2) gray (np_mean (data gray)).
Proof.
  unfold handle_mcv_cv_opencv_test.
  change {| rows := 1; cols := 3; channels := 3; data := opencv_test_pixels |}
    with opencv_test_image.
  destruct (cv2_cvtColor cv2 opencv_test_image COLOR_RGB2GRAY) as [gray|e];
    [|discriminate].
  intros H. inversion H; subst d. exists gray. auto.
Qed.

(** A gray image of the test image's shape holds three bytes. *)
Lemma gray_of_test_image cvtColor code gray :
  keeps_shape cvtColor ->
  cvtColor opencv_test_image code = Ok gray ->
  rows gray = 1 /\ cols gray = 3 /\ data gray <> [].
Proof.
  intros Hk Hg. destruct (Hk _ _ _ Hg) as [Hr [Hc Hl]].
  cbn in Hr, Hc, Hl. repeat split; try assumption.
  intros Hnil. rewrite Hnil in Hl. discriminate Hl.
Qed.

Lemma has_nan_bytes values : existsb has_nan (map JInt values) = false.
Proof.
  induction values as [|v rest IH]; [reflexivity|].
  cbn [map existsb]. rewrite IH. reflexivity.
Qed.

Lemma has_nan_payload version gray :
  data gray <> [] ->
  has_nan (McvSuccess (opencv_test_payload version gray (np_mean (data gray))))
  = false.
Proof.
  intros Hne. rewrite np_mean_is_arithmetic_mean by exact Hne.
  unfold arithmetic_mean. destruct (data gray) as [|v rest] eqn:E;
    [congruence|].
  unfold McvSuccess, opencv_test_payload. rewrite E.
  cbn [has_nan existsb snd orb]. rewrite has_nan_bytes. reflexivity.
Qed.

(** ** The sample OpenCV honours the contract *)

Lemma gray_of_rgb_length k :
  forall bytes, List.length bytes = (3 * k)%nat ->
                List.length (gray_of_rgb bytes) = k.
Proof.
  induction k as [|k IH]; intros bytes H.
  - destruct bytes; [reflexivity | discriminate H].
  - destruct bytes as [|r [|g [|b rest]]]; cbn [List.length] in H; try lia.
    cbn [gray_of_rgb List.length]. f_equal. apply IH. lia.
Qed.

Lemma gray_of_bgr_length k :
  forall bytes, List.length bytes = (3 * k)%nat ->
                List.length (gray_of_bgr bytes) = k.
Proof.
  induction k as [|k IH]; intros bytes H.
  - destruct bytes; [reflexivity | discriminate H].
  - destruct bytes as [|r [|g [|b rest]]]; cbn [List.length] in H; try lia.
    cbn [gray_of_bgr List.length]. f_equal. apply IH. lia.
Qed.

Lemma sample_cvtColor_keeps_shape : keeps_shape sample_cvtColor.
Proof.
  intros src code gray. unfold sample_cvtColor.
  destruct ((channels src =? 3)
            && (js_length (data src) =? rows src * cols src * 3)) eqn:E;
    [|discriminate].
  apply andb_prop in E. destruct E as [_ El]. apply Z.eqb_eq in El.
  intros H. inversion H; subst gray; clear H. cbn [rows cols data].
  repeat split.
  unfold js_length in *.
  assert (Hk : List.length (data src)
               = (3 * Z.to_nat (rows src * cols src))%nat) by lia.
  destruct code.
  - rewrite (gray_of_rgb_length _ _ Hk). lia.
  - rewrite (gray_of_bgr_length _ _ Hk). lia.
Qed.

Lemma sample_opencv_is_one_opencv : same_opencv sample_cvjs sample_cv2.
Proof.
  constructor.
  - reflexivity.
  - eexists. reflexivity.
  - reflexivity.
  - reflexivity.
  - exact sample_cvtColor_keeps_shape.
  - intros src Hc Hl. cbn [sample_cv2 cv2_cvtColor]. unfold sample_cvtColor.
    rewrite Hc, Hl, !Z.eqb_refl. eexists. reflexivity.
Qed.

(** ** Failure modes and their codes *)

(** Each way a call can fail, with the code the caller sees. *)
Lemma callMcvApi_failure_codes url requestBody w s :
  (op requestBody <> "cv.opencvTest" ->
   outcome (callMcvApi {| MCV_BACKEND := web; MCV_OPENCV_URL := url |}
              requestBody w s)
   = Ok (McvFailure "UNKNOWN_OP"
           ("Unsupported operation in web backend: " ++ op requestBody) None))
  /\ (forall e,
        op requestBody = "cv.opencvTest" ->
        runtime_promise w s = Throw e
        \/ (exists cv, runtime_promise w s = Ok cv /\ web_test_data cv = Throw e) ->
        outcome (callMcvApi {| MCV_BACKEND := web; MCV_OPENCV_URL := url |}
                   requestBody w s)
        = Ok (McvFailure "WEB_BACKEND_ERROR" "OpenCV.js call failed" (Some e)))
  /\ (forall e,
        fetch w "/api/mcv" requestBody = Throw e ->
        outcome (callMcvApi {| MCV_BACKEND := python; MCV_OPENCV_URL := url |}
                   requestBody w s)
        = Ok (McvFailure "NETWORK_ERROR" "Could not reach backend API" (Some e)))
  /\ (forall response,
        fetch w "/api/mcv" requestBody = Ok response ->
        response_ok response = false ->
        outcome (callMcvApi {| MCV_BACKEND := python; MCV_OPENCV_URL := url |}
                   requestBody w s)
        = Ok (McvFailure "HTTP_ERROR"
                ("HTTP " ++ string_of_Z (status response)) None))
  /\ (forall response e,
        fetch w "/api/mcv" requestBody = Ok response ->
        response_ok response = true ->
        json_body response = Throw e ->
        outcome (callMcvApi {| MCV_BACKEND := python; MCV_OPENCV_URL := url |}
                   requestBody w s)
        = Ok (McvFailure "NETWORK_ERROR" "Could not reach backend API" (Some e))).
Proof.
  split; [|split; [|split; [|split]]].
  - intros Hop. rewrite (callMcvApi_web_other url requestBody w s Hop).
    reflexivity.
  - intros e Hop Hfail.
    destruct (callMcvApi_web_test url requestBody w s Hop) as [Ho _].
    rewrite Ho. unfold web_test_response.
    destruct Hfail as [Hp|[cv [Hp Hd]]]; rewrite Hp; [|rewrite Hd]; reflexivity.
  - intros e Hf. rewrite callMcvApi_python. cbn [outcome].
    rewrite Hf. reflexivity.
  - intros response Hf Hok. rewrite callMcvApi_python. cbn [outcome].
    rewrite Hf. unfold python_response. rewrite Hok. reflexivity.
  - intros response e Hf Hok Hb. rewrite callMcvApi_python. cbn [outcome].
    rewrite Hf. unfold python_response. rewrite Hok, Hb. reflexivity.
Qed.

(** ** Degenerate configurations have singular covariance *)

Section Covariance.

Local Open Scope Q_scope.

Lemma sum_over_eq {A} (f g : A -> Q) xs :
  (forall x, In x xs -> f x == g x) -> sum_over f xs == sum_over g xs.
Proof.
  induction xs as [|x xs IH]; intros H; [reflexivity|].
  unfold sum_over in *. cbn [fold_right].
  rewrite (H x (or_introl eq_refl)), IH; [reflexivity|].
  intros y Hy. apply H. right. exact Hy.
Qed.

Lemma sum_over_zero {A} (xs : list A) : sum_over (fun _ => 0) xs == 0.
Proof.
  induction xs as [|x xs IH]; [reflexivity|].
  unfold sum_over in *. cbn [fold_right]. rewrite IH. ring.
Qed.

Lemma sum_over_constant {A} (d : Q) (xs : list A) :
  sum_over (fun _ => d) xs == count xs * d.
Proof.
  unfold count. induction xs as [|x xs IH].
  - cbn. ring.
  - unfold sum_over in *. cbn [fold_right List.length].
    rewrite IH, Nat2Z.inj_succ. unfold Z.succ. rewrite inject_Z_plus.
    ring.
Qed.

Lemma sum_over_combination {A} (a b c : Q) (f g h : A -> Q) xs :
  sum_over (fun x => a * f x + b * g x + c * h x) xs
  == a * sum_over f xs + b * sum_over g xs + c * sum_over h xs.
Proof.
  induction xs as [|x xs IH]; [cbn; ring|].
  unfold sum_over in *. cbn [fold_right]. rewrite IH. ring.
Qed.

Lemma count_nonzero {A} (xs : list A) : xs <> [] -> ~ count xs == 0.
Proof.
  destruct xs as [|x xs]; [congruence|]. intros _ H.
  unfold count, Qeq in H. cbn in H. lia.
Qed.

(** A matrix that sends a non-zero vector to zero has determinant zero. *)
Lemma det3_of_singular m11 m12 m13 m21 m22 m23 m31 m32 m33 a b c :
  m11 * a + m12 * b + m13 * c == 0 ->
  m21 * a + m22 * b + m23 * c == 0 ->
  m31 * a + m32 * b + m33 * c == 0 ->
  ~ (a == 0 /\ b == 0 /\ c == 0) ->
  det3 m11 m12 m13 m21 m22 m23 m31 m32 m33 == 0.
Proof.
  intros H1 H2 H3 Hn.
  set (d := det3 m11 m12 m13 m21 m22 m23 m31 m32 m33).
  assert (Ha : d * a == 0).
  { transitivity
      ((m22 * m33 - m23 * m32) * (m11 * a + m12 * b + m13 * c)
       - (m12 * m33 - m13 * m32) * (m21 * a + m22 * b + m23 * c)
       + (m12 * m23 - m13 * m22) * (m31 * a + m32 * b + m33 * c)).
    - unfold d, det3. ring.
    - rewrite H1, H2, H3. ring. }
  assert (Hb : d * b == 0).
  { transitivity
      (- (m21 * m33 - m23 * m31) * (m11 * a + m12 * b + m13 * c)
       + (m11 * m33 - m13 * m31) * (m21 * a + m22 * b + m23 * c)
       - (m11 * m23 - m13 * m21) * (m31 * a + m32 * b + m33 * c)).
    - unfold d, det3. ring.
    - rewrite H1, H2, H3. ring. }
  assert (Hc : d * c == 0).
  { transitivity
      ((m21 * m32 - m22 * m31) * (m11 * a + m12 * b + m13 * c)
       - (m11 * m32 - m12 * m31) * (m21 * a + m22 * b + m23 * c)
       + (m11 * m22 - m12 * m21) * (m31 * a + m32 * b + m33 * c)).
    - unfold d, det3. ring.
    - rewrite H1, H2, H3. ring. }
  destruct (Qeq_dec d 0) as [Hd|Hd]; [exact Hd|].
  exfalso. apply Hn.
  repeat split.
  - destruct (Qmult_integral _ _ Ha); [contradiction|assumption].
  - destruct (Qmult_integral _ _ Hb); [contradiction|assumption].
  - destruct (Qmult_integral _ _ Hc); [contradiction|assumption].
Qed.

Lemma det2_of_singular m11 m12 m21 m22 a b :
  m11 * a + m12 * b == 0 ->
  m21 * a + m22 * b == 0 ->
  ~ (a == 0 /\ b == 0) ->
  m11 * m22 - m12 * m21 == 0.
Proof.
  intros H1 H2 Hn.
  set (d := m11 * m22 - m12 * m21).
  assert (Ha : d * a == 0).
  { transitivity (m22 * (m11 * a + m12 * b) - m12 * (m21 * a + m22 * b)).
    - unfold d. ring.
    - rewrite H1, H2. ring. }
  assert (Hb : d * b == 0).
  { transitivity (m11 * (m21 * a + m22 * b) - m21 * (m11 * a + m12 * b)).
    - unfold d. ring.
    - rewrite H1, H2. ring. }
  destruct (Qeq_dec d 0) as [Hd|Hd]; [exact Hd|].
  exfalso. apply Hn.
  split.
  - destruct (Qmult_integral _ _ Ha); [contradiction|assumption].
  - destruct (Qmult_integral _ _ Hb); [contradiction|assumption].
Qed.

(** One row of a covariance matrix against a vector the centred points
    are orthogonal to. *)
Lemma cov_row_orthogonal {A} (f g1 g2 g3 : A -> Q) (a b c : Q) qs :
  (forall q, In q qs -> a * g1 q + b * g2 q + c * g3 q == 0) ->
  cov f g1 qs * a + cov f g2 qs * b + cov f g3 qs * c == 0.
Proof.
  intros H. unfold cov, Qdiv.
  transitivity
    ((a * sum_over (fun q => f q * g1 q) qs
      + b * sum_over (fun q => f q * g2 q) qs
      + c * sum_over (fun q => f q * g3 q) qs) * / count qs);
    [ring|].
  rewrite <- sum_over_combination.
  rewrite (sum_over_eq _ (fun _ => 0)).
  - rewrite sum_over_zero. ring.
  - intros q Hq.
    transitivity (f q * (a * g1 q + b * g2 q + c * g3 q)); [ring|].
    rewrite (H q Hq). ring.
Qed.

Lemma centre3_in_plane ps a b c d :
  ps <> [] ->
  (forall p, In p ps -> a * x3 p + b * y3 p + c * z3 p == d) ->
  forall q, In q (centre3 ps) -> a * x3 q + b * y3 q + c * z3 q == 0.
Proof.
  intros Hne Hplane q Hq.
  unfold centre3 in Hq. apply in_map_iff in Hq.
  destruct Hq as [p [Hq Hp]]. subst q. cbn [x3 y3 z3 fst snd].
  pose proof (count_nonzero ps Hne) as HN.
  assert (Hsum : a * sum_over x3 ps + b * sum_over y3 ps
                 + c * sum_over z3 ps == count ps * d).
  { rewrite <- sum_over_combination.
    rewrite (sum_over_eq _ (fun _ => d)) by exact Hplane.
    apply sum_over_constant. }
  unfold mean_over.
  transitivity
    ((a * x3 p + b * y3 p + c * z3 p)
     - (a * sum_over x3 ps + b * sum_over y3 ps + c * sum_over z3 ps)
       / count ps);
    [field; exact HN|].
  rewrite (Hplane p Hp), Hsum. field. exact HN.
Qed.

Lemma centre2_on_line ps a b c :
  ps <> [] ->
  (forall p, In p ps -> a * fst p + b * snd p == c) ->
  forall q, In q (centre2 ps) -> a * fst q + b * snd q + 0 * fst q == 0.
Proof.
  intros Hne Hline q Hq.
  unfold centre2 in Hq. apply in_map_iff in Hq.
  destruct Hq as [p [Hq Hp]]. subst q. cbn [fst snd].
  pose proof (count_nonzero ps Hne) as HN.
  assert (Hsum : a * sum_over fst ps + b * sum_over snd ps
                 + 0 * sum_over fst ps == count ps * c).
  { rewrite <- sum_over_combination.
    rewrite (sum_over_eq _ (fun _ => c)).
    - apply sum_over_constant.
    - intros x Hx. rewrite <- (Hline x Hx). ring. }
  unfold mean_over.
  transitivity
    ((a * fst p + b * snd p)
     - (a * sum_over fst ps + b * sum_over snd ps + 0 * sum_over fst ps)
       / count ps);
    [field; exact HN|].
  rewrite (Hline p Hp), Hsum. field. exact HN.
Qed.

(** Points in a plane pass the coplanarity test at any tolerance. *)
Lemma coplanar_is_near_coplanar tolerance ps :
  0 <= tolerance -> ps <> [] -> coplanar ps ->
  near_coplanar tolerance ps = true.
Proof.
  intros Htol Hne [a [b [c [d [Hn Hplane]]]]].
  unfold near_coplanar. apply Qle_bool_iff.
  pose proof (centre3_in_plane ps a b c d Hne Hplane) as Hq.
  rewrite (det3_of_singular _ _ _ _ _ _ _ _ _ a b c); try exact Htol;
    try exact Hn; apply cov_row_orthogonal; exact Hq.
Qed.

(** Pixels on a line pass the collinearity test at any tolerance. *)
Lemma collinear_is_near_collinear tolerance ps :
  0 <= tolerance -> ps <> [] -> collinear ps ->
  near_collinear tolerance ps = true.
Proof.
  intros Htol Hne [a [b [c [Hn Hline]]]].
  unfold near_collinear. apply Qle_bool_iff.
  pose proof (centre2_on_line ps a b c Hne Hline) as Hq.
  rewrite (det2_of_singular _ _ _ _ a b); try exact Htol; try exact Hn.
  - pose proof (cov_row_orthogonal fst fst snd fst a b 0 _ Hq) as H.
    rewrite <- H. ring.
  - pose proof (cov_row_orthogonal snd fst snd fst a b 0 _ Hq) as H.
    rewrite <- H. ring.
Qed.

End Covariance.

Lemma validate_too_few tolerance cs :
  (List.length cs < 6)%nat ->
  validate tolerance cs = rejected INSUFFICIENT_POINTS.
Proof.
  intros H. unfold validate.
  destruct (Nat.ltb_spec (List.length cs) 6) as [_|Hge]; [reflexivity|lia].
Qed.

(* ================================================================== *)
(** ** Operations of the envelope *)

(** C9: for every request whose op is not "cv.opencvTest", the web backend
    returns the failure UNKNOWN_OP without invoking the OpenCV runtime (no
    call leaves the module and [cvPromise] stays as it was), and the Python
    backend returns the failure UNKNOWN_OP with HTTP status 400; no such
    request yields a success. *)
Theorem unknown_op_is_rejected :
  forall url requestBody w s cv2,
    op requestBody <> "cv.opencvTest" ->
    callMcvApi {| MCV_BACKEND := web; MCV_OPENCV_URL := url |} requestBody w s
    = {| outcome :=
           Ok (McvFailure "UNKNOWN_OP"
                 ("Unsupported operation in web backend: " ++ op requestBody)
                 None);
         final := s;
         trace := [] |}
    /\ api_mcv cv2 requestBody
       = Ok (McvFailure "UNKNOWN_OP"
               ("Unsupported operation: " ++ op requestBody) None, 400)
    /\ (forall response,
          outcome (callMcvApi {| MCV_BACKEND := web; MCV_OPENCV_URL := url |}
                     requestBody w s) = Ok response
          \/ (exists code, api_mcv cv2 requestBody = Ok (response, code)) ->
          is_success response = false /\
          error_code response = Some "UNKNOWN_OP").
Proof.
  intros url requestBody w s cv2 H.
  rewrite (callMcvApi_web_other url requestBody w s H).
  rewrite (api_mcv_other cv2 requestBody H).
  repeat split.
  - destruct H0 as [E|[code E]]; inversion E; reflexivity.
  - destruct H0 as [E|[code E]]; inversion E; reflexivity.
Qed.

Lemma unknown_op_is_rejected_witness :
  callMcvApi web_build {| op := "cv.canny"; args := JObj [] |}
    sample_web_world initial_state
  = {| outcome :=
         Ok (McvFailure "UNKNOWN_OP"
               "Unsupported operation in web backend: cv.canny" None);
       final := initial_state;
       trace := [] |}
  /\ api_mcv sample_cv2 {| op := "cv.canny"; args := JObj [] |}
     = Ok (McvFailure "UNKNOWN_OP" "Unsupported operation: cv.canny" None, 400).
Proof.
  destruct (unknown_op_is_rejected "/opencv.js"
              {| op := "cv.canny"; args := JObj [] |}
              sample_web_world initial_state sample_cv2) as [Hw [Hp _]].
  - simpl. discriminate.
  - split; [exact Hw | exact Hp].
Defined.

(** C1 (as stated, refuted): a well-formed [solvePose] request with six
    correspondences is answered by the failure UNKNOWN_OP, which is neither
    a pose nor one of the solver's three error codes; so the envelope does
    not expose [solvePose]. *)
Lemma solvePose_not_exposed :
  solvePose_args (args solvePose_request) = true /\
  outcome (callMcvApi web_build solvePose_request sample_web_world
             initial_state)
  = Ok (McvFailure "UNKNOWN_OP"
          "Unsupported operation in web backend: solvePose" None) /\
  answers_with pose_fields pose_error_codes
    (McvFailure "UNKNOWN_OP"
       "Unsupported operation in web backend: solvePose" None) = false /\
  ~ exposes "solvePose" solvePose_args pose_fields pose_error_codes.
Proof.
  repeat split.
  intros H.
  destruct (H web_build solvePose_request sample_web_world initial_state
              eq_refl eq_refl) as [response [Hout Hans]].
  inversion Hout; subst response. discriminate Hans.
Qed.

(** C1 (amended): the envelope has no [solvePose] operation.  Whatever its
    args, a request with op "solvePose" gets the failure UNKNOWN_OP from the
    web backend, with no call into OpenCV and the module unchanged, and
    HTTP 400 with the failure UNKNOWN_OP from the Python backend, which the
    python client reports as the failure HTTP_ERROR "HTTP 400". *)
Theorem solvePose_is_unknown_op :
  forall url request_args w s cv2,
    let requestBody := {| op := "solvePose"; args := request_args |} in
    callMcvApi {| MCV_BACKEND := web; MCV_OPENCV_URL := url |} requestBody w s
    = {| outcome :=
           Ok (McvFailure "UNKNOWN_OP"
                 "Unsupported operation in web backend: solvePose" None);
         final := s;
         trace := [] |}
    /\ flask_response (api_mcv cv2 requestBody)
       = {| status := 400;
            json_body :=
              Ok (McvFailure "UNKNOWN_OP" "Unsupported operation: solvePose"
                    None) |}
    /\ (fetch w = python_target_fetch cv2 ->
        outcome (callMcvApi {| MCV_BACKEND := python; MCV_OPENCV_URL := url |}
                   requestBody w s)
        = Ok (McvFailure "HTTP_ERROR" "HTTP 400" None)).
Proof.
  intros url request_args w s cv2 requestBody.
  assert (Hop : op requestBody <> "cv.opencvTest") by (simpl; discriminate).
  split; [|split].
  - exact (callMcvApi_web_other url requestBody w s Hop).
  - rewrite (api_mcv_other cv2 requestBody Hop). reflexivity.
  - intros Hw. exact (python_client_other url cv2 requestBody w s Hop Hw).
Qed.

Lemma solvePose_is_unknown_op_witness :
  outcome (callMcvApi python_build solvePose_request sample_python_world
             initial_state)
  = Ok (McvFailure "HTTP_ERROR" "HTTP 400" None).
Proof.
  apply (solvePose_is_unknown_op "/opencv.js" (args solvePose_request)
           sample_python_world initial_state sample_cv2).
  reflexivity.
Defined.

(** C2 (as stated, refuted): a well-formed [solveTickBoundary] request with
    two samples in each segment is answered by the failure UNKNOWN_OP,
    which is neither a tick-boundary estimate nor INSUFFICIENT_SAMPLES nor
    PARALLEL_LINES. *)
Lemma solveTickBoundary_not_exposed :
  solveTickBoundary_args (args solveTickBoundary_request) = true /\
  outcome (callMcvApi web_build solveTickBoundary_request sample_web_world
             initial_state)
  = Ok (McvFailure "UNKNOWN_OP"
          "Unsupported operation in web backend: solveTickBoundary" None) /\
  answers_with tick_fields tick_error_codes
    (McvFailure "UNKNOWN_OP"
       "Unsupported operation in web backend: solveTickBoundary" None)
  = false /\
  ~ exposes "solveTickBoundary" solveTickBoundary_args tick_fields
      tick_error_codes.
Proof.
  repeat split.
  intros H.
  destruct (H web_build solveTickBoundary_request sample_web_world
              initial_state eq_refl eq_refl) as [response [Hout Hans]].
  inversion Hout; subst response. discriminate Hans.
Qed.

(** C2 (amended): the envelope has no [solveTickBoundary] operation.
    Whatever its args (however many samples the segments hold), a request
    with op "solveTickBoundary" gets the failure UNKNOWN_OP from the web
    backend, with no call into OpenCV and the module unchanged, and HTTP
    400 with the failure UNKNOWN_OP from the Python backend, which the
    python client reports as the failure HTTP_ERROR "HTTP 400". *)
Theorem solveTickBoundary_is_unknown_op :
  forall url request_args w s cv2,
    let requestBody := {| op := "solveTickBoundary"; args := request_args |} in
    callMcvApi {| MCV_BACKEND := web; MCV_OPENCV_URL := url |} requestBody w s
    = {| outcome :=
           Ok (McvFailure "UNKNOWN_OP"
                 "Unsupported operation in web backend: solveTickBoundary"
                 None);
         final := s;
         trace := [] |}
    /\ flask_response (api_mcv cv2 requestBody)
       = {| status := 400;
            json_body :=
              Ok (McvFailure "UNKNOWN_OP"
                    "Unsupported operation: solveTickBoundary" None) |}
    /\ (fetch w = python_target_fetch cv2 ->
        outcome (callMcvApi {| MCV_BACKEND := python; MCV_OPENCV_URL := url |}
                   requestBody w s)
        = Ok (McvFailure "HTTP_ERROR" "HTTP 400" None)).
Proof.
  intros url request_args w s cv2 requestBody.
  assert (Hop : op requestBody <> "cv.opencvTest") by (simpl; discriminate).
  split; [|split].
  - exact (callMcvApi_web_other url requestBody w s Hop).
  - rewrite (api_mcv_other cv2 requestBody Hop). reflexivity.
  - intros Hw. exact (python_client_other url cv2 requestBody w s Hop Hw).
Qed.

Lemma solveTickBoundary_is_unknown_op_witness :
  outcome (callMcvApi python_build solveTickBoundary_request
             sample_python_world initial_state)
  = Ok (McvFailure "HTTP_ERROR" "HTTP 400" None).
Proof.
  apply (solveTickBoundary_is_unknown_op "/opencv.js"
           (args solveTickBoundary_request)
           sample_python_world initial_state sample_cv2).
  reflexivity.
Defined.

(* ================================================================== *)
(** ** Failures and the envelope *)

(** C3 (as stated, refuted): a failure can leave the envelope.  The python
    branch returns the JSON body of any 2xx reply as it is, unchecked: when
    [/api/mcv] is answered with status 200 and the body [[]], the caller
    gets [[]], which is neither [{ok: true, data}] nor
    [{ok: false, error}]. *)
Lemma callMcvApi_passes_on_any_json_body :
  fetch foreign_world "/api/mcv" opencvTest_request
  = Ok {| status := 200; json_body := Ok (JArr []) |} /\
  outcome (callMcvApi python_build opencvTest_request foreign_world
             initial_state)
  = Ok (JArr []) /\
  is_envelope (JArr []) = false /\
  ~ always_an_envelope (callMcvApi python_build).
Proof.
  repeat split.
  intros H.
  destruct (H opencvTest_request foreign_world initial_state)
    as [response [Hout Henv]].
  inversion Hout; subst response. discriminate Henv.
Qed.

(** C3 (amended): every invocation of [callMcvApi] ends in a returned
    value, never in a thrown or rejected error, and every failure it meets
    is returned as an envelope failure.  On the web backend the result is
    always an envelope: UNKNOWN_OP for an unsupported op, and for
    cv.opencvTest a success or WEB_BACKEND_ERROR, whatever OpenCV.js does.
    On the python backend an unreachable network gives NETWORK_ERROR, a
    status that is not 2xx gives HTTP_ERROR, a 2xx body that is not JSON
    gives NETWORK_ERROR; a 2xx JSON body is returned as it is.  So the
    result is an envelope unless a 2xx reply carries a JSON body that is
    none, and it always is one when the Flask backend of the repository
    answers. *)
Theorem callMcvApi_returns_and_wraps_failures :
  forall cfg requestBody w s,
  exists response,
    outcome (callMcvApi cfg requestBody w s) = Ok response
    /\ (MCV_BACKEND cfg = web ->
        is_envelope response = true /\
        (op requestBody <> "cv.opencvTest" ->
         error_code response = Some "UNKNOWN_OP") /\
        (op requestBody = "cv.opencvTest" ->
         is_success response = true \/
         error_code response = Some "WEB_BACKEND_ERROR"))
    /\ (MCV_BACKEND cfg = python ->
        (forall e,
           fetch w "/api/mcv" requestBody = Throw e ->
           response = McvFailure "NETWORK_ERROR" "Could not reach backend API"
                        (Some e))
        /\ (forall reply,
              fetch w "/api/mcv" requestBody = Ok reply ->
              response_ok reply = false ->
              response = McvFailure "HTTP_ERROR"
                           ("HTTP " ++ string_of_Z (status reply)) None)
        /\ (forall reply e,
              fetch w "/api/mcv" requestBody = Ok reply ->
              response_ok reply = true ->
              json_body reply = Throw e ->
              response = McvFailure "NETWORK_ERROR"
                           "Could not reach backend API" (Some e))
        /\ (forall reply body,
              fetch w "/api/mcv" requestBody = Ok reply ->
              response_ok reply = true ->
              json_body reply = Ok body ->
              response = body)
        /\ (forall cv2,
              fetch w = python_target_fetch cv2 ->
              is_envelope response = true))
    /\ (is_envelope response = false ->
        MCV_BACKEND cfg = python /\
        exists reply,
          fetch w "/api/mcv" requestBody = Ok reply /\
          response_ok reply = true /\
          json_body reply = Ok response).
Proof.
  intros [[|] url] requestBody w s.
  - rewrite callMcvApi_python. cbn [outcome MCV_BACKEND].
    eexists. split; [reflexivity|].
    split; [discriminate|]. split.
    + intros _. unfold python_response.
      split; [|split; [|split; [|split]]].
      * intros e Hf. rewrite Hf. reflexivity.
      * intros reply Hf Hok. rewrite Hf, Hok. reflexivity.
      * intros reply e Hf Hok Hb. rewrite Hf, Hok, Hb. reflexivity.
      * intros reply body Hf Hok Hb. rewrite Hf, Hok, Hb. reflexivity.
      * intros cv2 Hw. apply python_response_envelope.
        exact (python_target_answers_with_envelopes cv2 w Hw).
    + unfold python_response.
      destruct (fetch w "/api/mcv" requestBody) as [reply|e];
        [|rewrite is_envelope_McvFailure; discriminate].
      destruct (response_ok reply) eqn:Hok;
        [|rewrite is_envelope_McvFailure; discriminate].
      destruct (json_body reply) as [body|e] eqn:Hb;
        [|rewrite is_envelope_McvFailure; discriminate].
      intros _. split; [reflexivity|]. exists reply. auto.
  - destruct (String.eqb_spec (op requestBody) "cv.opencvTest") as [E|E].
    + destruct (callMcvApi_web_test url requestBody w s E) as [Ho _].
      rewrite Ho. eexists. split; [reflexivity|].
      split; [|split; [discriminate|]].
      * intros _. split; [apply web_test_response_envelope|].
        split; [intros Hne; contradiction|]. intros _.
        unfold web_test_response.
        destruct (runtime_promise w s) as [cv|e]; [|right; reflexivity].
        destruct (web_test_data cv) as [d|e]; [left|right]; reflexivity.
      * rewrite web_test_response_envelope. discriminate.
    + rewrite (callMcvApi_web_other url requestBody w s E). cbn [outcome].
      eexists. split; [reflexivity|].
      split; [|split; [discriminate|]].
      * intros _. split; [reflexivity|]. split; [reflexivity|].
        intros Hop. contradiction.
      * rewrite is_envelope_McvFailure. discriminate.
Qed.

Lemma callMcvApi_returns_and_wraps_failures_witness :
  exists response,
    outcome (callMcvApi python_build opencvTest_request sample_python_world
               initial_state) = Ok response /\
    is_envelope response = true.
Proof.
  destruct (callMcvApi_returns_and_wraps_failures python_build
              opencvTest_request sample_python_world initial_state)
    as [response [Hout [_ [Hpy _]]]].
  exists response. split; [exact Hout|].
  destruct (Hpy eq_refl) as [_ [_ [_ [_ Hflask]]]].
  apply (Hflask sample_cv2). reflexivity.
Defined.

(* ================================================================== *)
(** ** Purity and module state *)

(** C7 (as stated, refuted): cv.opencvTest is not a pure function of its
    request.  The web computation reads the module variable [cvPromise]:
    the same request on the same page returns the data of the runtime the
    module has cached, here the one a first call found on [window.cv],
    where a fresh module returns the data of the runtime now on the page;
    and the data carries the version of the backend's OpenCV, so the
    python backend returns yet another. *)
Lemma opencvTest_is_no_pure_function :
  final (callMcvApi web_build opencvTest_request versioned_web_world
           initial_state)
  = set_cvPromise (Ok versioned_cvjs) initial_state /\
  outcome (callMcvApi web_build opencvTest_request sample_web_world
             (set_cvPromise (Ok versioned_cvjs) initial_state))
  = Ok (McvSuccess (sample_gray_data "4.10.0")) /\
  outcome (callMcvApi web_build opencvTest_request sample_web_world
             initial_state)
  = Ok (McvSuccess (sample_gray_data "opencv.js")) /\
  outcome (callMcvApi python_build opencvTest_request sample_python_world
             initial_state)
  = Ok (McvSuccess (sample_gray_data "4.9.0")) /\
  ~ pure_function_of_request (callMcvApi web_build) "cv.opencvTest".
Proof.
  repeat split.
  intros H.
  assert (E : sample_gray_data "4.10.0" = sample_gray_data "opencv.js").
  { apply (H (JObj []) (JObj []) sample_web_world sample_web_world
             (set_cvPromise (Ok versioned_cvjs) initial_state) initial_state
             (McvSuccess (sample_gray_data "4.10.0"))
             (McvSuccess (sample_gray_data "opencv.js"))); reflexivity. }
  discriminate E.
Qed.

(** C7 (amended): cv.opencvTest does not depend on its args, and its
    result is fixed by the OpenCV it reaches.  On the web backend the
    outcome is a function of the promise the call awaits ([cvPromise] when
    the module holds one, else the runtime found on the page), the same
    for any two args; hence all the successes of one page, whatever the
    args and whatever happens to the page in between, carry identical
    data.  The Python handler reads no state: for one [cv2] it answers any
    two args identically, and so does the python client served by it. *)
Theorem opencvTest_depends_on_the_runtime_alone :
  (forall url args1 args2 w1 w2 s1 s2,
     runtime_promise w1 s1 = runtime_promise w2 s2 ->
     outcome (callMcvApi {| MCV_BACKEND := web; MCV_OPENCV_URL := url |}
                {| op := "cv.opencvTest"; args := args1 |} w1 s1)
     = outcome (callMcvApi {| MCV_BACKEND := web; MCV_OPENCV_URL := url |}
                  {| op := "cv.opencvTest"; args := args2 |} w2 s2))
  /\ (forall url calls s r1 r2 d1 d2,
        In (Ok r1)
           (session {| MCV_BACKEND := web; MCV_OPENCV_URL := url |} calls s) ->
        In (Ok r2)
           (session {| MCV_BACKEND := web; MCV_OPENCV_URL := url |} calls s) ->
        success_data r1 = Some d1 ->
        success_data r2 = Some d2 ->
        d1 = d2)
  /\ (forall url args1 args2 w s,
        callMcvApi {| MCV_BACKEND := web; MCV_OPENCV_URL := url |}
          {| op := "cv.opencvTest"; args := args1 |} w s
        = callMcvApi {| MCV_BACKEND := web; MCV_OPENCV_URL := url |}
            {| op := "cv.opencvTest"; args := args2 |} w s)
  /\ (forall cv2 args1 args2,
        api_mcv cv2 {| op := "cv.opencvTest"; args := args1 |}
        = api_mcv cv2 {| op := "cv.opencvTest"; args := args2 |})
  /\ (forall url cv2 args1 args2 w1 w2 s1 s2,
        fetch w1 = python_target_fetch cv2 ->
        fetch w2 = python_target_fetch cv2 ->
        outcome (callMcvApi {| MCV_BACKEND := python; MCV_OPENCV_URL := url |}
                   {| op := "cv.opencvTest"; args := args1 |} w1 s1)
        = outcome (callMcvApi
                     {| MCV_BACKEND := python; MCV_OPENCV_URL := url |}
                     {| op := "cv.opencvTest"; args := args2 |} w2 s2)).
Proof.
  split; [|split; [|split; [|split]]].
  - intros url args1 args2 w1 w2 s1 s2 Hp.
    destruct (callMcvApi_web_test url
                {| op := "cv.opencvTest"; args := args1 |} w1 s1 eq_refl)
      as [H1 _].
    destruct (callMcvApi_web_test url
                {| op := "cv.opencvTest"; args := args2 |} w2 s2 eq_refl)
      as [H2 _].
    rewrite H1, H2, Hp. reflexivity.
  - intros url calls. apply session_success_data_unique.
  - intros. reflexivity.
  - intros. reflexivity.
  - intros url cv2 args1 args2 w1 w2 s1 s2 Hw1 Hw2.
    rewrite !callMcvApi_python. cbn [outcome]. rewrite Hw1, Hw2.
    reflexivity.
Qed.

Lemma opencvTest_depends_on_the_runtime_alone_witness :
  outcome (callMcvApi web_build opencvTest_request sample_web_world
             (set_cvPromise (Ok versioned_cvjs) initial_state))
  = outcome (callMcvApi web_build
               {| op := "cv.opencvTest"; args := JArr [JInt 1; JInt 2] |}
               versioned_web_world initial_state)
  /\ session web_build two_calls initial_state
     = [Ok (McvSuccess (sample_gray_data "opencv.js"));
        Ok (McvSuccess (sample_gray_data "opencv.js"))]
  /\ sample_gray_data "opencv.js" = sample_gray_data "opencv.js".
Proof.
  split; [|split; [reflexivity|]].
  - apply (proj1 opencvTest_depends_on_the_runtime_alone "/opencv.js"
             (JObj []) (JArr [JInt 1; JInt 2])
             sample_web_world versioned_web_world
             (set_cvPromise (Ok versioned_cvjs) initial_state) initial_state).
    reflexivity.
  - apply (proj1 (proj2 opencvTest_depends_on_the_runtime_alone) "/opencv.js"
             two_calls initial_state
             (McvSuccess (sample_gray_data "opencv.js"))
             (McvSuccess (sample_gray_data "opencv.js"))).
    + left. reflexivity.
    + right. left. reflexivity.
    + reflexivity.
    + reflexivity.
Defined.

(** C8 (as stated, refuted): the call path is not stateless.  The first
    cv.opencvTest call of the web backend writes the module-level variable
    [cvPromise], and a later call reads it: with a rejected promise cached,
    the same request in the same world fails where it otherwise succeeds. *)
Lemma callMcvApi_reads_and_writes_cvPromise :
  cvPromise initial_state = None /\
  cvPromise (final (callMcvApi web_build opencvTest_request sample_web_world
                      initial_state))
  = Some (Ok sample_cvjs) /\
  outcome (callMcvApi web_build opencvTest_request sample_web_world
             initial_state)
  = Ok (McvSuccess (sample_gray_data "opencv.js")) /\
  outcome (callMcvApi web_build opencvTest_request sample_web_world
             (set_cvPromise (Throw "Error: Failed to load /opencv.js")
                initial_state))
  = Ok (McvFailure "WEB_BACKEND_ERROR" "OpenCV.js call failed"
          (Some "Error: Failed to load /opencv.js")) /\
  ~ stateless (callMcvApi web_build).
Proof.
  repeat split.
  intros H.
  destruct (H opencvTest_request sample_web_world initial_state initial_state)
    as [Hfinal _].
  apply (f_equal cvPromise) in Hfinal. discriminate Hfinal.
Qed.

(** C8 (amended): the backend call path reads and writes exactly one
    module-level variable, [cvPromise], the memo of the OpenCV.js runtime.
    A call never changes the UI variables (activeMediaTab, mediaLoadState,
    mediaSearchQuery, selectedMedia, mediaLibrary) and its outcome does not
    depend on them; [cvPromise] is written once, by the first cv.opencvTest
    call of the web backend, and left alone ever after; the python backend
    and the unknown-op path neither read nor write any module variable. *)
Theorem callMcvApi_touches_only_cvPromise :
  forall cfg requestBody w s,
    let r := callMcvApi cfg requestBody w s in
    (activeMediaTab (final r) = activeMediaTab s /\
     mediaLoadState (final r) = mediaLoadState s /\
     mediaSearchQuery (final r) = mediaSearchQuery s /\
     selectedMedia (final r) = selectedMedia s /\
     mediaLibrary (final r) = mediaLibrary s)
    /\ (forall s', cvPromise s' = cvPromise s ->
          outcome (callMcvApi cfg requestBody w s') = outcome r)
    /\ (forall p, cvPromise s = Some p -> final r = s)
    /\ (MCV_BACKEND cfg = web -> op requestBody = "cv.opencvTest" ->
        cvPromise s = None ->
        final r = set_cvPromise (resolution w) s)
    /\ (MCV_BACKEND cfg = python \/ op requestBody <> "cv.opencvTest" ->
        final r = s /\
        forall s', outcome (callMcvApi cfg requestBody w s') = outcome r).
Proof.
  intros cfg requestBody w s r. subst r.
  split; [|split; [|split; [|split]]].
  - destruct cfg as [[|] url].
    + rewrite callMcvApi_python. cbn [final]. auto.
    + destruct (String.eqb_spec (op requestBody) "cv.opencvTest") as [E|E].
      * destruct (callMcvApi_web_test url requestBody w s E) as [_ Hf].
        rewrite Hf. apply after_runtime_ui.
      * rewrite (callMcvApi_web_other url requestBody w s E). cbn [final].
        auto.
  - intros s' Hs'. apply callMcvApi_reads_cvPromise_only. exact Hs'.
  - intros p Hp. exact (callMcvApi_keeps_cached cfg requestBody w s p Hp).
  - intros Hweb Hop Hnone. destruct cfg as [b url]. cbn in Hweb. subst b.
    destruct (callMcvApi_web_test url requestBody w s Hop) as [_ Hf].
    rewrite Hf. unfold after_runtime. rewrite Hnone. reflexivity.
  - intros Hcase. destruct cfg as [[|] url].
    + rewrite callMcvApi_python. cbn [final outcome]. split; [reflexivity|].
      intros s'. rewrite callMcvApi_python. reflexivity.
    + destruct Hcase as [Hpy|Hop]; [discriminate Hpy|].
      rewrite (callMcvApi_web_other url requestBody w s Hop).
      cbn [final outcome]. split; [reflexivity|].
      intros s'. rewrite (callMcvApi_web_other url requestBody w s' Hop).
      reflexivity.
Qed.

Lemma callMcvApi_touches_only_cvPromise_witness :
  final (callMcvApi web_build opencvTest_request sample_web_world
           initial_state)
  = set_cvPromise (resolution sample_web_world) initial_state
  /\ final (callMcvApi python_build opencvTest_request sample_python_world
              initial_state)
     = initial_state.
Proof.
  split.
  - apply (callMcvApi_touches_only_cvPromise web_build opencvTest_request
             sample_web_world initial_state); reflexivity.
  - apply (callMcvApi_touches_only_cvPromise python_build opencvTest_request
             sample_python_world initial_state).
    left. reflexivity.
Defined.

(* ================================================================== *)
(** ** The payload of cv.opencvTest *)






(* ================================================================== *)
(** ** Validation before solving (the specification's [solvePose]) *)

Lemma on_a_line_coplanar cs :
  (forall c, In c cs -> exists i, c = on_a_line i) ->
  coplanar (map world cs).
Proof.
  intros H. exists 0%Q, 0%Q, 1%Q, 0%Q. split.
  - intros [_ [_ H1]]. discriminate H1.
  - intros p Hp. apply in_map_iff in Hp. destruct Hp as [c [Hc Hin]].
    destruct (H c Hin) as [i Hi]. subst c p. cbn. ring.
Qed.

Lemma on_a_line_collinear cs :
  (forall c, In c cs -> exists i, c = on_a_line i) ->
  collinear (map pixel cs).
Proof.
  intros H. exists 1%Q, (-1)%Q, 0%Q. split.
  - intros [H1 _]. discriminate H1.
  - intros p Hp. apply in_map_iff in Hp. destruct Hp as [c [Hc Hin]].
    destruct (H c Hin) as [i Hi]. subst c p. cbn. ring.
Qed.

Lemma six_on_a_line_shape :
  forall c, In c six_on_a_line -> exists i, c = on_a_line i.
Proof.
  intros c Hc. cbn in Hc.
  repeat (destruct Hc as [Hc|Hc]; [eexists; symmetry; exact Hc|]).
  destruct Hc.
Qed.

(** C4: a correspondence set with fewer than 6 pairs is rejected with
    INSUFFICIENT_POINTS by validation, hence by [solvePose], which returns
    no pose; the check comes before the solver: the answer is the same
    whatever the numerical steps would do with the set. *)
Theorem too_few_points_are_rejected :
  forall tolerance estimate_pose cs,
    (List.length cs < 6)%nat ->
    validate tolerance cs = rejected INSUFFICIENT_POINTS /\
    solvePose tolerance estimate_pose cs = inl INSUFFICIENT_POINTS.
Proof.
  intros tolerance estimate_pose cs H.
  pose proof (validate_too_few tolerance cs H) as Hv.
  split; [exact Hv|].
  unfold solvePose. rewrite Hv. reflexivity.
Qed.

Lemma too_few_points_are_rejected_witness :
  validate 0 three_on_a_line = rejected INSUFFICIENT_POINTS /\
  solvePose 0 no_estimate three_on_a_line = inl INSUFFICIENT_POINTS.
Proof.
  apply (too_few_points_are_rejected 0%Q no_estimate three_on_a_line).
  simpl. lia.
Defined.

(** C5: for every correspondence set [solvePose] takes (at least 6 pairs,
    sections 4.2 and 6) whose world points are all coplanar and whose
    pixels are collinear, [solvePose] returns DEGENERATE_CONFIGURATION,
    whatever the tolerance of "near" and whatever the numerical steps would
    produce; the degeneracy check of section 4.1 holds of every such set
    that is not empty, whatever its size, and no such set gets a pose
    estimate. *)
Theorem degenerate_sets_are_rejected :
  forall tolerance estimate_pose cs,
    (0 <= tolerance)%Q ->
    coplanar (map world cs) ->
    collinear (map pixel cs) ->
    ((6 <= List.length cs)%nat ->
     validate tolerance cs = rejected DEGENERATE_CONFIGURATION /\
     solvePose tolerance estimate_pose cs = inl DEGENERATE_CONFIGURATION)
    /\ (cs <> [] ->
        near_coplanar tolerance (map world cs)
        && near_collinear tolerance (map pixel cs) = true)
    /\ (forall estimate, solvePose tolerance estimate_pose cs <> inr estimate).
Proof.
  intros tolerance estimate_pose cs Htol Hplane Hline.
  assert (Hcheck : cs <> [] ->
                   near_coplanar tolerance (map world cs)
                   && near_collinear tolerance (map pixel cs) = true).
  { intros Hne.
    rewrite (coplanar_is_near_coplanar tolerance (map world cs) Htol),
            (collinear_is_near_collinear tolerance (map pixel cs) Htol);
      try assumption; try reflexivity;
      intros Hnil; apply map_eq_nil in Hnil; contradiction. }
  assert (Hv : (6 <= List.length cs)%nat ->
               validate tolerance cs = rejected DEGENERATE_CONFIGURATION).
  { intros Hlen.
    assert (Hne : cs <> [])
      by (destruct cs; [cbn in Hlen; lia | discriminate]).
    unfold validate.
    destruct (Nat.ltb_spec (List.length cs) 6) as [Hlt|_]; [lia|].
    rewrite (Hcheck Hne). reflexivity. }
  split; [|split; [exact Hcheck|]].
  - intros Hlen. split; [exact (Hv Hlen)|].
    unfold solvePose. rewrite (Hv Hlen). reflexivity.
  - intros estimate. unfold solvePose.
    destruct (Nat.ltb_spec (List.length cs) 6) as [Hlt|Hge].
    + rewrite (validate_too_few tolerance cs Hlt). discriminate.
    + rewrite (Hv Hge). discriminate.
Qed.

Lemma degenerate_sets_are_rejected_witness :
  validate 0 six_on_a_line = rejected DEGENERATE_CONFIGURATION /\
  solvePose 0 no_estimate six_on_a_line = inl DEGENERATE_CONFIGURATION.
Proof.
  apply (degenerate_sets_are_rejected 0%Q no_estimate six_on_a_line).
  - discriminate.
  - apply on_a_line_coplanar, six_on_a_line_shape.
  - apply on_a_line_collinear, six_on_a_line_shape.
  - simpl. lia.
Defined.

(* ================================================================== *)
(** * Beyond the backend call path *)

(** ** The inlined bundle cannot close its script element *)

(** Copying stops at a match only, and a match is replaced by text that
    begins with [<]: a prefix without [<] found in the output was already
    in the input. *)
Lemma replace_keeps_prefix q :
  no_lt q = true ->
  forall s,
    starts_ci q (replace_all_ci script_close script_close_escaped 0 s) = true ->
    starts_ci q s = true.
Proof.
  induction q as [|p q' IH]; intros Hq s H; [reflexivity|].
  cbn [no_lt] in Hq. apply andb_prop in Hq. destruct Hq as [Hp Hq'].
  destruct s as [|c s']; [discriminate H|].
  cbn [replace_all_ci] in H.
  destruct (starts_ci script_close (String c s')) eqn:Hm.
  - cbn [script_close_escaped append starts_ci] in H.
    apply andb_prop in H. destruct H as [H _].
    rewrite H in Hp. discriminate Hp.
  - cbn [starts_ci] in H |- *. apply andb_prop in H. destruct H as [Hc Hrest].
    rewrite Hc. cbn [andb]. exact (IH Hq' s' Hrest).
Qed.

Lemma starts_ci_cons p q c s :
  starts_ci (String p q) (String c s) = eqb_ci p c && starts_ci q s.
Proof. reflexivity. Qed.

Lemma starts_script_close c t :
  starts_ci script_close (String c t) = eqb_ci "<" c && starts_ci "/script" t.
Proof. reflexivity. Qed.

Lemma replace_head_stays_clear c s :
  starts_ci script_close (String c s) = false ->
  starts_ci script_close
    (String c (replace_all_ci script_close script_close_escaped 0 s)) = false.
Proof.
  rewrite !starts_script_close. intros H.
  destruct (eqb_ci "<" c); [|reflexivity].
  rewrite andb_true_l in H |- *.
  destruct (starts_ci "/script"
              (replace_all_ci script_close script_close_escaped 0 s)) eqn:E;
    [|reflexivity].
  apply (replace_keeps_prefix "/script" eq_refl) in E. congruence.
Qed.

(** Inside and right after a replacement there is no match. *)
Lemma escaped_then_clear t :
  includes_ci script_close t = false ->
  includes_ci script_close (script_close_escaped ++ t) = false.
Proof.
  intros H. unfold script_close_escaped, backslash.
  cbn [append includes_ci]. rewrite H.
  unfold script_close. rewrite !starts_ci_cons. reflexivity.
Qed.

Lemma replace_all_clear s :
  forall skip,
    includes_ci script_close
      (replace_all_ci script_close script_close_escaped skip s) = false.
Proof.
  induction s as [|c s' IH]; intros skip; [reflexivity|].
  cbn [replace_all_ci]. destruct skip as [|k]; [|apply IH].
  destruct (starts_ci script_close (String c s')) eqn:Hm.
  - apply escaped_then_clear. apply IH.
  - cbn [includes_ci]. rewrite (replace_head_stays_clear c s' Hm), IH.
    reflexivity.
Qed.

(** No [</script], in any mix of cases, is left in the bundle that
    [buildCommonArtifacts] inlines into the page: the HTML parser cannot
    take a part of the bundle for the end of its script element. *)
Theorem safeInlineBundle_has_no_script_close :
  forall appBundle,
    includes_ci "</script" (safeInlineBundle appBundle) = false.
Proof.
  intros appBundle. apply (replace_all_clear appBundle 0).
Qed.

(** A bundle that holds no [</script] is inlined as it is. *)
Theorem safeInlineBundle_keeps_clean_bundles :
  forall appBundle,
    includes_ci "</script" appBundle = false ->
    safeInlineBundle appBundle = appBundle.
Proof.
  unfold safeInlineBundle.
  induction appBundle as [|c s IH]; intros H; [reflexivity|].
  cbn [includes_ci] in H. apply orb_false_elim in H. destruct H as [Hm Hrest].
  cbn [replace_all_ci]. rewrite Hm, (IH Hrest). reflexivity.
Qed.

Lemma safeInlineBundle_keeps_clean_bundles_witness :
  safeInlineBundle "console.log(1 < 2)" = "console.log(1 < 2)".
Proof.
  apply safeInlineBundle_keeps_clean_bundles. reflexivity.
Defined.

(** ** The script element of the web target *)

Lemma count_char_app c s t :
  count_char c (s ++ t) = (count_char c s + count_char c t)%nat.
Proof.
  induction s as [|a s IH]; [reflexivity|].
  cbn [append count_char]. rewrite IH. lia.
Qed.

Lemma escape_quotes_no_quote opencvUrl :
  count_char double_quote (escape_quotes opencvUrl) = 0%nat.
Proof.
  induction opencvUrl as [|c rest IH]; [reflexivity|].
  cbn [escape_quotes]. destruct (Ascii.eqb c double_quote) eqn:E.
  - rewrite count_char_app, IH. reflexivity.
  - cbn [count_char]. rewrite E, IH. reflexivity.
Qed.

(** Whatever the configured OpenCV URL holds, the script element written
    for the web target has two double quotes, those around the [src]
    value: the URL cannot end the attribute. *)
Theorem backendScripts_keeps_url_inside_attribute :
  forall opencvUrl,
    backendScripts web opencvUrl
    = "<script src=" ++ String double_quote (escape_quotes opencvUrl)
      ++ String double_quote "></script>"
    /\ count_char double_quote (escape_quotes opencvUrl) = 0%nat
    /\ count_char double_quote (backendScripts web opencvUrl) = 2%nat.
Proof.
  intros opencvUrl. split; [reflexivity|].
  split; [apply escape_quotes_no_quote|].
  unfold backendScripts.
  change ("<script src=" ++ String double_quote (escape_quotes opencvUrl)
          ++ String double_quote "></script>")
    with ("<script src=" ++ String double_quote
            (escape_quotes opencvUrl ++ String double_quote "></script>")).
  rewrite count_char_app. cbn [count_char].
  rewrite count_char_app, escape_quotes_no_quote. reflexivity.
Qed.

(** ** Options and positionals of the build script *)

Lemma startsWith_app p v : startsWith (p ++ v) p = true.
Proof.
  induction p as [|a p IH]; [reflexivity|].
  cbn [append startsWith]. rewrite Ascii.eqb_refl, IH. reflexivity.
Qed.

Lemma slice_from_app p v : slice_from (String.length p) (p ++ v) = v.
Proof.
  induction p as [|a p IH]; [reflexivity|]. exact IH.
Qed.

Lemma append_assoc (a b c : string) : (a ++ b) ++ c = a ++ (b ++ c).
Proof.
  induction a as [|x a IH]; [reflexivity|].
  cbn [append]. rewrite IH. reflexivity.
Qed.

Lemma startsWith_trans s p q :
  startsWith s (p ++ q) = true -> startsWith s p = true.
Proof.
  revert s. induction p as [|a p IH]; intros s H; [reflexivity|].
  destruct s as [|b s]; [discriminate H|].
  cbn [append startsWith] in *. apply andb_prop in H. destruct H as [Hab H].
  rewrite Hab, (IH s H). reflexivity.
Qed.

Lemma find_first {A} (f : A -> bool) pre x post :
  (forall a, In a pre -> f a = false) -> f x = true ->
  find f (pre ++ x :: post) = Some x.
Proof.
  intros Hpre Hx. induction pre as [|a pre IH]; cbn [app find].
  - rewrite Hx. reflexivity.
  - rewrite (Hpre a (or_introl eq_refl)). apply IH.
    intros b Hb. apply Hpre. right. exact Hb.
Qed.

Lemma find_nowhere {A} (f : A -> bool) xs :
  (forall a, In a xs -> f a = false) -> find f xs = None.
Proof.
  intros H. induction xs as [|a xs IH]; [reflexivity|].
  cbn [find]. rewrite (H a (or_introl eq_refl)). apply IH.
  intros b Hb. apply H. right. exact Hb.
Qed.

Lemma indexOf_first x pre post :
  ~ In x pre -> indexOf x (pre ++ x :: post) = Some (List.length pre).
Proof.
  intros H. induction pre as [|a pre IH]; cbn [app indexOf List.length].
  - rewrite String.eqb_refl. reflexivity.
  - destruct (String.eqb_spec a x) as [E|E].
    + exfalso. apply H. left. exact E.
    + rewrite IH; [reflexivity|]. intros Hin. apply H. right. exact Hin.
Qed.

Lemma indexOf_absent x xs : ~ In x xs -> indexOf x xs = None.
Proof.
  intros H. induction xs as [|a xs IH]; [reflexivity|].
  cbn [indexOf]. destruct (String.eqb_spec a x) as [E|E].
  - exfalso. apply H. left. exact E.
  - rewrite IH; [reflexivity|]. intros Hin. apply H. right. exact Hin.
Qed.

(** [--key=value] is found wherever it stands, and wins over a
    [--key value] pair, before or after it: the value is the text behind
    the first [--key=]. *)
Theorem parseOption_equals_form :
  forall key pre value post,
    (forall a, In a pre -> startsWith a ("--" ++ key ++ "=") = false) ->
    parseOption (pre ++ ("--" ++ key ++ "=" ++ value) :: post) key
    = Some value.
Proof.
  intros key pre value post Hpre. unfold parseOption.
  assert (E : "--" ++ key ++ "=" ++ value = ("--" ++ key ++ "=") ++ value).
  { change ("--" ++ key ++ "=" ++ value) with ("--" ++ (key ++ "=" ++ value)).
    change (("--" ++ key ++ "=") ++ value)
      with ("--" ++ ((key ++ "=") ++ value)).
    rewrite append_assoc. reflexivity. }
  rewrite E.
  rewrite (find_first _ pre _ post Hpre (startsWith_app _ _)).
  rewrite slice_from_app. reflexivity.
Qed.

Lemma parseOption_equals_form_witness :
  parseOption ["--dest"; "a"; "--dest=b"; "--dest=c"] "dest" = Some "b".
Proof.
  apply (parseOption_equals_form "dest" ["--dest"; "a"] "b" ["--dest=c"]).
  intros a [H|[H|[]]]; subst a; reflexivity.
Defined.

Lemma parseOption_flag_at key (pre post : list string) :
  (forall a, In a (pre ++ ("--" ++ key)%string :: post)%list ->
             startsWith a ("--" ++ key ++ "=") = false) ->
  ~ In ("--" ++ key) pre ->
  parseOption (pre ++ ("--" ++ key)%string :: post)%list key = hd_error post.
Proof.
  intros Hno Hpre. unfold parseOption.
  rewrite (find_nowhere _ _ Hno), (indexOf_first _ pre post Hpre).
  rewrite length_app.
  destruct post as [|v post]; cbn [List.length hd_error];
    match goal with
    | |- context [(?a <? ?b)%nat] => destruct (Nat.ltb_spec a b)
    end; try lia; try reflexivity.
  rewrite nth_error_app2 by lia.
  replace (List.length pre + 1 - List.length pre)%nat with 1%nat by lia.
  reflexivity.
Qed.

(** With no [--key=...] argument, the value is the argument after the
    first [--key]; a [--key] that stands last, or none at all, gives
    null. *)
Theorem parseOption_flag_form :
  forall key argv,
    (forall a, In a argv -> startsWith a ("--" ++ key ++ "=") = false) ->
    (forall pre post : list string,
       argv = (pre ++ ("--" ++ key)%string :: post)%list ->
       ~ In ("--" ++ key) pre ->
       parseOption argv key = hd_error post)
    /\ (~ In ("--" ++ key) argv -> parseOption argv key = None).
Proof.
  intros key argv Hno. split.
  - intros pre post E Hpre. subst argv.
    exact (parseOption_flag_at key pre post Hno Hpre).
  - intros Habsent. unfold parseOption.
    rewrite (find_nowhere _ _ Hno), (indexOf_absent _ _ Habsent). reflexivity.
Qed.

Lemma parseOption_flag_form_witness :
  parseOption ["x"; "--target"; "web"; "--target"; "python"] "target"
  = Some "web"
  /\ parseOption ["x"; "--target"] "target" = None.
Proof.
  split.
  - apply (proj1 (parseOption_flag_form "target"
                    ["x"; "--target"; "web"; "--target"; "python"]
                    ltac:(intros a [H|[H|[H|[H|[H|[]]]]]]; subst a; reflexivity))
             ["x"] ["web"; "--target"; "python"] eq_refl).
    intros [H|[]]. discriminate H.
  - apply (proj1 (parseOption_flag_form "target" ["x"; "--target"]
                    ltac:(intros a [H|[H|[]]]; subst a; reflexivity))
             ["x"] [] eq_refl).
    intros [H|[]]. discriminate H.
Defined.

Lemma parsePositionals_loop_plain known argv :
  forall skip x,
    In x (parsePositionals_loop skip argv known) ->
    In x argv /\ startsWith x "--" = false.
Proof.
  induction argv as [|arg rest IH]; intros skip x H; [destruct H|].
  cbn [parsePositionals_loop] in H.
  destruct skip.
  - destruct (IH _ _ H). split; [right|]; assumption.
  - destruct (startsWith arg "--") eqn:E.
    + match type of H with
      | In _ (if ?b then _ else _) => destruct b
      end; destruct (IH _ _ H); (split; [right|]; assumption).
    + destruct H as [H|H].
      * subst x. split; [left; reflexivity | exact E].
      * destruct (IH _ _ H). split; [right|]; assumption.
Qed.

(** The positionals are arguments of the command line that do not begin
    with [--]; a command line without options is all positionals. *)
Theorem parsePositionals_gives_plain_arguments :
  forall argv knownValueOptions,
    (forall x, In x (parsePositionals argv knownValueOptions) ->
               In x argv /\ startsWith x "--" = false)
    /\ ((forall a, In a argv -> startsWith a "--" = false) ->
        parsePositionals argv knownValueOptions = argv).
Proof.
  intros argv known. split.
  - intros x. apply parsePositionals_loop_plain.
  - unfold parsePositionals. induction argv as [|arg rest IH]; intros H;
      [reflexivity|].
    cbn [parsePositionals_loop]. rewrite (H arg (or_introl eq_refl)).
    rewrite IH; [reflexivity|]. intros a Ha. apply H. right. exact Ha.
Qed.

Lemma parsePositionals_gives_plain_arguments_witness :
  parsePositionals ["out"; "extra"] ["target"; "dest"; "config"]
  = ["out"; "extra"].
Proof.
  apply (parsePositionals_gives_plain_arguments ["out"; "extra"]
           ["target"; "dest"; "config"]).
  intros a [H|[H|[]]]; subst a; reflexivity.
Defined.

Lemma startsWith_longer s c t : startsWith s (s ++ String c t) = false.
Proof.
  induction s as [|a s IH]; [reflexivity|].
  cbn [append startsWith]. rewrite IH. apply andb_false_r.
Qed.

Lemma parsePositionals_loop_plain_prefix known (pre rest : list string) :
  (forall a, In a pre -> startsWith a "--" = false) ->
  parsePositionals_loop false (pre ++ rest) known
  = (pre ++ parsePositionals_loop false rest known)%list.
Proof.
  intros H. induction pre as [|a pre IH]; [reflexivity|].
  cbn [app parsePositionals_loop]. rewrite (H a (or_introl eq_refl)).
  rewrite IH; [reflexivity|]. intros b Hb. apply H. right. exact Hb.
Qed.

(** An option that takes a value, given as [--key value] after plain
    arguments: [parseOption] returns the value and [parsePositionals]
    passes over both words, so the value is not counted as a positional. *)
Theorem known_option_value_is_not_positional :
  forall key knownValueOptions (pre : list string) value (rest : list string),
    existsb (String.eqb key) knownValueOptions = true ->
    includes ("--" ++ key) "=" = false ->
    (forall a, In a pre -> startsWith a "--" = false) ->
    (forall a, In a (value :: rest) ->
               startsWith a ("--" ++ key ++ "=") = false) ->
    parseOption (pre ++ ("--" ++ key)%string :: value :: rest)%list key
    = Some value
    /\ parsePositionals (pre ++ ("--" ++ key)%string :: value :: rest)%list
         knownValueOptions
       = (pre ++ parsePositionals rest knownValueOptions)%list.
Proof.
  intros key known pre value rest Hknown Hplain Hpre Hrest. split.
  - rewrite parseOption_flag_at; [reflexivity| |].
    + intros a Ha. apply in_app_or in Ha. destruct Ha as [Ha|[Ha|Ha]].
      * destruct (startsWith a ("--" ++ key ++ "=")) eqn:E; [|reflexivity].
        change ("--" ++ key ++ "=") with ("--" ++ (key ++ "=")) in E.
        apply startsWith_trans in E. rewrite (Hpre a Ha) in E. discriminate E.
      * subst a.
        change ("--" ++ key ++ "=") with ("--" ++ (key ++ "=")).
        rewrite <- append_assoc. apply startsWith_longer.
      * exact (Hrest a Ha).
    + intros Hin. apply Hpre in Hin. discriminate Hin.
  - unfold parsePositionals.
    rewrite (parsePositionals_loop_plain_prefix known pre _ Hpre).
    cbn [parsePositionals_loop]. change (startsWith ("--" ++ key) "--") with true.
    cbn iota. rewrite Hplain. cbn [negb andb slice_from append].
    rewrite Hknown. reflexivity.
Qed.

Lemma known_option_value_is_not_positional_witness :
  parseOption ["out"; "--config"; "my.json"; "more"] "config" = Some "my.json"
  /\ parsePositionals ["out"; "--config"; "my.json"; "more"]
       ["target"; "dest"; "config"]
     = ["out"; "more"].
Proof.
  apply (known_option_value_is_not_positional "config"
           ["target"; "dest"; "config"] ["out"] "my.json" ["more"]).
  - reflexivity.
  - reflexivity.
  - intros a [H|[]]; subst a; reflexivity.
  - intros a [H|[H|[]]]; subst a; reflexivity.
Defined.

(* ================================================================== *)
(** ** The Flask views on raw request bodies *)

Lemma request_payload_object fields :
  request_payload (Some (JObj fields)) = JObj fields.
Proof. destruct fields; reflexivity. Qed.

Lemma py_or_empty_object fields : py_or_empty (JObj fields) = JObj fields.
Proof. destruct fields; reflexivity. Qed.

Lemma py_or_empty_cases j :
  py_or_empty j = j /\ py_truthy j = true \/
  py_or_empty j = JObj [] /\ py_truthy j = false.
Proof.
  unfold py_or_empty. destruct (py_truthy j); [left | right]; auto.
Qed.

Lemma py_get_object key d : is_object d = true -> exists v, py_get key d = Ok v.
Proof. destruct d; try discriminate. intros _. eexists. reflexivity. Qed.

Lemma py_get_other key d :
  is_object d = false ->
  py_get key d = Throw "AttributeError: object has no attribute 'get'".
Proof. destruct d; try reflexivity. discriminate. Qed.

(** The typed request of the model is what the view makes of a JSON
    object: on every object body whose [op] is a string, [api_mcv] on the
    body agrees with [api_mcv] on the request read off it, a missing [args]
    counting as null. *)
Theorem api_mcv_view_on_requests :
  forall py_str cv2 fields o,
    (forall s, py_str (JStr s) = s) ->
    assoc "op" fields = Some (JStr o) ->
    api_mcv_view py_str cv2 (Some (JObj fields))
    = api_mcv cv2
        {| op := o;
           args := match assoc "args" fields with
                   | Some v => v
                   | None => JNull
                   end |}.
Proof.
  intros py_str cv2 fields o Hstr Hop.
  unfold api_mcv_view. rewrite request_payload_object.
  cbn [py_get py_eq_str]. rewrite Hop. cbn [py_eq_str].
  set (requestBody := {| op := o;
                         args := match assoc "args" fields with
                                 | Some v => v
                                 | None => JNull
                                 end |}).
  destruct (String.eqb_spec o "cv.opencvTest") as [E|E].
  - rewrite (api_mcv_test cv2 requestBody E). reflexivity.
  - rewrite (api_mcv_other cv2 requestBody E). cbn [op requestBody].
    rewrite Hstr. reflexivity.
Qed.

Lemma api_mcv_view_on_requests_witness :
  api_mcv_view (fun j => match j with JStr s => s | _ => "None" end)
    sample_cv2
    (Some (JObj [("op", JStr "cv.opencvTest"); ("args", JObj [])]))
  = api_mcv sample_cv2 opencvTest_request.
Proof.
  apply (api_mcv_view_on_requests
           (fun j => match j with JStr s => s | _ => "None" end)
           sample_cv2
           [("op", JStr "cv.opencvTest"); ("args", JObj [])]
           "cv.opencvTest").
  - reflexivity.
  - reflexivity.
Defined.

(** What [api_mcv] does with the other bodies: a body that is not JSON, or
    is JSON null, false, 0, an empty string, array or object, counts as
    [{}] and gets the 400 UNKNOWN_OP reply; any object whose [op] is not
    the string "cv.opencvTest" gets it too; a non-empty array or string, a
    non-zero number or true makes the view raise, which Flask answers with
    a 500 page. *)
Theorem api_mcv_view_on_other_bodies :
  forall py_str cv2 body,
    (is_object (request_payload body) = true ->
     py_get "op" (request_payload body) <> Ok (JStr "cv.opencvTest") ->
     exists operation,
       py_get "op" (request_payload body) = Ok operation /\
       api_mcv_view py_str cv2 body
       = Ok (McvFailure "UNKNOWN_OP"
               ("Unsupported operation: " ++ py_str operation) None, 400))
    /\ (is_object (request_payload body) = false ->
        (exists j, body = Some j /\ py_truthy j = true /\ is_object j = false)
        /\ (exists e, api_mcv_view py_str cv2 body = Throw e)
        /\ status (flask_response (api_mcv_view py_str cv2 body)) = 500).
Proof.
  intros py_str cv2 body. split.
  - intros Hobj Hop. unfold api_mcv_view.
    destruct (request_payload body) as [| | | | |fields]; try discriminate Hobj.
    cbn [py_get] in *.
    set (operation := match assoc "op" fields with
                      | Some v => v | None => JNull end) in *.
    exists operation. split; [reflexivity|].
    destruct (py_eq_str operation "cv.opencvTest") eqn:E; [|reflexivity].
    exfalso. apply Hop. destruct operation; try discriminate E.
    cbn [py_eq_str] in E. apply String.eqb_eq in E. subst. reflexivity.
  - intros Hobj. split; [|split].
    + destruct body as [j|]; [|discriminate Hobj].
      exists j. cbn [request_payload] in Hobj.
      destruct (py_or_empty_cases j) as [[E Ht]|[E Ht]]; rewrite E in Hobj;
        [|discriminate Hobj].
      auto.
    + unfold api_mcv_view. rewrite (py_get_other _ _ Hobj). eexists.
      reflexivity.
    + unfold api_mcv_view. rewrite (py_get_other _ _ Hobj). reflexivity.
Qed.

Lemma api_mcv_view_on_other_bodies_witness :
  status (flask_response
            (api_mcv_view (fun _ => "None") sample_cv2
               (Some (JArr [JStr "cv.opencvTest"])))) = 500.
Proof.
  apply (api_mcv_view_on_other_bodies (fun _ => "None") sample_cv2
           (Some (JArr [JStr "cv.opencvTest"]))).
  reflexivity.
Defined.

(** ** The pipeline endpoint *)

Section PipelineEndpoint.

Variable py_strip : string -> string.
Variable Image : Type.
Variable b64decode : string -> result string.
Variable imdecode : string -> result (option Image).
Variable detect_lines : Image -> result json.

#[local] Abbreviation pipeline :=
  (api_mcv_pipeline py_strip Image b64decode imdecode detect_lines).
#[local] Abbreviation decode :=
  (decode_image_data_url_to_bgr Image b64decode imdecode).

(** The endpoint on a body whose [args] is an object. *)
Lemma api_mcv_pipeline_on_args fields afields :
  assoc "args" fields = Some (JObj afields) ->
  let image_data_url :=
    match assoc "image_data_url" afields with Some v => v | None => JNull end in
  pipeline (Some (JObj fields))
  = if match image_data_url with
       | JStr s => (py_strip s =? "")%string
       | _ => true
       end
    then Ok (McvFailure "INVALID_ARGS" "image_data_url is required" None, 400)
    else match decode image_data_url with
         | Throw exc => Ok (McvFailure "PIPELINE_ERROR" exc None, 400)
         | Ok image_bgr =>
             match detect_lines image_bgr with
             | Throw exc => Ok (McvFailure "PIPELINE_ERROR" exc None, 400)
             | Ok result => Ok (McvSuccess result, 200)
             end
         end.
Proof.
  intros Hargs image_data_url. unfold api_mcv_pipeline, run_pipeline.
  rewrite request_payload_object. cbn [py_get]. rewrite Hargs.
  rewrite py_or_empty_object. cbn [py_get]. fold image_data_url.
  destruct (match image_data_url with
            | JStr s => (py_strip s =? "")%string
            | _ => true
            end); [reflexivity|].
  destruct (decode image_data_url); reflexivity.
Qed.

(** Every reply of the pipeline endpoint is an envelope: 200 with a
    success, or 400 with the failure INVALID_ARGS or PIPELINE_ERROR,
    whatever the decoding and the line detection raise.  The view itself
    raises in one case only: the body, or its [args], is a non-empty
    array or string, a non-zero number or true. *)
Theorem api_mcv_pipeline_replies :
  forall body,
    match pipeline body with
    | Ok (reply, code) =>
        is_envelope reply = true /\
        (code = 200 /\ is_success reply = true \/
         code = 400 /\ (error_code reply = Some "INVALID_ARGS" \/
                        error_code reply = Some "PIPELINE_ERROR"))
    | Throw _ =>
        is_object (request_payload body) = false \/
        exists a,
          py_get "args" (request_payload body) = Ok a /\
          py_truthy a = true /\ is_object a = false
    end.
Proof.
  intros body. unfold api_mcv_pipeline.
  destruct (is_object (request_payload body)) eqn:Hobj.
  2:{ rewrite (py_get_other _ _ Hobj). left. reflexivity. }
  destruct (py_get_object "args" _ Hobj) as [a Ha]. rewrite Ha.
  destruct (is_object (py_or_empty a)) eqn:Hargs.
  2:{ rewrite (py_get_other _ _ Hargs). right. exists a.
      destruct (py_or_empty_cases a) as [[E Ht]|[E Ht]]; rewrite E in Hargs;
        [auto | discriminate Hargs]. }
  destruct (py_get_object "image_data_url" _ Hargs) as [v Hv]. rewrite Hv.
  destruct (match v with
            | JStr s => (py_strip s =? "")%string
            | _ => true
            end).
  - split; [reflexivity|]. right. auto.
  - destruct (run_pipeline Image b64decode imdecode detect_lines
                (py_or_empty a)) as [result|exc].
    + split; [reflexivity|]. left. auto.
    + split; [reflexivity|]. right. auto.
Qed.

(** A request is turned down before any image work: a missing, non-string
    or blank [image_data_url] gives INVALID_ARGS; a string without a comma,
    or whose part before the first comma lacks [;base64], gives
    PIPELINE_ERROR with the decoder's message; so do a payload that is not
    base64 and bytes that are no image. *)
Theorem api_mcv_pipeline_turns_down_bad_data_urls :
  forall fields afields image_data_url,
    assoc "args" fields = Some (JObj afields) ->
    image_data_url
    = match assoc "image_data_url" afields with Some v => v | None => JNull end ->
    ((forall s, image_data_url = JStr s -> py_strip s = "") ->
     pipeline (Some (JObj fields))
     = Ok (McvFailure "INVALID_ARGS" "image_data_url is required" None, 400))
    /\ (forall s,
          image_data_url = JStr s -> py_strip s <> "" ->
          (split_at_comma s = None ->
           pipeline (Some (JObj fields))
           = Ok (McvFailure "PIPELINE_ERROR" "Invalid image_data_url" None,
                 400))
          /\ (forall header encoded,
                split_at_comma s = Some (header, encoded) ->
                (includes header ";base64" = false ->
                 pipeline (Some (JObj fields))
                 = Ok (McvFailure "PIPELINE_ERROR"
                         "image_data_url must be base64 encoded" None, 400))
                /\ (includes header ";base64" = true ->
                    (forall e, b64decode encoded = Throw e ->
                     pipeline (Some (JObj fields))
                     = Ok (McvFailure "PIPELINE_ERROR"
                             "Invalid image_data_url base64 payload" None,
                           400))
                    /\ (forall raw_bytes,
                          b64decode encoded = Ok raw_bytes ->
                          imdecode raw_bytes = Ok None ->
                          pipeline (Some (JObj fields))
                          = Ok (McvFailure "PIPELINE_ERROR"
                                  "Could not decode image data" None, 400))))).
Proof.
  intros fields afields image_data_url Hargs Hurl.
  pose proof (api_mcv_pipeline_on_args fields afields Hargs) as Hp.
  cbn zeta in Hp. rewrite <- Hurl in Hp. rewrite Hp. clear Hp.
  split.
  - intros Hblank. destruct image_data_url; try reflexivity.
    rewrite (Hblank s eq_refl). reflexivity.
  - intros s Hs Hne. rewrite Hs.
    apply String.eqb_neq in Hne. rewrite Hne.
    unfold decode_image_data_url_to_bgr.
    split.
    + intros Hsplit. rewrite Hsplit. reflexivity.
    + intros header encoded Hsplit. rewrite Hsplit. split.
      * intros Hh. rewrite Hh. reflexivity.
      * intros Hh. rewrite Hh. cbn [negb]. split.
        -- intros e He. rewrite He. reflexivity.
        -- intros raw_bytes Hb Hi. rewrite Hb, Hi. reflexivity.
Qed.

End PipelineEndpoint.

Lemma api_mcv_pipeline_turns_down_bad_data_urls_witness :
  api_mcv_pipeline (fun s => s) unit (fun _ => Throw "binascii.Error")
    (fun _ => Ok None) (fun _ => Ok (JObj []))
    (Some (JObj [("args", JObj [("image_data_url", JStr "no comma here")])]))
  = Ok (McvFailure "PIPELINE_ERROR" "Invalid image_data_url" None, 400)
  /\ api_mcv_pipeline (fun s => s) unit (fun _ => Throw "binascii.Error")
       (fun _ => Ok None) (fun _ => Ok (JObj []))
       (Some (JObj [("args",
                     JObj [("image_data_url", JStr "data:image/png,AAAA")])]))
     = Ok (McvFailure "PIPELINE_ERROR" "image_data_url must be base64 encoded"
             None, 400).
Proof.
  split.
  - destruct (api_mcv_pipeline_turns_down_bad_data_urls (fun s => s) unit
                (fun _ => Throw "binascii.Error") (fun _ => Ok None)
                (fun _ => Ok (JObj []))
                [("args", JObj [("image_data_url", JStr "no comma here")])]
                [("image_data_url", JStr "no comma here")]
                (JStr "no comma here") eq_refl eq_refl) as [_ H].
    destruct (H "no comma here" eq_refl ltac:(discriminate)) as [H1 _].
    apply H1. reflexivity.
  - destruct (api_mcv_pipeline_turns_down_bad_data_urls (fun s => s) unit
                (fun _ => Throw "binascii.Error") (fun _ => Ok None)
                (fun _ => Ok (JObj []))
                [("args",
                  JObj [("image_data_url", JStr "data:image/png,AAAA")])]
                [("image_data_url", JStr "data:image/png,AAAA")]
                (JStr "data:image/png,AAAA") eq_refl eq_refl) as [_ H].
    destruct (H "data:image/png,AAAA" eq_refl ltac:(discriminate)) as [_ H2].
    destruct (H2 "data:image/png" "AAAA" eq_refl) as [H3 _].
    apply H3. reflexivity.
Defined.

(* ================================================================== *)
(** ** The media library *)

Section NormalizeEntries.

Context {A : Type}.
Variable entry_of : json -> option A.

#[local] Abbreviation kept := (kept_entry entry_of).

#[local] Abbreviation step :=
  (fun (output : list (string * A)) (id_entry : string * json) =>
     match entry_of (snd id_entry) with
     | None => output
     | Some e => assign (fst id_entry) e output
     end).

Lemma set_property_in id (e : A) output k v :
  In (k, v) (set_property id e output) ->
  (k = id /\ v = e) \/ In (k, v) output.
Proof.
  induction output as [|[k' v'] rest IH]; cbn [set_property].
  - intros [H|[]]. inversion H. auto.
  - destruct (String.eqb_spec k' id) as [E|E].
    + intros [H|H]; [inversion H; subst; auto | right; right; exact H].
    + intros [H|H]; [right; left; exact H|].
      destruct (IH H) as [H'|H']; [left; exact H' | right; right; exact H'].
Qed.

Lemma set_property_keys id (e : A) output :
  map fst (set_property id e output)
  = if existsb (String.eqb id) (map fst output)
    then map fst output
    else (map fst output ++ [id])%list.
Proof.
  induction output as [|[k v] rest IH]; [reflexivity|].
  cbn [set_property map fst existsb].
  rewrite (String.eqb_sym id k).
  destruct (String.eqb k id); cbn [orb map fst]; [reflexivity|].
  rewrite IH. destruct (existsb (String.eqb id) (map fst rest)); reflexivity.
Qed.

Lemma existsb_eqb_in id keys :
  existsb (String.eqb id) keys = true <-> In id keys.
Proof.
  rewrite existsb_exists. split.
  - intros [x [Hx E]]. apply String.eqb_eq in E. subst. exact Hx.
  - intros H. exists id. split; [exact H | apply String.eqb_refl].
Qed.

Lemma set_property_nodup id (e : A) output :
  NoDup (map fst output) -> NoDup (map fst (set_property id e output)).
Proof.
  intros H. rewrite set_property_keys.
  destruct (existsb (String.eqb id) (map fst output)) eqn:E; [exact H|].
  apply NoDup_app; [exact H | repeat constructor; intros [] |].
  intros x Hx [Hid|[]]. subst x.
  apply existsb_eqb_in in Hx. congruence.
Qed.

Lemma set_property_fresh id (e : A) output :
  ~ In id (map fst output) ->
  set_property id e output = (output ++ [(id, e)])%list.
Proof.
  induction output as [|[k v] rest IH]; intros H; [reflexivity|].
  cbn [set_property app]. cbn [map fst] in H.
  destruct (String.eqb_spec k id) as [E|E].
  - exfalso. apply H. left. exact E.
  - rewrite IH; [reflexivity|]. intros Hin. apply H. right. exact Hin.
Qed.

(** The loop keeps the keys distinct, never stores [__proto__], and
    stores only what [entry_of] made of an entry of the input. *)
Lemma normalize_loop_invariant entries :
  forall output,
    NoDup (map fst output) ->
    (forall id e, In (id, e) output -> id <> "__proto__" /\
                    exists j, entry_of j = Some e) ->
    NoDup (map fst (fold_left step entries output)) /\
    (forall id e, In (id, e) (fold_left step entries output) ->
                  id <> "__proto__" /\ exists j, entry_of j = Some e).
Proof.
  induction entries as [|[id j] rest IH]; intros output Hnd Hall;
    [split; assumption|].
  cbn [fold_left fst snd]. apply IH.
  - destruct (entry_of j); [|exact Hnd]. unfold assign.
    destruct (String.eqb id "__proto__"); [exact Hnd|].
    apply set_property_nodup. exact Hnd.
  - intros k v Hin. destruct (entry_of j) as [e|] eqn:Ej; [|exact (Hall k v Hin)].
    unfold assign in Hin.
    destruct (String.eqb_spec id "__proto__") as [E|E]; [exact (Hall k v Hin)|].
    apply set_property_in in Hin. destruct Hin as [[Hk Hv]|Hin].
    + subst k v. split; [exact E|]. exists j. exact Ej.
    + exact (Hall k v Hin).
Qed.

(** On entries with distinct keys, the loop is a filter that keeps the
    order. *)
Lemma normalize_loop_filter entries :
  forall output,
    NoDup (map fst output ++ map fst entries) ->
    fold_left step entries output = (output ++ flat_map kept entries)%list.
Proof.
  induction entries as [|[id j] rest IH]; intros output Hnd.
  - cbn. rewrite app_nil_r. reflexivity.
  - cbn [fold_left flat_map fst snd]. unfold kept_entry at 1. cbn [fst snd].
    cbn [map fst] in Hnd.
    assert (Hfresh : ~ In id (map fst output)).
    { intros Hin. apply NoDup_remove_2 in Hnd. apply Hnd.
      apply in_or_app. left. exact Hin. }
    assert (Hrest : NoDup (map fst output ++ map fst rest)).
    { apply NoDup_remove_1 in Hnd. exact Hnd. }
    unfold assign.
    destruct (entry_of j) as [e|];
      [destruct (String.eqb id "__proto__")|];
      try (destruct (String.eqb id "__proto__"); cbn [app]; apply IH;
           exact Hrest); try (cbn [app]; apply IH; exact Hrest).
    rewrite (set_property_fresh id e output Hfresh).
    rewrite IH.
    + rewrite <- app_assoc. reflexivity.
    + rewrite map_app. cbn [map fst]. rewrite <- app_assoc. exact Hnd.
Qed.

End NormalizeEntries.

Lemma video_entry_well_formed trim j v :
  video_entry trim j = Some v ->
  video_name v <> "" /\ video_url v <> "" /\ youtube_id v <> Some "".
Proof.
  unfold video_entry. destruct (negb (isRecord j)); [discriminate|].
  destruct (String.eqb_spec (trimmed_field trim "name" j) "") as [En|En];
    [discriminate|].
  destruct (String.eqb_spec (trimmed_field trim "url" j) "") as [Eu|Eu];
    [discriminate|].
  cbn [orb]. intros H. inversion H; subst v; clear H. cbn.
  repeat split; try assumption.
  destruct (field "youtube_id" j) as [[| | |s| |]|]; try discriminate.
  destruct (String.eqb_spec (trim s) "") as [E|E]; [discriminate|].
  intros H. inversion H. contradiction.
Qed.

Lemma image_entry_well_formed trim j i :
  image_entry trim j = Some i -> image_name i <> "" /\ image_url i <> "".
Proof.
  unfold image_entry. destruct (negb (isRecord j)); [discriminate|].
  destruct (String.eqb_spec (trimmed_field trim "name" j) "") as [En|En];
    [discriminate|].
  destruct (String.eqb_spec (trimmed_field trim "url" j) "") as [Eu|Eu];
    [discriminate|].
  cbn [orb]. intros H. inversion H; subst i. cbn. auto.
Qed.

Lemma normalize_entries_invariant {A} (entry_of : json -> option A) entries :
  NoDup (map fst (normalize_entries entry_of entries)) /\
  (forall id e, In (id, e) (normalize_entries entry_of entries) ->
                id <> "__proto__" /\ exists j, entry_of j = Some e).
Proof.
  apply normalize_loop_invariant; [constructor | intros id e []].
Qed.

Lemma parseMediaLibrary_well_formed trim payload library :
  parseMediaLibrary trim payload = Some library ->
  well_formed_library library.
Proof.
  unfold well_formed_library, parseMediaLibrary.
  destruct (negb (isRecord payload)); [discriminate|].
  intros H. inversion H; subst library; clear H. cbn [videos images].
  assert (Hv : NoDup (map fst (normalizeVideos trim (field "videos" payload)))
               /\ Forall well_formed_video
                    (normalizeVideos trim (field "videos" payload))).
  { unfold normalizeVideos.
    destruct (field "videos" payload) as [[| | | | |entries]|];
      try (split; constructor).
    destruct (normalize_entries_invariant (video_entry trim) entries)
      as [Hnd Hall].
    split; [exact Hnd|]. apply Forall_forall. intros [id v] Hin.
    destruct (Hall id v Hin) as [Hid [j Hj]].
    split; [exact Hid|]. exact (video_entry_well_formed trim j v Hj). }
  assert (Hi : NoDup (map fst (normalizeImages trim (field "images" payload)))
               /\ Forall well_formed_image
                    (normalizeImages trim (field "images" payload))).
  { unfold normalizeImages.
    destruct (field "images" payload) as [[| | | | |entries]|];
      try (split; constructor).
    destruct (normalize_entries_invariant (image_entry trim) entries)
      as [Hnd Hall].
    split; [exact Hnd|]. apply Forall_forall. intros [id i] Hin.
    destruct (Hall id i Hin) as [Hid [j Hj]].
    split; [exact Hid|]. exact (image_entry_well_formed trim j i Hj). }
  destruct Hv, Hi. auto.
Qed.


(** Whatever JSON the Media API returns, a library that
    [parseMediaLibrary] accepts is well formed: ids are distinct and none
    is [__proto__], every video and image has a non-empty name and a
    non-empty url, and a youtube_id, when present, is not empty. *)
Theorem parseMediaLibrary_gives_well_formed_libraries :
  forall trim payload library,
    parseMediaLibrary trim payload = Some library ->
    NoDup (map fst (videos library)) /\
    NoDup (map fst (images library)) /\
    Forall well_formed_video (videos library) /\
    Forall well_formed_image (images library).
Proof.
  intros trim payload library H.
  exact (parseMediaLibrary_well_formed trim payload library H).
Qed.

Lemma parseMediaLibrary_gives_well_formed_libraries_witness :
  exists library,
    parseMediaLibrary (fun s => s) sample_media_payload = Some library /\
    NoDup (map fst (videos library)) /\
    NoDup (map fst (images library)) /\
    Forall well_formed_video (videos library) /\
    Forall well_formed_image (images library).
Proof.
  eexists. split; [reflexivity|].
  apply (parseMediaLibrary_gives_well_formed_libraries (fun s => s)
           sample_media_payload).
  reflexivity.
Defined.



(** [findVideoByYoutubeId] returns a video of the library whose id or
    youtube_id is the id asked for, the first such in the library's order;
    it returns null exactly when the library has none. *)
Theorem findVideoByYoutubeId_finds_the_first_match :
  forall s youtubeId,
    let matches := fun id_item : string * MediaVideoEntry =>
      fst id_item = youtubeId \/ youtube_id (snd id_item) = Some youtubeId in
    match findVideoByYoutubeId s youtubeId with
    | Some found =>
        matches found /\
        exists before after,
          videos (mediaLibrary s) = (before ++ found :: after)%list /\
          forall other, In other before -> ~ matches other
    | None => forall other, In other (videos (mediaLibrary s)) -> ~ matches other
    end.
Proof.
  intros s youtubeId matches. unfold findVideoByYoutubeId.
  set (test := fun id_item : string * MediaVideoEntry =>
         String.eqb (fst id_item) youtubeId
         || match youtube_id (snd id_item) with
            | Some y => String.eqb y youtubeId
            | None => false
            end).
  assert (Htest : forall x, test x = true <-> matches x).
  { intros [id item]. unfold test, matches. cbn [fst snd].
    rewrite orb_true_iff, String.eqb_eq.
    destruct (youtube_id item) as [y|].
    - rewrite String.eqb_eq. split; intros [H|H]; auto.
      + right. subst. reflexivity.
      + right. inversion H. reflexivity.
    - split; intros [H|H]; auto; discriminate H. }
  induction (videos (mediaLibrary s)) as [|x rest IH]; cbn [find].
  - intros other [].
  - destruct (test x) eqn:E.
    + split; [apply Htest; exact E|]. exists [], rest. split; [reflexivity|].
      intros other [].
    + destruct (find test rest) as [found|].
      * destruct IH as [Hm [before [after [Hsplit Hbefore]]]].
        split; [exact Hm|]. exists (x :: before), after.
        split; [rewrite Hsplit; reflexivity|].
        intros other [Ho|Ho]; [subst other | exact (Hbefore other Ho)].
        intros Hx. apply Htest in Hx. congruence.
      * intros other [Ho|Ho]; [subst other | exact (IH other Ho)].
        intros Hx. apply Htest in Hx. congruence.
Qed.

Lemma findVideoByYoutubeId_finds_the_first_match_witness :
  exists found,
    findVideoByYoutubeId page_after_load "dQw4w9WgXcQ" = Some found /\
    (fst found = "dQw4w9WgXcQ" \/
     youtube_id (snd found) = Some "dQw4w9WgXcQ").
Proof.
  pose proof (findVideoByYoutubeId_finds_the_first_match page_after_load
                "dQw4w9WgXcQ") as H.
  cbv zeta in H.
  destruct (findVideoByYoutubeId page_after_load "dQw4w9WgXcQ") as [found|]
    eqn:E; [|discriminate E].
  exists found. split; [reflexivity | exact (proj1 H)].
Defined.

(* ================================================================== *)
(** ** YouTube timestamps *)

Lemma all_digits_uint d : all_digits (NilEmpty.string_of_uint d) = true.
Proof. induction d; cbn [NilEmpty.string_of_uint all_digits]; auto. Qed.

(** A number that is not negative prints as a non-empty run of digits that
    reads back as the number. *)
Lemma string_of_Z_digits n :
  0 <= n ->
  exists d, string_of_Z n = NilEmpty.string_of_uint d /\
            Z.of_uint d = n /\ d <> Decimal.Nil.
Proof.
  intros Hn. unfold string_of_Z. pose proof (DecimalZ.of_to n) as Hrt.
  destruct n as [|p|p]; [| |lia].
  - exists (Decimal.D0 Decimal.Nil). repeat split. discriminate.
  - cbn [Z.to_int NilZero.string_of_int] in *. cbn [Z.of_int] in Hrt.
    exists (Pos.to_uint p). split; [|split].
    + destruct (Pos.to_uint p); [discriminate Hrt | reflexivity ..].
    + exact Hrt.
    + intros E. rewrite E in Hrt. discriminate Hrt.
Qed.

Lemma string_of_Z_all_digits n : 0 <= n -> all_digits (string_of_Z n) = true.
Proof.
  intros Hn. destruct (string_of_Z_digits n Hn) as [d [E _]].
  rewrite E. apply all_digits_uint.
Qed.

Lemma string_of_Z_not_empty n : 0 <= n -> string_of_Z n <> "".
Proof.
  intros Hn. destruct (string_of_Z_digits n Hn) as [d [E [_ Hd]]].
  rewrite E. destruct d; try discriminate. contradiction.
Qed.

Lemma number_of_string_of_Z n : 0 <= n -> number_of_digits (string_of_Z n) = n.
Proof.
  intros Hn. destruct (string_of_Z_digits n Hn) as [d [E [Hv _]]].
  unfold number_of_digits. rewrite E, NilEmpty.usu. exact Hv.
Qed.

Lemma number_of_digits_nonneg s : 0 <= number_of_digits s.
Proof.
  unfold number_of_digits. destruct (NilEmpty.uint_of_string s); [|lia].
  unfold Z.of_uint. apply N2Z.is_nonneg.
Qed.

Lemma span_digits_app ds rest :
  all_digits ds = true ->
  match rest with String c _ => is_digit c = false | EmptyString => True end ->
  span_digits (ds ++ rest) = (ds, rest).
Proof.
  intros Hds Hrest. induction ds as [|d ds IH].
  - destruct rest as [|c r]; [reflexivity|]. cbn [append span_digits].
    rewrite Hrest. reflexivity.
  - cbn [all_digits] in Hds. apply andb_prop in Hds. destruct Hds as [Hd Hds].
    cbn [append span_digits]. rewrite Hd, (IH Hds). reflexivity.
Qed.

Lemma all_digits_app_letter ds c rest :
  is_digit c = false -> all_digits (ds ++ String c rest) = false.
Proof.
  intros Hc. induction ds as [|d ds IH]; cbn [append all_digits].
  - rewrite Hc. reflexivity.
  - rewrite IH. apply andb_false_r.
Qed.

Lemma unit_group_at u v c rest :
  0 <= v -> is_digit c = false ->
  unit_group u (string_of_Z v ++ String c rest)
  = if eqb_ci u c then (Some (string_of_Z v), rest)
    else (None, string_of_Z v ++ String c rest).
Proof.
  intros Hv Hc. unfold unit_group.
  rewrite (span_digits_app _ (String c rest) (string_of_Z_all_digits v Hv) Hc).
  cbn [fst snd]. pose proof (string_of_Z_not_empty v Hv) as Hne.
  destruct (string_of_Z v) as [|d ds]; [contradiction|]. reflexivity.
Qed.

Lemma seconds_group_at v c rest :
  0 <= v -> is_digit c = false ->
  seconds_group (string_of_Z v ++ String c rest)
  = if eqb_ci "s" c then (Some (string_of_Z v), rest)
    else (Some (string_of_Z v), String c rest).
Proof.
  intros Hv Hc. unfold seconds_group.
  rewrite (span_digits_app _ (String c rest) (string_of_Z_all_digits v Hv) Hc).
  cbn [fst snd]. pose proof (string_of_Z_not_empty v Hv) as Hne.
  destruct (string_of_Z v) as [|d ds]; [contradiction|]. reflexivity.
Qed.

Lemma not_empty_app_letter ds c rest : (ds ++ String c rest =? "")%string = false.
Proof. destruct ds; reflexivity. Qed.

Lemma with_unit_app u v rest :
  (string_of_Z v ++ String u "") ++ rest = string_of_Z v ++ String u rest.
Proof. rewrite append_assoc. reflexivity. Qed.

Lemma parseTimestampSeconds_hms h m s :
  present_nonneg h -> present_nonneg m -> present_nonneg s ->
  hms_text h m s <> "" ->
  parseTimestampSeconds (hms_text h m s)
  = if amount h * 3600 + amount m * 60 + amount s >? 0
    then Some (amount h * 3600 + amount m * 60 + amount s)
    else None.
Proof.
  intros Hh Hm Hs Hne. unfold hms_text, with_unit in *.
  destruct h as [h|], m as [m|], s as [s|]; cbn [present_nonneg amount] in *;
    change ("h") with (String "h" "") in *;
    change ("m") with (String "m" "") in *;
    change ("s") with (String "s" "") in *;
    rewrite ?with_unit_app; cbn [append];
    try (exfalso; apply Hne; reflexivity);
    unfold parseTimestampSeconds;
    rewrite not_empty_app_letter, all_digits_app_letter by reflexivity;
    unfold match_hms;
    repeat (first [ rewrite unit_group_at by (assumption || reflexivity)
                  | rewrite seconds_group_at by (assumption || reflexivity) ];
            repeat match goal with
                   | |- context [eqb_ci ?a ?b] =>
                       let v := eval vm_compute in (eqb_ci a b) in
                       change (eqb_ci a b) with v
                   end;
            cbv beta iota);
    cbn;
    rewrite ?number_of_string_of_Z by assumption;
    reflexivity.
Qed.

(** A [t] of plain digits is the number of seconds, zero included. *)
Theorem parseTimestampSeconds_reads_plain_seconds :
  forall n,
    0 <= n < 2 ^ 53 ->
    parseTimestampSeconds (string_of_Z n) = Some n.
Proof.
  intros n [Hn _]. unfold parseTimestampSeconds.
  destruct (String.eqb_spec (string_of_Z n) "") as [E|_].
  - exfalso. exact (string_of_Z_not_empty n Hn E).
  - rewrite (string_of_Z_all_digits n Hn), (number_of_string_of_Z n Hn).
    reflexivity.
Qed.

Lemma parseTimestampSeconds_reads_plain_seconds_witness :
  parseTimestampSeconds "0" = Some 0.
Proof.
  apply (parseTimestampSeconds_reads_plain_seconds 0). lia.
Defined.

(** A [t] written with units, any of hours, minutes and seconds in that
    order ([1h2m3s], [90m], [45s]), is the total in seconds; but a total
    of zero written this way ([0s], [0h0m]) is refused, where the plain
    [0] is accepted. *)
Theorem parseTimestampSeconds_reads_units :
  forall h m s,
    present_nonneg h -> present_nonneg m -> present_nonneg s ->
    hms_text h m s <> "" ->
    amount h * 3600 + amount m * 60 + amount s < 2 ^ 53 ->
    parseTimestampSeconds (hms_text h m s)
    = if amount h * 3600 + amount m * 60 + amount s >? 0
      then Some (amount h * 3600 + amount m * 60 + amount s)
      else None.
Proof.
  intros h m s Hh Hm Hs Hne _. exact (parseTimestampSeconds_hms h m s Hh Hm Hs Hne).
Qed.

Lemma parseTimestampSeconds_reads_units_witness :
  parseTimestampSeconds "1h2m3s" = Some 3723
  /\ parseTimestampSeconds "0s" = None.
Proof.
  split.
  - apply (parseTimestampSeconds_reads_units (Some 1) (Some 2) (Some 3));
      cbn; try lia; discriminate.
  - apply (parseTimestampSeconds_reads_units None None (Some 0));
      cbn; try lia; try trivial; discriminate.
Defined.

(** [parseTimestampSeconds] never returns a negative number, and returns
    zero for a run of digits only. *)
Theorem parseTimestampSeconds_never_negative :
  forall raw n,
    parseTimestampSeconds raw = Some n ->
    0 <= n /\ (n = 0 -> raw <> "" /\ all_digits raw = true).
Proof.
  intros raw n. unfold parseTimestampSeconds.
  destruct (String.eqb_spec raw "") as [E|E]; [discriminate|].
  destruct (all_digits raw).
  - intros H. inversion H; subst n. split; [apply number_of_digits_nonneg|].
    auto.
  - destruct (match_hms raw) as [[[h m] s]|]; [|discriminate].
    match goal with
    | |- (if ?t >? 0 then _ else _) = _ -> _ =>
        destruct (Z.gtb_spec t 0) as [Hpos|Hpos]
    end; [|discriminate].
    intros H. inversion H; subst n. split; lia.
Qed.

Lemma parseTimestampSeconds_never_negative_witness :
  0 <= 3630 /\ (3630 = 0 -> "1H30" <> "" /\ all_digits "1H30" = true).
Proof.
  apply (parseTimestampSeconds_never_negative "1H30" 3630). reflexivity.
Defined.

(** *** Labels *)

Lemma span_digits_all ds : all_digits ds = true -> span_digits ds = (ds, "").
Proof.
  intros H. induction ds as [|d ds IH]; [reflexivity|].
  cbn [all_digits] in H. apply andb_prop in H. destruct H as [Hd Hds].
  cbn [span_digits]. rewrite Hd, (IH Hds). reflexivity.
Qed.

Lemma number_of_leading_zero s :
  number_of_digits (String "0" s) = number_of_digits s.
Proof.
  unfold number_of_digits. cbn [NilEmpty.uint_of_string].
  destruct (NilEmpty.uint_of_string s); reflexivity.
Qed.

Lemma padStart2_digits k :
  0 <= k ->
  all_digits (padStart2 (string_of_Z k)) = true /\
  number_of_digits (padStart2 (string_of_Z k)) = k.
Proof.
  intros Hk.
  pose proof (string_of_Z_all_digits k Hk) as Hd.
  pose proof (number_of_string_of_Z k Hk) as Hv.
  pose proof (string_of_Z_not_empty k Hk) as Hne.
  destruct (string_of_Z k) as [|c [|c' rest]]; [contradiction| |].
  - cbn [padStart2]. split; [exact Hd|].
    rewrite number_of_leading_zero. exact Hv.
  - cbn [padStart2]. auto.
Qed.

Lemma read_label_of_format n :
  0 <= n -> read_label (formatTimestamp n) = Some n.
Proof.
  intros Hn. unfold formatTimestamp.
  assert (Hh : 0 <= n / 3600) by (apply Z.div_pos; lia).
  assert (Hm : 0 <= (n mod 3600) / 60)
    by (apply Z.div_pos; [apply Z.mod_pos_bound|]; lia).
  assert (Hs : 0 <= n mod 60) by (apply Z.mod_pos_bound; lia).
  destruct (padStart2_digits _ Hm) as [Hmd Hmv].
  destruct (padStart2_digits _ Hs) as [Hsd Hsv].
  assert (Hms : (n mod 3600) mod 60 = n mod 60).
  { apply Z.mod_mod_divide. exists 60. reflexivity. }
  destruct (Z.gtb_spec (n / 3600) 0) as [Hpos|Hzero].
  - unfold read_label. cbn [append].
    rewrite (span_digits_app _ (String ":" _) (string_of_Z_all_digits _ Hh) eq_refl).
    cbn [fst snd]. rewrite Ascii.eqb_refl.
    rewrite (span_digits_app _ (String ":" _) Hmd eq_refl).
    cbn [fst snd]. rewrite Ascii.eqb_refl, (span_digits_all _ Hsd).
    cbn [fst snd andb String.eqb].
    rewrite (number_of_string_of_Z _ Hh), Hmv, Hsv. f_equal.
    pose proof (Z.div_mod n 3600). pose proof (Z.div_mod (n mod 3600) 60).
    lia.
  - unfold read_label. cbn [append].
    rewrite (span_digits_app _ (String ":" _) (string_of_Z_all_digits _ Hm) eq_refl).
    cbn [fst snd]. rewrite Ascii.eqb_refl, (span_digits_all _ Hsd).
    cbn [fst snd].
    rewrite (number_of_string_of_Z _ Hm), Hsv. f_equal.
    pose proof (Z.div_mod n 3600). pose proof (Z.div_mod (n mod 3600) 60).
    lia.
Qed.

(** The label tells the seconds: two different counts of seconds never
    get the same label. *)
Theorem formatTimestamp_is_injective :
  forall a b,
    0 <= a < 2 ^ 53 -> 0 <= b < 2 ^ 53 ->
    formatTimestamp a = formatTimestamp b ->
    a = b.
Proof.
  intros a b [Ha _] [Hb _] E.
  pose proof (read_label_of_format a Ha) as Ra.
  pose proof (read_label_of_format b Hb) as Rb.
  rewrite E in Ra. congruence.
Qed.

Lemma formatTimestamp_is_injective_witness : 3723 = 3723.
Proof.
  apply (formatTimestamp_is_injective 3723 3723); try lia. reflexivity.
Defined.

(** The label shown for a YouTube link: a [t] that parses, whether
    written as plain seconds or with units, gives the formatted total,
    so [90], [1m30s] and [90s] show alike; a [t] that does not parse is
    shown as it is; no [t], or a blank one, gives no label. *)
Theorem extractYoutubeTimestampLabel_by_form :
  forall trim t,
    (forall n, 0 < n < 2 ^ 53 ->
       trim t = string_of_Z n ->
       extractYoutubeTimestampLabel trim (Some t) = Some (formatTimestamp n))
    /\ (forall h m s,
          present_nonneg h -> present_nonneg m -> present_nonneg s ->
          0 < amount h * 3600 + amount m * 60 + amount s < 2 ^ 53 ->
          trim t = hms_text h m s ->
          extractYoutubeTimestampLabel trim (Some t)
          = Some (formatTimestamp
                    (amount h * 3600 + amount m * 60 + amount s)))
    /\ (trim t <> "" -> parseTimestampSeconds (trim t) = None ->
        extractYoutubeTimestampLabel trim (Some t) = Some (trim t))
    /\ (trim t = "" -> extractYoutubeTimestampLabel trim (Some t) = None)
    /\ (trim "" = "" -> extractYoutubeTimestampLabel trim None = None).
Proof.
  intros trim t. unfold extractYoutubeTimestampLabel.
  split; [|split; [|split; [|split]]].
  - intros n [Hn _] E. rewrite E.
    destruct (String.eqb_spec (string_of_Z n) "") as [E0|_].
    + exfalso. apply (string_of_Z_not_empty n); [lia | exact E0].
    + unfold parseTimestampSeconds.
      destruct (String.eqb_spec (string_of_Z n) "") as [E0|_].
      * exfalso. apply (string_of_Z_not_empty n); [lia | exact E0].
      * rewrite string_of_Z_all_digits, number_of_string_of_Z by lia.
        reflexivity.
  - intros h m s Hh Hm Hs [Hpos _] E. rewrite E.
    assert (Hne : hms_text h m s <> "").
    { intros E0. destruct h, m, s; cbn in Hpos; try lia;
        unfold hms_text, with_unit in E0;
        repeat match type of E0 with
               | context [string_of_Z ?v] =>
                   let H := fresh in
                   assert (H : string_of_Z v <> "")
                     by (apply string_of_Z_not_empty; assumption);
                   destruct (string_of_Z v); [contradiction | discriminate E0]
               end. }
    destruct (String.eqb_spec (hms_text h m s) "") as [E0|_]; [contradiction|].
    rewrite (parseTimestampSeconds_hms h m s Hh Hm Hs Hne).
    destruct (Z.gtb_spec (amount h * 3600 + amount m * 60 + amount s) 0);
      [reflexivity | lia].
  - intros Hne Hnone. destruct (String.eqb_spec (trim t) "") as [E0|_];
      [contradiction|]. rewrite Hnone. reflexivity.
  - intros E. rewrite E. reflexivity.
  - intros E. rewrite E. reflexivity.
Qed.

Lemma extractYoutubeTimestampLabel_by_form_witness :
  extractYoutubeTimestampLabel (fun s => s) (Some "90") = Some "1:30"
  /\ extractYoutubeTimestampLabel (fun s => s) (Some "1m30s") = Some "1:30"
  /\ extractYoutubeTimestampLabel (fun s => s) (Some "1:30") = Some "1:30".
Proof.
  split; [|split].
  - apply (proj1 (extractYoutubeTimestampLabel_by_form (fun s => s) "90") 90);
      [lia | reflexivity].
  - apply (proj1 (proj2 (extractYoutubeTimestampLabel_by_form (fun s => s)
                           "1m30s")) None (Some 1) (Some 30));
      cbn; try lia; try trivial; reflexivity.
  - apply (proj1 (proj2 (proj2 (extractYoutubeTimestampLabel_by_form
                                  (fun s => s) "1:30"))));
      [discriminate | reflexivity].
Defined.

(* ================================================================== *)
(** ** The media panel *)

Lemma callMcvApi_keeps_the_panel cfg requestBody w s :
  let s' := final (callMcvApi cfg requestBody w s) in
  activeMediaTab s' = activeMediaTab s /\
  selectedMedia s' = selectedMedia s /\
  mediaLibrary s' = mediaLibrary s.
Proof.
  destruct cfg as [[|] url]; cbn zeta.
  - rewrite callMcvApi_python. cbn [final]. auto.
  - destruct (String.eqb_spec (op requestBody) "cv.opencvTest") as [E|E].
    + destruct (callMcvApi_web_test url requestBody w s E) as [_ Hf].
      rewrite Hf. destruct (after_runtime_ui w s) as [H1 [_ [_ [H2 H3]]]].
      auto.
    + rewrite (callMcvApi_web_other url requestBody w s E). cbn [final].
      auto.
Qed.

Section Panel.

Variable trim : string -> string.
Variable parse_url : string -> option URL.
Variable normalizeUrlForMatch : URL -> string.
Variable renderMediaList : ModuleState -> result unit.

#[local] Abbreviation enter :=
  (handleSearchEnter trim parse_url normalizeUrlForMatch).

Lemma find_in_tab_tab s u t found :
  find_in_tab parse_url normalizeUrlForMatch s u t = Some found ->
  tab found = t.
Proof.
  unfold find_in_tab. destruct t.
  - destruct (find_by_url _ _ _ _ _) as [[id item]|]; [|discriminate].
    intros H. inversion H. reflexivity.
  - destruct (find_by_url _ _ _ _ _) as [[id item]|]; [|discriminate].
    intros H. inversion H. reflexivity.
Qed.

Lemma handleSearchEnter_keeps_library rawInput s :
  mediaLibrary (fst (enter rawInput s)) = mediaLibrary s /\
  (selection_on_active_tab s ->
   selection_on_active_tab (fst (enter rawInput s))).
Proof.
  unfold handleSearchEnter, parseUrlOrNull.
  destruct (String.eqb (trim rawInput) ""); [auto|].
  destruct (parse_url (trim rawInput)) as [url|]; [|auto].
  destruct (isYoutubeUrl url).
  - destruct (extractYoutubeId trim url) as [youtubeId|]; [|auto].
    destruct (findVideoByYoutubeId s youtubeId) as [[id item]|]; [|auto].
    split; [reflexivity | intros _; reflexivity].
  - destruct (findMediaByNormalizedUrl _ _ _ _) as [matched|];
      (split; [reflexivity | intros _; reflexivity]).
Qed.

(** Along every run of the page, whatever the user does and whatever the
    Media API and the backends answer: the library held by the module is
    well formed (distinct ids, none [__proto__], non-empty names and urls,
    no empty youtube_id), and the selection, if there is one, belongs to
    the active tab. *)
Theorem page_keeps_library_and_selection_sound :
  forall mediaApiUrl s,
    reachable trim parse_url normalizeUrlForMatch renderMediaList
      mediaApiUrl s ->
    well_formed_library (mediaLibrary s) /\ selection_on_active_tab s.
Proof.
  intros mediaApiUrl s Hs. induction Hs as [|s s' Hs [Hlib Hsel] Hstep].
  - split; [|exact I]. repeat split; constructor.
  - destruct Hstep.
    + destruct (callMcvApi_keeps_the_panel cfg requestBody w s)
        as [Ht [Hs' Hl]].
      rewrite Hl. split; [exact Hlib|].
      unfold selection_on_active_tab in *. rewrite Hs', Ht. exact Hsel.
    + split; [exact Hlib | exact I].
    + destruct (handleSearchEnter_keeps_library rawInput s) as [Hl Hsel'].
      rewrite Hl. split; [exact Hlib | exact (Hsel' Hsel)].
    + split; [exact Hlib | exact Hsel].
    + split; [exact Hlib | reflexivity].
    + split; [exact Hlib | exact I].
    + unfold loadMediaLibrary_start.
      destruct (negb (isMediaApiAvailable trim mediaApiUrl));
        (split; [exact Hlib | exact Hsel]).
    + unfold loadMediaLibrary_finish.
      destruct (fetched_library trim fetched) as [library|] eqn:E.
      * assert (Hnew : well_formed_library library).
        { unfold fetched_library in E.
          destruct fetched as [response|]; [|discriminate].
          destruct (negb (response_ok response)); [discriminate|].
          destruct (json_body response) as [payload|]; [|discriminate].
          exact (parseMediaLibrary_well_formed trim payload library E). }
        destruct (renderMediaBox renderMediaList (set_load loaded library s));
          (split; [exact Hnew | exact Hsel]).
      * split; [exact Hlib | exact Hsel].
Qed.

End Panel.

Lemma page_keeps_library_and_selection_sound_witness :
  well_formed_library (mediaLibrary page_after_load) /\
  selection_on_active_tab page_after_load.
Proof.
  apply (page_keeps_library_and_selection_sound (fun s => s) no_url href
           (fun _ => Ok tt) "https://example.com/media.json").
  unfold page_after_load.
  eapply reachable_step; [|apply step_title_click].
  eapply reachable_step; [|apply step_load_finish; reflexivity].
  eapply reachable_step; [|apply step_load_start].
  apply reachable_initial.
Defined.

Section SearchAndLoad.

Variable trim : string -> string.
Variable parse_url : string -> option URL.
Variable normalizeUrlForMatch : URL -> string.
Variable renderMediaList : ModuleState -> result unit.

#[local] Abbreviation enter :=
  (handleSearchEnter trim parse_url normalizeUrlForMatch).


(** A render throws only where the list is drawn: the library is loaded
    and nothing is selected. *)
Lemma renderMediaBox_throws s e :
  renderMediaBox renderMediaList s = Throw e ->
  selectedMedia s = None /\ mediaLoadState s = loaded /\
  renderMediaList s = Throw e.
Proof.
  unfold renderMediaBox.
  destruct (selectedMedia s); [discriminate|].
  destruct (mediaLoadState s); try discriminate. auto.
Qed.

Lemma renderMediaBox_returns s :
  (exists e, renderMediaBox renderMediaList s = Throw e)
  \/ renderMediaBox renderMediaList s = Ok tt.
Proof.
  destruct (renderMediaBox renderMediaList s) as [[]|e]; eauto.
Qed.

Lemma loadMediaLibrary_unfold mediaApiUrl fetched s :
  fst (loadMediaLibrary trim renderMediaList mediaApiUrl fetched s)
  = if negb (isMediaApiAvailable trim mediaApiUrl)
    then set_load no_api (mediaLibrary s) s
    else match fetched_library trim fetched with
         | Some library =>
             match renderMediaBox renderMediaList
                     (set_load loaded library s) with
             | Ok _ => set_load loaded library s
             | Throw _ => set_load failed library s
             end
         | None => set_load failed (mediaLibrary s) s
         end.
Proof.
  unfold loadMediaLibrary, loadMediaLibrary_start, loadMediaLibrary_finish.
  destruct (negb (isMediaApiAvailable trim mediaApiUrl)); [reflexivity|].
  destruct (fetched_library trim fetched) as [library|]; [|reflexivity].
  change (set_load loaded library (set_load fetching (mediaLibrary s) s))
    with (set_load loaded library s).
  destruct (renderMediaBox renderMediaList (set_load loaded library s));
    reflexivity.
Qed.

(** Loading the library.  Without a Media API URL it ends [no_api],
    nothing fetched, library kept.  With one, a reply that is a 2xx whose
    body is a JSON object puts the library parsed from it in place, and
    the load ends [loaded]; unless drawing the list throws, which needs
    that nothing is selected and that [renderMediaList] throws on the new
    library: then it ends [failed], the new library staying in place.
    Any other reply ends [failed] with the library kept as it was.  The
    tab, the selection, the query and [cvPromise] stay. *)
Theorem loadMediaLibrary_outcomes :
  forall mediaApiUrl fetched s,
    let s' := fst (loadMediaLibrary trim renderMediaList mediaApiUrl
                     fetched s) in
    (isMediaApiAvailable trim mediaApiUrl = false ->
     mediaLoadState s' = no_api /\ mediaLibrary s' = mediaLibrary s)
    /\ (isMediaApiAvailable trim mediaApiUrl = true ->
        (exists response payload library,
           fetched = Ok response /\ response_ok response = true /\
           json_body response = Ok payload /\ isRecord payload = true /\
           parseMediaLibrary trim payload = Some library /\
           mediaLibrary s' = library /\
           (mediaLoadState s' = loaded /\
            (selectedMedia s <> None \/
             renderMediaList (set_load loaded library s) = Ok tt)
            \/ mediaLoadState s' = failed /\
               selectedMedia s = None /\
               exists e,
                 renderMediaList (set_load loaded library s) = Throw e))
        \/ ((forall response payload,
               fetched = Ok response -> response_ok response = true ->
               json_body response = Ok payload -> isRecord payload = false) /\
            mediaLoadState s' = failed /\ mediaLibrary s' = mediaLibrary s))
    /\ activeMediaTab s' = activeMediaTab s
    /\ selectedMedia s' = selectedMedia s
    /\ mediaSearchQuery s' = mediaSearchQuery s
    /\ cvPromise s' = cvPromise s.
Proof.
  intros mediaApiUrl fetched s s'. subst s'. rewrite loadMediaLibrary_unfold.
  split; [|split].
  - intros H. rewrite H. cbn. auto.
  - intros H. rewrite H. cbn [negb]. unfold fetched_library.
    destruct fetched as [response|e].
    + destruct (response_ok response) eqn:Hok; cbn [negb].
      * destruct (json_body response) as [payload|e] eqn:Hb.
        -- unfold parseMediaLibrary.
           destruct (isRecord payload) eqn:Hrec; cbn [negb].
           ++ left. exists response, payload. eexists.
              split; [reflexivity|]. split; [exact Hok|].
              split; [exact Hb|]. split; [exact Hrec|].
              split; [unfold parseMediaLibrary; rewrite Hrec; reflexivity|].
              match goal with
              | |- context [renderMediaBox renderMediaList ?x] =>
                  destruct (renderMediaBox_returns x) as [[e He]|Hr]
              end.
              ** rewrite He. split; [reflexivity|]. right.
                 destruct (renderMediaBox_throws _ e He) as [Hs [_ Hl]].
                 split; [reflexivity|]. split; [exact Hs|].
                 exists e. exact Hl.
              ** rewrite Hr. split; [reflexivity|]. left.
                 split; [reflexivity|].
                 unfold renderMediaBox in Hr. cbn in Hr.
                 destruct (selectedMedia s); [left; discriminate|].
                 right. exact Hr.
           ++ right. split; [|cbn; auto].
              intros r p Hr _ Hp. inversion Hr; subst r.
              rewrite Hb in Hp. inversion Hp; subst p. exact Hrec.
        -- right. split; [|cbn; auto].
           intros r p Hr _ Hp. inversion Hr; subst r.
           rewrite Hb in Hp. discriminate Hp.
      * right. split; [|cbn; auto].
        intros r p Hr Hok' _. inversion Hr; subst r. congruence.
    + right. split; [|cbn; auto]. intros r p Hr. discriminate Hr.
  - destruct (negb (isMediaApiAvailable trim mediaApiUrl));
      [cbn; auto|].
    destruct (fetched_library trim fetched) as [library|]; [|cbn; auto].
    destruct (renderMediaBox renderMediaList (set_load loaded library s));
      cbn; auto.
Qed.

End SearchAndLoad.


Lemma loadMediaLibrary_outcomes_witness :
  mediaLoadState
    (fst (loadMediaLibrary (fun s => s) (fun _ => Ok tt) ""
            sample_media_reply initial_state))
  = no_api
  /\ mediaLoadState
       (fst (loadMediaLibrary (fun s => s) (fun _ => Ok tt)
               "https://example.com/media.json"
               sample_media_reply initial_state))
     = loaded
  /\ (mediaLoadState
        (fst (loadMediaLibrary (fun s => s) broken_list
                "https://example.com/media.json"
                sample_media_reply initial_state))
      = failed
      /\ mediaLibrary
           (fst (loadMediaLibrary (fun s => s) broken_list
                   "https://example.com/media.json"
                   sample_media_reply initial_state))
         <> mediaLibrary initial_state).
Proof.
  split; [|split].
  - apply (proj1 (loadMediaLibrary_outcomes (fun s => s) (fun _ => Ok tt) ""
                    sample_media_reply initial_state)).
    reflexivity.
  - destruct (proj1 (proj2 (loadMediaLibrary_outcomes (fun s => s)
                              (fun _ => Ok tt)
                              "https://example.com/media.json"
                              sample_media_reply initial_state)) eq_refl)
      as [Hparsed|[_ [H _]]]; [|discriminate H].
    destruct Hparsed as [r [p [l [_ [_ [_ [_ [_ [_ Hend]]]]]]]]].
    destruct Hend as [[H _]|[H _]]; [exact H | discriminate H].
  - destruct (proj1 (proj2 (loadMediaLibrary_outcomes (fun s => s)
                              broken_list
                              "https://example.com/media.json"
                              sample_media_reply initial_state)) eq_refl)
      as [Hparsed|[_ [_ H]]]; [|discriminate H].
    destruct Hparsed as [r [p [l [_ [_ [_ [_ [_ [_ Hend]]]]]]]]].
    destruct Hend as [[H _]|[H _]]; [discriminate H|].
    split; [exact H | discriminate].
Defined.

(* ================================================================== *)
(** ** YouTube links *)

Lemma id_char_is_no_slash c : is_id_char c = true -> Ascii.eqb c "/" = false.
Proof.
  destruct (Ascii.eqb_spec c "/") as [E|E]; [|reflexivity].
  subst c. intros H. discriminate H.
Qed.

Lemma split_on_id s : all_id_chars s = true -> split_on "/" s = [s].
Proof.
  induction s as [|c s IH]; intros H; [reflexivity|].
  cbn [all_id_chars] in H. apply andb_prop in H. destruct H as [Hc Hs].
  cbn [split_on]. rewrite (id_char_is_no_slash c Hc), (IH Hs). reflexivity.
Qed.

Lemma is_youtube_id_inv s :
  is_youtube_id s = true -> all_id_chars s = true /\ (s =? "")%string = false.
Proof.
  unfold is_youtube_id. intros H. apply andb_prop in H. destruct H as [Hl Hc].
  split; [exact Hc|]. destruct s; [discriminate Hl | reflexivity].
Qed.

Lemma youtube_com_is_not_youtu_be host :
  endsWith host "youtube.com" = true ->
  (host =? "youtu.be")%string = false /\ (host =? "www.youtu.be")%string = false.
Proof.
  intros H. split.
  - destruct (String.eqb_spec host "youtu.be") as [E|E]; [|reflexivity].
    subst host. discriminate H.
  - destruct (String.eqb_spec host "www.youtu.be") as [E|E]; [|reflexivity].
    subst host. discriminate H.
Qed.

(** The id of a YouTube link is read from each of its forms:
    [youtu.be/ID], [youtube.com/watch?v=ID], and [youtube.com/shorts/ID],
    [/embed/ID], [/live/ID], [/v/ID], on any host whose name ends in
    [youtube.com]; the id is six or more letters, digits, [_] or [-]. *)
Theorem extractYoutubeId_reads_the_link_forms :
  forall trim url video_id,
    trim video_id = video_id ->
    is_youtube_id video_id = true ->
    ((toLowerCase (hostname url) = "youtu.be" \/
      toLowerCase (hostname url) = "www.youtu.be") ->
     pathname url = "/" ++ video_id ->
     extractYoutubeId trim url = Some video_id)
    /\ (endsWith (toLowerCase (hostname url)) "youtube.com" = true ->
        pathname url = "/watch" ->
        searchParams_get "v" (searchParams url) = Some video_id ->
        extractYoutubeId trim url = Some video_id)
    /\ (endsWith (toLowerCase (hostname url)) "youtube.com" = true ->
        forall kind,
          In kind ["shorts"; "embed"; "live"; "v"] ->
          pathname url = "/" ++ kind ++ "/" ++ video_id ->
          extractYoutubeId trim url = Some video_id).
Proof.
  intros trim url video_id Htrim Hid.
  destruct (is_youtube_id_inv video_id Hid) as [Hchars Hne].
  split; [|split].
  - intros Hhost Hpath. unfold extractYoutubeId. rewrite Hpath.
    assert (Hb : (toLowerCase (hostname url) =? "youtu.be")%string
                 || (toLowerCase (hostname url) =? "www.youtu.be")%string
                 = true).
    { destruct Hhost as [E|E]; rewrite E; reflexivity. }
    rewrite Hb. cbn [append split_on Ascii.eqb Bool.eqb].
    rewrite (split_on_id video_id Hchars).
    cbn [non_empty_parts filter String.eqb negb]. rewrite Hne. cbn [negb].
    rewrite Htrim, Hne, Hid. reflexivity.
  - intros Hhost Hpath Hv. unfold extractYoutubeId.
    destruct (youtube_com_is_not_youtu_be _ Hhost) as [H1 H2].
    rewrite H1, H2, Hhost, Hpath, Hv. cbn [orb].
    rewrite String.eqb_refl, Htrim, Hne, Hid. reflexivity.
  - intros Hhost kind Hkind Hpath. unfold extractYoutubeId.
    destruct (youtube_com_is_not_youtu_be _ Hhost) as [H1 H2].
    rewrite H1, H2, Hhost, Hpath. cbn [orb].
    destruct Hkind as [E|[E|[E|[E|[]]]]]; subst kind;
      cbn [append split_on Ascii.eqb Bool.eqb String.eqb];
      rewrite (split_on_id video_id Hchars);
      cbn [non_empty_parts filter String.eqb Ascii.eqb Bool.eqb negb existsb
           orb];
      rewrite Hne; cbn [negb existsb String.eqb Ascii.eqb Bool.eqb orb];
      rewrite Htrim, Hne, Hid; reflexivity.
Qed.

Lemma extractYoutubeId_reads_the_link_forms_witness :
  extractYoutubeId (fun s => s)
    {| hostname := "m.youtube.com"; pathname := "/shorts/dQw4w9WgXcQ";
       searchParams := []; href := "https://m.youtube.com/shorts/dQw4w9WgXcQ" |}
  = Some "dQw4w9WgXcQ".
Proof.
  apply (proj2 (proj2 (extractYoutubeId_reads_the_link_forms (fun s => s)
                         {| hostname := "m.youtube.com";
                            pathname := "/shorts/dQw4w9WgXcQ";
                            searchParams := [];
                            href := "https://m.youtube.com/shorts/dQw4w9WgXcQ" |}
                         "dQw4w9WgXcQ" eq_refl eq_refl))
           eq_refl "shorts").
  - left. reflexivity.
  - reflexivity.
Defined.



(* ================================================================== *)
(** ** The list and the search box *)

Section SearchList.

Variable trim : string -> string.
Variable lowerCase : string -> string.
Variable parse_url : string -> option URL.
Variable normalizeUrlForMatch : URL -> string.

#[local] Abbreviation matches :=
  (matchesMediaSearch trim lowerCase parse_url normalizeUrlForMatch).
#[local] Abbreviation listed :=
  (mediaEntries trim lowerCase parse_url normalizeUrlForMatch).
#[local] Abbreviation token := (normalizeSearchToken trim lowerCase).

Lemma matches_reads_the_query s s' id item t :
  mediaSearchQuery s' = mediaSearchQuery s ->
  matches s' id item t = matches s id item t.
Proof. intros H. unfold matchesMediaSearch. rewrite H. reflexivity. Qed.

Lemma extractYoutubeId_not_empty u y :
  extractYoutubeId trim u = Some y -> (y =? "")%string = false.
Proof.
  unfold extractYoutubeId.
  match goal with
  | |- (if (?c =? "")%string then _ else _) = _ -> _ =>
      destruct (c =? "")%string eqn:E; [discriminate|];
      destruct (is_youtube_id c); [|discriminate]
  end.
  intros H. inversion H; subst y. exact E.
Qed.

(** The video found for the id of a YouTube link passes the filter when
    the link is the text of the search box. *)
Lemma youtube_hit_matches s url y found_id found_item :
  parse_url (trim (mediaSearchQuery s)) = Some url ->
  isYoutubeUrl url = true ->
  extractYoutubeId trim url = Some y ->
  findVideoByYoutubeId s y = Some (found_id, found_item) ->
  matches s found_id (inl found_item) videos_tab = true.
Proof.
  intros Hurl Hyt Hy Hfind. unfold matchesMediaSearch.
  destruct (token (mediaSearchQuery s) =? "")%string; [reflexivity|].
  unfold parseSearchIntent, parseUrlOrNull. cbn [youtubeId normalizedUrl].
  rewrite Hurl, Hyt, Hy, (extractYoutubeId_not_empty url y Hy).
  unfold findVideoByYoutubeId in Hfind. apply find_some in Hfind.
  destruct Hfind as [_ Htest]. cbn [fst snd] in Htest.
  cbn [negb andb item_youtube_id].
  replace ((found_id =? y)%string
           || match youtube_id found_item with
              | Some own => (own =? y)%string
              | None => false
              end) with true by (symmetry; exact Htest).
  reflexivity.
Qed.

(** So does the entry found for any other URL. *)
Lemma url_hit_matches s url found :
  parse_url (trim (mediaSearchQuery s)) = Some url ->
  findMediaByNormalizedUrl parse_url normalizeUrlForMatch s
    (normalizeUrlForMatch url) = Some found ->
  matches s (id found) (item found) (tab found) = true
  /\ In (id found, item found)
        (rawMediaEntries (select (tab found) (Some found) s)).
Proof.
  intros Hurl Hfound.
  assert (Hin : exists t,
             find_in_tab parse_url normalizeUrlForMatch s
               (normalizeUrlForMatch url) t = Some found).
  { unfold findMediaByNormalizedUrl in Hfound.
    destruct (activeMediaTab s);
      match type of Hfound with
      | match ?a with _ => _ end = _ =>
          destruct a eqn:E; [inversion Hfound; subst; eauto | eauto]
      end. }
  destruct Hin as [t Ht].
  assert (Hhit :
    match normalizePossibleUrl parse_url normalizeUrlForMatch
            (item_url (item found)) with
    | Some itemUrl =>
        negb (itemUrl =? "")%string
        && (itemUrl =? normalizeUrlForMatch url)%string
    | None => false
    end = true
    /\ In (id found, item found)
          (rawMediaEntries (select (tab found) (Some found) s))).
  { unfold find_in_tab in Ht. destruct t.
    - destruct (find_by_url _ _ video_url _ _) as [[i v]|] eqn:E;
        [|discriminate Ht].
      inversion Ht; subst found. cbn [id item tab item_url].
      unfold find_by_url in E. apply find_some in E. destruct E as [Hin Htest].
      cbn [snd] in Htest. split; [exact Htest|].
      unfold rawMediaEntries. cbn.
      apply (in_map (fun e => (fst e, inl (snd e))) _ (i, v)). exact Hin.
    - destruct (find_by_url _ _ image_url _ _) as [[i v]|] eqn:E;
        [|discriminate Ht].
      inversion Ht; subst found. cbn [id item tab item_url].
      unfold find_by_url in E. apply find_some in E. destruct E as [Hin Htest].
      cbn [snd] in Htest. split; [exact Htest|].
      unfold rawMediaEntries. cbn.
      apply (in_map (fun e => (fst e, inr (snd e))) _ (i, v)). exact Hin. }
  destruct Hhit as [Hhit Hin]. split; [|exact Hin].
  unfold matchesMediaSearch.
  destruct (token (mediaSearchQuery s) =? "")%string; [reflexivity|].
  unfold parseSearchIntent, parseUrlOrNull. cbn [youtubeId normalizedUrl].
  rewrite Hurl.
  match goal with |- (if ?c then true else _) = true => destruct c end;
    [reflexivity|].
  destruct (normalizePossibleUrl parse_url normalizeUrlForMatch
              (item_url (item found))) as [itemUrl|]; [|discriminate Hhit].
  apply andb_prop in Hhit. destruct Hhit as [Hne Heq].
  apply String.eqb_eq in Heq. subst itemUrl.
  rewrite Hne, String.eqb_refl. reflexivity.
Qed.

(** What Enter selects from the library is in the list: when the list is
    showing, the text of the search box is a link and Enter on it selects
    an entry of the library (not the stand-in for a direct URL, whose id
    is [raw-url]), that entry is among those the list shows for the same
    text on the tab Enter has made active, so Back returns to a list that
    holds it. *)
Theorem list_shows_what_enter_selects :
  forall s selection,
    selectedMedia s = None ->
    selectedMedia
      (fst (handleSearchEnter trim parse_url normalizeUrlForMatch
              (mediaSearchQuery s) s)) = Some selection ->
    id selection <> "raw-url" ->
    In (id selection, item selection)
       (listed (fst (handleSearchEnter trim parse_url normalizeUrlForMatch
                       (mediaSearchQuery s) s))).
Proof.
  intros s selection Hnone. unfold handleSearchEnter, parseUrlOrNull.
  destruct (trim (mediaSearchQuery s) =? "")%string;
    [cbn [fst]; rewrite Hnone; discriminate|].
  destruct (parse_url (trim (mediaSearchQuery s))) as [url|] eqn:Hurl;
    [|cbn [fst]; rewrite Hnone; discriminate].
  destruct (isYoutubeUrl url) eqn:Hyt.
  - destruct (extractYoutubeId trim url) as [y|] eqn:Hy;
      [|cbn [fst]; rewrite Hnone; discriminate].
    destruct (findVideoByYoutubeId s y) as [[found_id found_item]|] eqn:Hfind;
      [|cbn [fst]; rewrite Hnone; discriminate].
    cbn [fst]. intros Hsel _. cbn in Hsel. inversion Hsel; subst selection.
    cbn [id item]. unfold mediaEntries. apply filter_In. split.
    + unfold rawMediaEntries. cbn.
      apply (in_map (fun e => (fst e, inl (snd e))) _ (found_id, found_item)).
      unfold findVideoByYoutubeId in Hfind. apply find_some in Hfind.
      exact (proj1 Hfind).
    + cbn [fst snd]. rewrite (matches_reads_the_query s); [|reflexivity].
      exact (youtube_hit_matches s url y found_id found_item Hurl Hyt Hy Hfind).
  - destruct (findMediaByNormalizedUrl parse_url normalizeUrlForMatch s
                (normalizeUrlForMatch url)) as [found|] eqn:Hfound.
    + cbn [fst]. intros Hsel _. cbn in Hsel. inversion Hsel; subst selection.
      destruct (url_hit_matches s url found Hurl Hfound) as [Hm Hin].
      unfold mediaEntries. apply filter_In. split; [exact Hin|].
      cbn [fst snd]. rewrite (matches_reads_the_query s); [|reflexivity].
      exact Hm.
    + cbn [fst]. intros Hsel Hid. cbn in Hsel. inversion Hsel; subst selection.
      exfalso. apply Hid. reflexivity.
Qed.

(** The list as a text search: it shows entries of the active
    tab only, in the library's order; with a blank search box it shows
    them all; and whatever else the text is (a link included), an entry
    whose id, name or url holds the text, both trimmed and in lower case,
    is shown. *)
Theorem list_is_a_text_search :
  forall s,
    (forall e, In e (listed s) -> In e (rawMediaEntries s))
    /\ (token (mediaSearchQuery s) = "" -> listed s = rawMediaEntries s)
    /\ (forall e,
          In e (rawMediaEntries s) ->
          includes (token (fst e)) (token (mediaSearchQuery s)) = true
          \/ includes (token (item_name (snd e))) (token (mediaSearchQuery s))
             = true
          \/ includes (token (item_url (snd e))) (token (mediaSearchQuery s))
             = true ->
          In e (listed s)).
Proof.
  intros s. split; [|split].
  - intros e He. unfold mediaEntries in He. apply filter_In in He.
    exact (proj1 He).
  - intros Hblank. unfold mediaEntries, matchesMediaSearch.
    rewrite Hblank. cbn [String.eqb].
    induction (rawMediaEntries s) as [|e l IH]; [reflexivity|].
    cbn [filter]. rewrite IH. reflexivity.
  - intros e He Hholds. unfold mediaEntries. apply filter_In.
    split; [exact He|]. unfold matchesMediaSearch.
    destruct (token (mediaSearchQuery s) =? "")%string; [reflexivity|].
    match goal with |- (if ?c then true else _) = true => destruct c end;
      [reflexivity|].
    match goal with |- (if ?c then true else _) = true => destruct c end;
      [reflexivity|].
    cbn [app existsb].
    destruct Hholds as [H|[H|H]]; rewrite H;
      rewrite ?orb_true_r; reflexivity.
Qed.

End SearchList.

Lemma list_shows_what_enter_selects_witness :
  In ("mcc11",
      inl {| video_name := "Dream MCC 11 Parkour";
             video_url := "https://example.com/a.mp4";
             youtube_id := Some "dQw4w9WgXcQ" |})
     (mediaEntries (fun s => s) toLowerCase sample_parse_url href
        (fst (handleSearchEnter (fun s => s) sample_parse_url href
                (mediaSearchQuery page_with_link_typed)
                page_with_link_typed))).
Proof.
  apply (list_shows_what_enter_selects (fun s => s) toLowerCase
           sample_parse_url href page_with_link_typed
           {| tab := videos_tab; id := "mcc11";
              item := inl {| video_name := "Dream MCC 11 Parkour";
                             video_url := "https://example.com/a.mp4";
                             youtube_id := Some "dQw4w9WgXcQ" |};
              timestampLabel := Some "1:30" |}).
  - reflexivity.
  - reflexivity.
  - discriminate.
Defined.

Lemma list_is_a_text_search_witness :
  In ("plain",
      inl {| video_name := "Plain";
             video_url := "https://example.com/b.mp4";
             youtube_id := None |})
     (mediaEntries (fun s => s) toLowerCase no_url href
        (fst (on_search_input "PLA" (fst (on_back_click page_after_load))))).
Proof.
  apply (proj2 (proj2 (list_is_a_text_search (fun s => s) toLowerCase no_url
                         href
                         (fst (on_search_input "PLA"
                                 (fst (on_back_click page_after_load))))))).
  - right. left. reflexivity.
  - left. reflexivity.
Defined.
